(** * CloudeCode: terminal session registry, pattern scanner and tunnel
      orchestration

    A shallow embedding of the Python sources under [src/] and the
    properties the design document states about them.

    Conventions.  Python exceptions are values of [result]; wall-clock
    time, process liveness and the outcome of file and process operations
    are inputs of the functions that consult them (the record [Env]);
    text is a [string] of code points below 256. *)

From Stdlib Require Import ZArith Ascii String Lia.
From stdpp Require Import base option list gmap strings pretty.

Local Open Scope Z_scope.
Set Warnings "-clear-no-such-hyp".

(** ** Python results *)

Inductive exn :=
| ValueError (msg : string)
| PTYSessionError (msg : string)
| NamedTunnelError (msg : string)
| TunnelError (msg : string)
| AttributeError (msg : string)
| CloudflareAPIError (msg : string)
| OSError (msg : string).

(** The outcome of a call: it returns, it raises, or (for an awaited call)
    it never completes. *)
Inductive result (A : Type) :=
| Ret (a : A)
| Raise (e : exn)
| Blocked.
Arguments Ret {A} a.
Arguments Raise {A} e.
Arguments Blocked {A}.

Definition is_ret {A} (r : result A) : bool :=
  match r with Ret _ => true | _ => false end.

(** ** Regular expressions: the fragment of Python's [re] that
       [utils/patterns.py] uses

    A backtracking matcher with ordered alternatives, greedy and lazy
    repetition of a character class, optional sub-expressions and numbered
    capture groups; [search] returns the leftmost match, as [re.search]. *)

Module Re.

Inductive cclass :=
| CLit (c : ascii)   (* a literal character *)
| CDigit             (* \d *)
| CSpace             (* \s *)
| CAny.              (* .  (no DOTALL: anything but a newline) *)

Inductive regex :=
| REmpty
| RChar (cc : cclass)
| RSeq (r1 r2 : regex)
| RAlt (r1 r2 : regex)            (* r1|r2, r1 tried first *)
| ROpt (r : regex)                (* r?  greedy *)
| RStar (cc : cclass)             (* cc*  greedy *)
| RStarLazy (cc : cclass)         (* cc*? *)
| RGroup (n : nat) (r : regex).   (* capture group number n, from 1 *)

Definition RPlus (cc : cclass) : regex := RSeq (RChar cc) (RStar cc).

Definition is_digit (c : ascii) : bool :=
  let n := nat_of_ascii c in (48 <=? n)%nat && (n <=? 57)%nat.

(* str.isspace on code points below 256 *)
Definition is_space (c : ascii) : bool :=
  let n := nat_of_ascii c in
  ((9 <=? n)%nat && (n <=? 13)%nat) || ((28 <=? n)%nat && (n <=? 32)%nat)
  || (n =? 133)%nat || (n =? 160)%nat.

Definition lower (c : ascii) : ascii :=
  let n := nat_of_ascii c in
  if (65 <=? n)%nat && (n <=? 90)%nat then ascii_of_nat (n + 32) else c.

Definition cmatch (icase : bool) (cc : cclass) (c : ascii) : bool :=
  match cc with
  | CLit l => if icase then Ascii.eqb (lower l) (lower c) else Ascii.eqb l c
  | CDigit => is_digit c
  | CSpace => is_space c
  | CAny => negb (Ascii.eqb c "010"%char)
  end.

(** Capture groups 1..n, [None] for a group that took no part. *)
Definition caps := list (option string).

(** The part of [s] consumed when [s'] is what remains of it. *)
Definition consumed (s s' : string) : string :=
  substring 0 (String.length s - String.length s') s.

Section Matcher.
Context {A : Type}.
Variable icase : bool.

Fixpoint star_greedy (cc : cclass) (k : string → option A) (s : string)
  : option A :=
  match s with
  | String c s' =>
      if cmatch icase cc c then
        match star_greedy cc k s' with
        | Some a => Some a
        | None => k s
        end
      else k s
  | EmptyString => k s
  end.

Fixpoint star_lazy (cc : cclass) (k : string → option A) (s : string)
  : option A :=
  match k s with
  | Some a => Some a
  | None =>
      match s with
      | String c s' => if cmatch icase cc c then star_lazy cc k s' else None
      | EmptyString => None
      end
  end.

Fixpoint rmatch (r : regex) (s : string) (cs : caps)
  (k : string → caps → option A) : option A :=
  match r with
  | REmpty => k s cs
  | RChar cc =>
      match s with
      | String c s' => if cmatch icase cc c then k s' cs else None
      | EmptyString => None
      end
  | RSeq r1 r2 => rmatch r1 s cs (λ s1 cs1, rmatch r2 s1 cs1 k)
  | RAlt r1 r2 =>
      match rmatch r1 s cs k with
      | Some a => Some a
      | None => rmatch r2 s cs k
      end
  | ROpt r1 =>
      match rmatch r1 s cs k with
      | Some a => Some a
      | None => k s cs
      end
  | RStar cc => star_greedy cc (λ s', k s' cs) s
  | RStarLazy cc => star_lazy cc (λ s', k s' cs) s
  | RGroup n r1 =>
      rmatch r1 s cs
        (λ s1 cs1, k s1 (<[Nat.pred n := Some (consumed s s1)]> cs1))
  end.
End Matcher.

Fixpoint ngroups (r : regex) : nat :=
  match r with
  | RSeq r1 r2 | RAlt r1 r2 => Nat.max (ngroups r1) (ngroups r2)
  | ROpt r1 => ngroups r1
  | RGroup n r1 => Nat.max n (ngroups r1)
  | _ => 0%nat
  end.


(** *** Reading a pattern as [re.compile] does

    The syntax that occurs in [PATTERNS]: literals, [.], the escapes [\d],
    [\s] and escaped punctuation, groups [( )] and [(?: )], alternation,
    [?] on anything, and [*], [+], [*?] on a single character or class.
    Groups are numbered by their opening parenthesis. *)

Definition is_meta (c : ascii) : bool :=
  existsb (Ascii.eqb c)
    ["("%char; ")"%char; "|"%char; "?"%char; "*"%char; "+"%char;
     "["%char; "]"%char; "{"%char; "}"%char; "^"%char; "$"%char].

Definition escape (c : ascii) : option cclass :=
  if Ascii.eqb c "d" then Some CDigit
  else if Ascii.eqb c "s" then Some CSpace
  else if is_meta c || Ascii.eqb c "." || Ascii.eqb c "\" then Some (CLit c)
  else None.

(** The quantifier, if any, that follows the atom [a]. *)
Definition quantify (a : regex) (s : string) : option (regex * string) :=
  match s with
  | String q rest =>
      if Ascii.eqb q "?" then
        match rest with
        | String q2 _ => if Ascii.eqb q2 "?" then None else Some (ROpt a, rest)
        | EmptyString => Some (ROpt a, rest)
        end
      else if Ascii.eqb q "*" then
        match a, rest with
        | RChar cc, String q2 rest2 =>
            if Ascii.eqb q2 "?" then Some (RStarLazy cc, rest2)
            else Some (RStar cc, rest)
        | RChar cc, EmptyString => Some (RStar cc, rest)
        | _, _ => None
        end
      else if Ascii.eqb q "+" then
        match a, rest with
        | RChar cc, String q2 _ =>
            if Ascii.eqb q2 "?" then None else Some (RPlus cc, rest)
        | RChar cc, EmptyString => Some (RPlus cc, rest)
        | _, _ => None
        end
      else Some (a, s)
  | EmptyString => Some (a, s)
  end.

Definition seq_cons (a r : regex) : regex :=
  match r with
  | REmpty => a
  | _ => RSeq a r
  end.

Fixpoint parse_alt (fuel : nat) (s : string) (g : nat) {struct fuel}
  : option (regex * string * nat) :=
  match fuel with
  | O => None
  | S f =>
      match parse_seq f s g with
      | Some (r1, String c rest, g1) =>
          if Ascii.eqb c "|" then
            match parse_alt f rest g1 with
            | Some (r2, rest2, g2) => Some (RAlt r1 r2, rest2, g2)
            | None => None
            end
          else Some (r1, String c rest, g1)
      | other => other
      end
  end
with parse_seq (fuel : nat) (s : string) (g : nat) {struct fuel}
  : option (regex * string * nat) :=
  match fuel with
  | O => None
  | S f =>
      match s with
      | EmptyString => Some (REmpty, s, g)
      | String c _ =>
          if Ascii.eqb c "|" || Ascii.eqb c ")" then Some (REmpty, s, g)
          else
            match parse_atom f s g with
            | Some (a, rest, g1) =>
                match quantify a rest with
                | Some (a', rest') =>
                    match parse_seq f rest' g1 with
                    | Some (r, rest2, g2) => Some (seq_cons a' r, rest2, g2)
                    | None => None
                    end
                | None => None
                end
            | None => None
            end
      end
  end
with parse_atom (fuel : nat) (s : string) (g : nat) {struct fuel}
  : option (regex * string * nat) :=
  match fuel with
  | O => None
  | S f =>
      match s with
      | EmptyString => None
      | String c rest =>
          if Ascii.eqb c "(" then
            match rest with
            | String c1 (String c2 rest') =>
                if Ascii.eqb c1 "?" then
                  if Ascii.eqb c2 ":" then
                    match parse_alt f rest' g with
                    | Some (r, String c3 rest2, g1) =>
                        if Ascii.eqb c3 ")" then Some (r, rest2, g1) else None
                    | _ => None
                    end
                  else None
                else
                  match parse_alt f rest (S g) with
                  | Some (r, String c3 rest2, g1) =>
                      if Ascii.eqb c3 ")" then Some (RGroup g r, rest2, g1)
                      else None
                  | _ => None
                  end
            | _ => None
            end
          else if Ascii.eqb c "\" then
            match rest with
            | String c1 rest' =>
                match escape c1 with
                | Some cc => Some (RChar cc, rest', g)
                | None => None
                end
            | EmptyString => None
            end
          else if Ascii.eqb c "." then Some (RChar CAny, rest, g)
          else if is_meta c then None
          else Some (RChar (CLit c), rest, g)
      end
  end.

Definition parse (src : string) : option regex :=
  match parse_alt (4 * String.length src + 4) src 1 with
  | Some (r, EmptyString, _) => Some r
  | _ => None
  end.

(** A compiled pattern: the expression and the IGNORECASE flag. *)
Record pattern := Pattern { p_regex : regex; p_icase : bool }.

(** An expression that matches nothing, for a source that is not read. *)
Definition RFail : regex := RSeq (RChar CAny) (RChar (CLit "010")).

(** [re.compile(src)] and [re.compile(src, re.IGNORECASE)]. *)
Definition compile (src : string) (ignorecase : bool) : pattern :=
  Pattern (default RFail (parse src)) ignorecase.

(** A match object: [group0] is [m.group(0)], [groups] is [m.groups()]. *)
Record mtch := Mtch { group0 : string; groups : list (option string) }.

Definition match_at (p : pattern) (s : string) : option mtch :=
  rmatch (p_icase p) (p_regex p) s
    (replicate (ngroups (p_regex p)) None)
    (λ s' cs, Some (Mtch (consumed s s') cs)).

Fixpoint search (p : pattern) (s : string) : option mtch :=
  match match_at p s with
  | Some m => Some m
  | None =>
      match s with
      | String _ s' => search p s'
      | EmptyString => None
      end
  end.

(** [m.group(n)] for [n >= 1]. *)
Definition group (m : mtch) (n : nat) : option string :=
  match groups m !! Nat.pred n with
  | Some g => g
  | None => None
  end.

End Re.

(** ** utils/patterns.py *)

Module PatternDetector.
Import Re.

Record PatternMatch := mkPatternMatch {
  pattern_name : string;
  matched_text : string;
  pm_groups : list (option string);
  line_number : Z
}.

Definition localhost_server : pattern :=
  compile
    ("(?:https?://)?localhost:(\d+)|"
     +:+ "(?:https?://)?127\.0\.0\.1:(\d+)|"
     +:+ "(?:https?://)?0\.0\.0\.0:(\d+)|"
     +:+ "(?:https?://)?(?:\[::\]|\[::1\]):(\d+)")
    false.

Definition server_ready : pattern :=
  compile
    ("(?:server|development server|dev server).*?"
     +:+ "(?:running|listening|started|ready|available)")
    true.

Definition listening_on_port : pattern :=
  compile "(?:listening|running|started|serving).*?(?:port|on|:)\s*(\d+)" true.

Definition error : pattern :=
  compile "(?:ERROR|Error|error|FAIL|Failed|failed):" true.

Definition warning : pattern :=
  compile "(?:WARNING|Warning|warning|WARN):" true.

Definition file_created : pattern :=
  compile "(?:Created|Writing|Saved|Wrote).*?(?:file|to):\s*(.+)" true.

Definition build_complete : pattern :=
  compile "(?:build|compilation|compile).*?(?:complete|successful|finished|done)"
    true.

Definition test_result : pattern :=
  compile "(?:tests?|specs?).*?(?:passed|failed|complete|finished)" true.

(** The class attribute [PATTERNS], in the order of the dict literal. *)
Definition PATTERNS : list (string * pattern) :=
  [ ("localhost_server", localhost_server);
    ("server_ready", server_ready);
    ("listening_on_port", listening_on_port);
    ("error", error);
    ("warning", warning);
    ("file_created", file_created);
    ("build_complete", build_complete);
    ("test_result", test_result) ].

(** [callbacks]: pattern name to the handlers registered for it, in
    registration order.  A handler is named by a value of [H]. *)
Section Callbacks.
Context {H : Type}.

Definition register_callback (cbs : gmap string (list H))
  (name : string) (h : H) : gmap string (list H) :=
  <[name := default [] (cbs !! name) ++ [h]]> cbs.

(** [detect_patterns]: the matches, and the handler calls made, in
    order.  A handler that raises is logged; the loop goes on. *)
Fixpoint detect_in (cbs : gmap string (list H))
  (ps : list (string * pattern)) (text : string) (ln : Z)
  : list PatternMatch * list (H * PatternMatch) :=
  match ps with
  | [] => ([], [])
  | (name, p) :: ps' =>
      let '(ms, calls) := detect_in cbs ps' text ln in
      match search p text with
      | Some m =>
          let pm := mkPatternMatch name (group0 m) (groups m) ln in
          (pm :: ms,
           map (λ h, (h, pm)) (default [] (cbs !! name)) ++ calls)
      | None => (ms, calls)
      end
  end.

Definition detect_patterns (cbs : gmap string (list H))
  (text : string) (ln : Z) :=
  detect_in cbs PATTERNS text ln.
End Callbacks.

(** [int(s)] for a run of decimal digits, which is what a [(\d+)]
    capture holds; anything else is a ValueError, and so is a run of more
    digits than [int] converts. *)
Fixpoint digits_value (acc : Z) (s : string) : option Z :=
  match s with
  | EmptyString => Some acc
  | String c s' =>
      if is_digit c
      then digits_value (10 * acc + (Z.of_nat (nat_of_ascii c) - 48)) s'
      else None
  end.

(** The digits that [int] reads at the start of [s]. *)
Fixpoint leading_digits (s : string) : nat :=
  match s with
  | EmptyString => O
  | String c s' => if is_digit c then S (leading_digits s') else O
  end.

(** [sys.get_int_max_str_digits()], at its default. *)
Definition int_max_str_digits : Z := 4300.

Definition py_int (s : string) : result Z :=
  match s with
  | EmptyString => Raise (ValueError "invalid literal for int()")
  | _ =>
      if int_max_str_digits <? Z.of_nat (leading_digits s)
      then Raise (ValueError
                    "Exceeds the limit (4300 digits) for integer string conversion")
      else
        match digits_value 0 s with
        | Some z => Ret z
        | None => Raise (ValueError "invalid literal for int()")
        end
  end.

(** [if group:] a capture that took part and is not empty. *)
Definition truthy (g : option string) : bool :=
  match g with
  | Some (String _ _) => true
  | _ => false
  end.

Fixpoint first_truthy (gs : list (option string)) : option string :=
  match gs with
  | [] => None
  | g :: gs' => if truthy g then g else first_truthy gs'
  end.

Definition extract_port_listening (text : string) : result (option Z) :=
  match search listening_on_port text with
  | Some m =>
      if truthy (group m 1) then
        match py_int (default "" (group m 1)) with
        | Ret z => Ret (Some z)
        | Raise e => Raise e
        | Blocked => Blocked
        end
      else Ret None
  | None => Ret None
  end.

Definition extract_port (text : string) : result (option Z) :=
  match search localhost_server text with
  | Some m =>
      match first_truthy (groups m) with
      | Some g =>
          match py_int g with
          | Ret z => Ret (Some z)
          | Raise e => Raise e
          | Blocked => Blocked
          end
      | None => extract_port_listening text
      end
  | None => extract_port_listening text
  end.

Definition is_server_ready (text : string) : bool :=
  bool_decide (is_Some (search server_ready text)).

Definition has_error (text : string) : bool :=
  bool_decide (is_Some (search error text)).

Definition has_warning (text : string) : bool :=
  bool_decide (is_Some (search warning text)).

End PatternDetector.

(** ** models.py *)

Inductive SessionStatus := CREATING | RUNNING | STOPPED | ERROR.
Inductive TunnelStatus := T_CREATING | T_ACTIVE | T_STOPPED | T_ERROR.

Global Instance SessionStatus_eq_dec : EqDecision SessionStatus.
Proof. solve_decision. Defined.
Global Instance TunnelStatus_eq_dec : EqDecision TunnelStatus.
Proof. solve_decision. Defined.

(** [datetime] values are seconds on some clock. *)
Definition datetime := Z.

Module Tunnel.
Record t := mk {
  id : string;
  session_id : string;
  port : Z;
  public_url : string;
  created_at : datetime;
  status : TunnelStatus;
  process_pid : option Z
}.

Definition set_status (st : TunnelStatus) (x : t) : t :=
  mk (id x) (session_id x) (port x) (public_url x) (created_at x) st
     (process_pid x).
End Tunnel.

Global Instance Tunnel_eq_dec : EqDecision Tunnel.t.
Proof. solve_decision. Defined.

Module Session.
Record t := mk {
  id : string;
  pty_pid : option Z;
  working_dir : string;
  status : SessionStatus;
  created_at : datetime;
  last_activity : datetime;
  tunnels : list Tunnel.t
}.

Definition set_status (st : SessionStatus) (x : t) : t :=
  mk (id x) (pty_pid x) (working_dir x) st (created_at x) (last_activity x)
     (tunnels x).

Definition set_last_activity (now : datetime) (x : t) : t :=
  mk (id x) (pty_pid x) (working_dir x) (status x) (created_at x) now
     (tunnels x).

Definition set_tunnels (ts : list Tunnel.t) (x : t) : t :=
  mk (id x) (pty_pid x) (working_dir x) (status x) (created_at x)
     (last_activity x) ts.
End Session.

Global Instance Session_eq_dec : EqDecision Session.t.
Proof. solve_decision. Defined.

Record WSLogMessage := mkWSLogMessage {
  wl_timestamp : datetime;
  wl_content : string;
  wl_log_type : string
}.

Inductive WSMessageType := TUNNEL_CREATED | TUNNEL_STOPPED.

Record WSTunnelMessage := mkWSTunnelMessage {
  wt_type : WSMessageType;
  wt_tunnel : Tunnel.t
}.

(** Python truth values of the optional fields tested with [if x:]. *)
Definition truthy_Z (x : option Z) : bool :=
  match x with Some z => negb (z =? 0) | None => false end.

Definition truthy_str (x : option string) : bool :=
  match x with Some (String _ _) => true | _ => false end.

(** ** asyncio.Queue *)

Module Queue.
Record t (A : Type) := mk { maxsize : Z; items : list A }.
Arguments mk {A} maxsize items.
Arguments maxsize {A} _.
Arguments items {A} _.

Definition new {A} (maxsize : Z) : t A := mk maxsize [].

(** [maxsize <= 0] is an unbounded queue. *)
Definition full {A} (q : t A) : bool :=
  if maxsize q <=? 0 then false
  else maxsize q <=? Z.of_nat (length (items q)).

(** [put_nowait]: [None] is QueueFull. *)
Definition put_nowait {A} (x : A) (q : t A) : option (t A) :=
  if full q then None else Some (mk (maxsize q) (items q ++ [x])).

(** [get_nowait]: [None] is QueueEmpty. *)
Definition get_nowait {A} (q : t A) : option (A * t A) :=
  match items q with
  | [] => None
  | x :: rest => Some (x, mk (maxsize q) rest)
  end.
End Queue.

(** Queue objects live in a store; hubs and consumers hold references. *)
Definition qref := nat.

Record qheap (A : Type) := mkQheap {
  qstore : gmap qref (Queue.t A);
  qnext : qref
}.
Arguments mkQheap {A} qstore qnext.
Arguments qstore {A} _.
Arguments qnext {A} _.

Definition qheap_empty {A} : qheap A := mkQheap ∅ 0%nat.

Definition qalloc {A} (maxsize : Z) (h : qheap A) : qref * qheap A :=
  (qnext h, mkQheap (<[qnext h := Queue.new maxsize]> (qstore h)) (S (qnext h))).

(** ** Bytes: base64 and UTF-8 as the sources use them *)

Definition bytes := list Byte.byte.

Definition b64_alphabet : string :=
  "ABCDEFGHIJKLMNOPQRSTUVWXYZabcdefghijklmnopqrstuvwxyz0123456789+/".

Definition b64_char (n : N) : ascii :=
  default "="%char (String.get (N.to_nat n) b64_alphabet).

Fixpoint b64encode (bs : bytes) : string :=
  match bs with
  | [] => ""
  | [a] =>
      let x := Byte.to_N a in
      String (b64_char (N.shiftr x 2))
        (String (b64_char (N.shiftl (N.land x 3) 4)) "==")
  | [a; b] =>
      let x := Byte.to_N a in
      let y := Byte.to_N b in
      String (b64_char (N.shiftr x 2))
        (String (b64_char (N.lor (N.shiftl (N.land x 3) 4) (N.shiftr y 4)))
           (String (b64_char (N.shiftl (N.land y 15) 2)) "="))
  | a :: b :: c :: rest =>
      let x := Byte.to_N a in
      let y := Byte.to_N b in
      let z := Byte.to_N c in
      String (b64_char (N.shiftr x 2))
        (String (b64_char (N.lor (N.shiftl (N.land x 3) 4) (N.shiftr y 4)))
           (String (b64_char (N.lor (N.shiftl (N.land y 15) 2) (N.shiftr z 6)))
              (String (b64_char (N.land z 63)) (b64encode rest))))
  end.

Definition byte_of_N (n : N) : Byte.byte := default Byte.x00 (Byte.of_N n).

(** [str.encode('utf-8')] on code points below 256. *)
Fixpoint utf8_encode (s : string) : bytes :=
  match s with
  | EmptyString => []
  | String c s' =>
      let n := N_of_ascii c in
      if (n <? 128)%N then byte_of_N n :: utf8_encode s'
      else byte_of_N (N.lor 192 (N.shiftr n 6))
           :: byte_of_N (N.lor 128 (N.land n 63)) :: utf8_encode s'
  end.

(** ** Effects on the operating system and the file system, as a log *)

Inductive signal := SIGTERM | SIGKILL | SIGWINCH | SIGHUP.

Inductive effect :=
| OsKill (pid : Z) (sig : signal)
| OsWaitpid (pid : Z)
| OsClose (fd : Z)
| OsWrite (fd : Z) (data : bytes)
| OsWinsize (fd : Z) (rows cols : Z)
| OsFork (cwd : string) (command : option string)
| ReaderStarted
| ReaderCancelled
| FsWriteMetadata (s : Session.t)
| FsUnlinkMetadata.

Global Instance signal_eq_dec : EqDecision signal.
Proof. solve_decision. Defined.

(** ** What the outside world answers

    One record per call of an operation: the clock, the configuration
    ([settings]) and the outcome of each system call the operation may
    make. *)

(** [os.kill(pid, 0)] *)
Inductive kill_result :=
| KillOk | KillProcessLookupError | KillPermissionError | KillOtherError.

(** [pty.fork()] and the set-up that follows it in the parent. *)
Inductive start_outcome :=
| ForkFails
| SetupFails (pid fd : Z)
| Started (pid fd : Z).

(** [cloudflare_api.create_cname_for_port] *)
Inductive cname_outcome :=
| CnameCreated         (* the record exists or was created *)
| CnameNone            (* not configured, or no tunnel id *)
| CnameRaises.         (* the API call failed *)

(** The terminal child when [stop] signals it. *)
Inductive child_state :=
| ChildGone            (* no such process: os.kill raises ProcessLookupError *)
| ChildExitsOnTerm     (* exits on SIGTERM (or has exited, not yet reaped) *)
| ChildIgnoresTerm.    (* keeps running after SIGTERM *)

Record Env := mkEnv {
  now : datetime;
  (* settings *)
  default_working_dir : string;
  claude_cli_path : string;
  home : string;
  expanduser : string → string;
  (* session metadata file and terminal child *)
  kill0 : Z → kill_result;
  unlink_ok : bool;
  write_ok : bool;
  mkdir_ok : bool;
  spawn : start_outcome;
  pty_write_ok : bool;
  ioctl_ok : bool;
  child : child_state;
  (* named tunnel: DNS, config file, cloudflared *)
  cname : cname_outcome;
  config_write_ok : bool;
  cloudflared_tunnel : result (option string);  (* tunnel list / create *)
  cloudflared_run : option Z;                   (* pid found by pgrep *)
  (* quick tunnel: one cloudflared per port *)
  popen : option Z;                             (* pid, None: Popen raises *)
  tunnel_url : option string;                   (* _extract_tunnel_url *)
  poll_exited : Z → bool;                       (* process.poll() is not None *)
  wait_times_out : bool                         (* process.wait(timeout=5) *)
}.

(** ** utils/pty_session.py *)

Module PTYSession.
Record t := mk {
  session_id : string;
  working_dir : string;
  master_fd : option Z;
  pid : option Z;
  running : bool;
  reader_task : bool
}.

Definition new (session_id working_dir : string) : t :=
  mk session_id working_dir None None false false.

Definition start (o : start_outcome) (command : option string) (p : t)
  : result unit * t * list effect :=
  if running p then (Raise (PTYSessionError "Session is already running"), p, [])
  else
    match o with
    | ForkFails =>
        (Raise (PTYSessionError "Failed to start PTY session"), p, [])
    | SetupFails cpid fd =>
        (Raise (PTYSessionError "Failed to start PTY session"),
         mk (session_id p) (working_dir p) (Some fd) (Some cpid) true false,
         [OsFork (working_dir p) command])
    | Started cpid fd =>
        (Ret (),
         mk (session_id p) (working_dir p) (Some fd) (Some cpid) true true,
         [OsFork (working_dir p) command; OsWinsize fd 24 80; ReaderStarted])
    end.

(** The read loop meets EIO: the child has exited. *)
Definition reader_saw_exit (p : t) : t :=
  mk (session_id p) (working_dir p) (master_fd p) (pid p) false (reader_task p).

Definition write (write_ok : bool) (data : bytes) (p : t)
  : result unit * list effect :=
  match running p, master_fd p with
  | true, Some fd =>
      if write_ok then (Ret (), [OsWrite fd data])
      else (Raise (PTYSessionError "Failed to write to PTY"), [])
  | _, _ => (Raise (PTYSessionError "Session is not running"), [])
  end.

Definition send_command (write_ok : bool) (command : string) (p : t)
  : result unit * list effect :=
  write write_ok (utf8_encode command ++ [Byte.x0a]) p.

(** [struct.pack("HHHH", ...)] takes values of 16 bits. *)
Definition fits_H (z : Z) : bool := (0 <=? z) && (z <=? 65535).

Definition _set_terminal_size (ioctl_ok : bool) (cols rows : Z) (p : t)
  : result unit * list effect :=
  match master_fd p with
  | None => (Ret (), [])
  | Some fd =>
      if fits_H rows && fits_H cols && ioctl_ok
      then (Ret (), [OsWinsize fd rows cols])
      else (Raise (OSError "ioctl"), [])
  end.

Definition resize (ioctl_ok : bool) (cols rows : Z) (p : t)
  : result unit * list effect :=
  match running p, master_fd p with
  | true, Some _ =>
      match _set_terminal_size ioctl_ok cols rows p with
      | (Ret _, effs) =>
          (Ret (),
           effs ++ match pid p with
                   | Some cpid => if cpid =? 0 then [] else [OsKill cpid SIGWINCH]
                   | None => []
                   end)
      | r => r
      end
  | _, _ => (Ret (), [])
  end.

Definition stop (c : child_state) (p : t) : result unit * t * list effect :=
  if negb (running p) then (Ret (), p, [])
  else
    let p1 := mk (session_id p) (working_dir p) (master_fd p) (pid p) false
                 (reader_task p) in
    let cancel := if reader_task p then [ReaderCancelled] else [] in
    let closed := mk (session_id p) (working_dir p) None (pid p) false
                     (reader_task p) in
    let close := match master_fd p with Some fd => [OsClose fd] | None => [] end in
    if truthy_Z (pid p) then
      let cpid := default 0 (pid p) in
      match c with
      | ChildGone =>
          (Ret (), closed, cancel ++ [OsKill cpid SIGTERM] ++ close)
      | ChildExitsOnTerm =>
          (Ret (), closed,
           cancel ++ [OsKill cpid SIGTERM; OsWaitpid cpid] ++ close)
      | ChildIgnoresTerm =>
          (Blocked, p1, cancel ++ [OsKill cpid SIGTERM; OsWaitpid cpid])
      end
    else (Ret (), closed, cancel ++ close).

Definition is_alive (kill0 : Z → kill_result) (p : t) : result bool :=
  if running p && truthy_Z (pid p) then
    match kill0 (default 0 (pid p)) with
    | KillOk => Ret true
    | KillProcessLookupError | KillPermissionError => Ret false
    | KillOtherError => Raise (OSError "kill")
    end
  else Ret false.
End PTYSession.

(** ** core/session_manager.py *)

(** The file at [settings.get_session_metadata_path()]. *)
Inductive metadata :=
| NoFile
| BadFile                    (* not JSON, or not a Session *)
| Saved (s : Session.t).

Record LogEntry := mkLogEntry {
  le_timestamp : datetime;
  le_session_id : string;
  le_content : string;
  le_log_type : string
}.

(** [l[i:]]: a negative index counts from the end, and an index out of
    range is clipped. *)
Definition slice_from {A} (i : Z) (l : list A) : list A :=
  drop (Z.to_nat (if i <? 0 then Z.max 0 (Z.of_nat (length l) + i) else i)) l.

Record SessionStats := mkSessionStats {
  total_commands : Z;
  uptime_seconds : Z;
  log_lines : Z;
  active_tunnels : Z
}.

Record SessionInfo := mkSessionInfo {
  si_session : Session.t;
  si_recent_logs : list LogEntry;
  si_active_tunnels : list Tunnel.t;
  si_stats : SessionStats
}.

Module SessionManager.
Record t := mk {
  session : option Session.t;
  pty : option PTYSession.t;
  log_buffer : list LogEntry;
  command_count : Z;
  _output_subscribers : list qref;
  (* the queue objects handed out by subscribe_output *)
  queues : qheap string;
  (* the metadata file, and what has been done to the outside so far *)
  metadata_file : metadata;
  effects : list effect
}.

Definition set_session (x : option Session.t) (m : t) : t :=
  mk x (pty m) (log_buffer m) (command_count m) (_output_subscribers m)
     (queues m) (metadata_file m) (effects m).
Definition set_pty (x : option PTYSession.t) (m : t) : t :=
  mk (session m) x (log_buffer m) (command_count m) (_output_subscribers m)
     (queues m) (metadata_file m) (effects m).
Definition set_command_count (x : Z) (m : t) : t :=
  mk (session m) (pty m) (log_buffer m) x (_output_subscribers m)
     (queues m) (metadata_file m) (effects m).
Definition set_log_buffer (x : list LogEntry) (m : t) : t :=
  mk (session m) (pty m) x (command_count m) (_output_subscribers m)
     (queues m) (metadata_file m) (effects m).
Definition set_subscribers (x : list qref) (m : t) : t :=
  mk (session m) (pty m) (log_buffer m) (command_count m) x
     (queues m) (metadata_file m) (effects m).
Definition set_queues (x : qheap string) (m : t) : t :=
  mk (session m) (pty m) (log_buffer m) (command_count m)
     (_output_subscribers m) x (metadata_file m) (effects m).
Definition set_metadata_file (x : metadata) (m : t) : t :=
  mk (session m) (pty m) (log_buffer m) (command_count m)
     (_output_subscribers m) (queues m) x (effects m).
Definition add_effects (x : list effect) (m : t) : t :=
  mk (session m) (pty m) (log_buffer m) (command_count m)
     (_output_subscribers m) (queues m) (metadata_file m) (effects m ++ x).

Definition exists_metadata (m : t) : bool :=
  match metadata_file m with NoFile => false | _ => true end.

(** [metadata_path.unlink()]: [false] when it raises. *)
Definition unlink (e : Env) (m : t) : bool * t :=
  if exists_metadata m && unlink_ok e
  then (true, add_effects [FsUnlinkMetadata] (set_metadata_file NoFile m))
  else (false, m).

Definition has_active_session (m : t) : bool :=
  match session m, pty m with
  | Some s, Some _ => bool_decide (Session.status s = RUNNING)
  | _, _ => false
  end.

Definition _save_session_metadata (e : Env) (m : t) : t :=
  match session m with
  | None => m
  | Some s =>
      if write_ok e
      then add_effects [FsWriteMetadata s] (set_metadata_file (Saved s) m)
      else m
  end.

Definition _load_session_metadata (e : Env) (m : t) : t :=
  match metadata_file m with
  | NoFile => m
  | BadFile => m
  | Saved s =>
      let m1 := set_session (Some s) m in
      if truthy_Z (Session.pty_pid s) then
        match kill0 e (default 0 (Session.pty_pid s)) with
        | KillOk => set_session (Some (Session.set_status RUNNING s)) m1
        | KillProcessLookupError | KillPermissionError =>
            set_session None (snd (unlink e m1))
        | KillOtherError => m1
        end
      else set_session None (snd (unlink e m1))
  end.

(** [SessionManager()] at start-up, given what is on disk. *)
Definition init (e : Env) (disk : metadata) : t :=
  _load_session_metadata e (mk None None [] 0 [] qheap_empty disk []).

Definition already_running : exn :=
  ValueError "A session is already running. Stop it before creating a new one.".

Definition create_session (e : Env) (session_id : string)
  (working_dir : option string) (auto_start_claude copy_templates : bool)
  (m : t) : result Session.t * t :=
  if has_active_session m then (Raise already_running, m)
  else
    (* zombie metadata: has_active_session is false here *)
    let m1 :=
      match session m with
      | Some _ =>
          let m' := set_session None m in
          if exists_metadata m' then snd (unlink e m') else m'
      | None => m
      end in
    let work_path :=
      if truthy_str working_dir then expanduser e (default "" working_dir)
      else expanduser e (default_working_dir e) +:+ "/" +:+ session_id in
    if negb (mkdir_ok e) then (Raise (OSError "mkdir"), m1)
    else
      (* copy_templates only copies files and logs *)
      let command :=
        if auto_start_claude
        then Some (claude_cli_path e +:+ " --dangerously-skip-permissions")
        else None in
      let '(r, p, effs) :=
        PTYSession.start (spawn e) command (PTYSession.new session_id work_path) in
      let m2 := add_effects effs (set_pty (Some p) m1) in
      match r with
      | Ret _ =>
          let s := Session.mk session_id (PTYSession.pid p) work_path RUNNING
                     (now e) (now e) [] in
          (Ret s, _save_session_metadata e (set_session (Some s) m2))
      | Raise (PTYSessionError msg) =>
          (Raise (ValueError ("Failed to create session: " +:+ msg)),
           set_session (Session.set_status ERROR <$> session m2) m2)
      | Raise x => (Raise x, m2)
      | Blocked => (Blocked, m2)
      end.

Definition destroy_session (e : Env) (m : t) : result bool * t :=
  match session m with
  | None => (Raise (ValueError "No session to destroy"), m)
  | Some s =>
      let '(r, m1) :=
        match pty m with
        | Some p =>
            let '(r, p', effs) := PTYSession.stop (child e) p in
            match r with
            | Ret _ => (Ret (), set_pty None (add_effects effs m))
            | r' => (r', set_pty (Some p') (add_effects effs m))
            end
        | None => (Ret (), m)
        end in
      match r with
      | Ret _ =>
          let m2 := set_session (Some (Session.set_status STOPPED s)) m1 in
          let finish (m3 : t) : result bool * t :=
            (Ret true,
             set_subscribers []
               (set_command_count 0 (set_log_buffer [] (set_session None m3)))) in
          if exists_metadata m2 then
            match unlink e m2 with
            | (true, m3) => finish m3
            | (false, m3) => (Raise (OSError "unlink"), m3)
            end
          else finish m2
      | Raise x => (Raise x, m1)
      | Blocked => (Blocked, m1)
      end
  end.

Definition not_running (s : Session.t) : exn :=
  ValueError "Session is not running".

Definition send_command (e : Env) (command : string) (m : t)
  : result bool * t :=
  match session m with
  | None => (Raise (ValueError "No active session"), m)
  | Some s =>
      if negb (bool_decide (Session.status s = RUNNING))
      then (Raise (not_running s), m)
      else
        match pty m with
        | None => (Raise (ValueError "PTY not initialized"), m)
        | Some p =>
            match PTYSession.send_command (pty_write_ok e) command p with
            | (Ret _, effs) =>
                let m1 := add_effects effs m in
                let m2 := set_session
                            (Some (Session.set_last_activity (now e) s)) m1 in
                let m3 := set_command_count (command_count m2 + 1) m2 in
                (Ret true, _save_session_metadata e m3)
            | (Raise (PTYSessionError msg), effs) =>
                (Raise (ValueError ("Failed to send command: " +:+ msg)),
                 add_effects effs m)
            | (Raise x, effs) => (Raise x, add_effects effs m)
            | (Blocked, effs) => (Blocked, add_effects effs m)
            end
        end
  end.

Definition send_input (e : Env) (data : string) (m : t) : result bool * t :=
  match session m, pty m with
  | Some s, Some p =>
      if negb (bool_decide (Session.status s = RUNNING))
      then (Raise (not_running s), m)
      else
        match PTYSession.write (pty_write_ok e) (utf8_encode data) p with
        | (Ret _, effs) =>
            (Ret true,
             set_session (Some (Session.set_last_activity (now e) s))
               (add_effects effs m))
        | (Raise (PTYSessionError msg), effs) =>
            (Raise (ValueError ("Failed to send input: " +:+ msg)),
             add_effects effs m)
        | (Raise x, effs) => (Raise x, add_effects effs m)
        | (Blocked, effs) => (Blocked, add_effects effs m)
        end
  | _, _ => (Raise (ValueError "No active session"), m)
  end.

Definition resize_terminal (e : Env) (cols rows : Z) (m : t) : t :=
  match pty m with
  | None => m
  | Some p => add_effects (snd (PTYSession.resize (ioctl_ok e) cols rows p)) m
  end.

(** *** The output hub *)

Definition subscribe_output (m : t) : qref * t :=
  let '(q, h) := qalloc 0 (queues m) in
  (q, set_subscribers (_output_subscribers m ++ [q]) (set_queues h m)).

(** [list.remove]: the first occurrence. *)
Fixpoint remove_first (q : qref) (l : list qref) : list qref :=
  match l with
  | [] => []
  | x :: l' => if decide (x = q) then l' else x :: remove_first q l'
  end.

Definition unsubscribe_output (q : qref) (m : t) : t :=
  set_subscribers (remove_first q (_output_subscribers m)) m.

(** The loop of [_handle_pty_output] over the copy of the subscriber
    list.  [await queue.put] on a full queue does not complete; the
    [except] branch (a reference with no queue behind it) drops the
    subscriber. *)
Fixpoint put_each (encoded : string) (qs : list qref) (m : t)
  : result unit * t :=
  match qs with
  | [] => (Ret (), m)
  | q :: rest =>
      match qstore (queues m) !! q with
      | Some qu =>
          match Queue.put_nowait encoded qu with
          | Some qu' =>
              put_each encoded rest
                (set_queues
                   (mkQheap (<[q := qu']> (qstore (queues m)))
                      (qnext (queues m))) m)
          | None => (Blocked, m)
          end
      | None =>
          put_each encoded rest
            (set_subscribers (remove_first q (_output_subscribers m)) m)
      end
  end.

Definition _handle_pty_output (data : bytes) (m : t) : result unit * t :=
  put_each (b64encode data) (_output_subscribers m) m.

(** A consumer takes the next item of its queue, if there is one. *)
Definition consume (q : qref) (m : t) : option string * t :=
  match qstore (queues m) !! q with
  | Some qu =>
      match Queue.get_nowait qu with
      | Some (x, qu') =>
          (Some x,
           set_queues
             (mkQheap (<[q := qu']> (qstore (queues m))) (qnext (queues m))) m)
      | None => (None, m)
      end
  | None => (None, m)
  end.

(** The calls made on the manager: by the REST routes, by the gateway
    and by the terminal's read loop ([PtyOutput] for a chunk read,
    [ChildExited] when the read fails because the child has exited). *)
Inductive call :=
| CreateSession (session_id : string) (working_dir : option string)
    (auto_start_claude copy_templates : bool)
| DestroySession
| SendCommand (command : string)
| SendInput (data : string)
| ResizeTerminal (cols rows : Z)
| SubscribeOutput
| UnsubscribeOutput (q : qref)
| PtyOutput (data : bytes)
| Consume (q : qref)
| ChildExited.

Definition step (e : Env) (c : call) (m : t) : t :=
  match c with
  | CreateSession sid wd a ct => snd (create_session e sid wd a ct m)
  | DestroySession => snd (destroy_session e m)
  | SendCommand cmd => snd (send_command e cmd m)
  | SendInput d => snd (send_input e d m)
  | ResizeTerminal cols rows => resize_terminal e cols rows m
  | SubscribeOutput => snd (subscribe_output m)
  | UnsubscribeOutput q => unsubscribe_output q m
  | PtyOutput d => snd (_handle_pty_output d m)
  | Consume q => snd (consume q m)
  | ChildExited => set_pty (PTYSession.reader_saw_exit <$> pty m) m
  end.

Fixpoint run (cs : list (Env * call)) (m : t) : t :=
  match cs with
  | [] => m
  | (e, c) :: rest => run rest (step e c m)
  end.

(** *** The log buffer and the session summary *)

(** [self.log_buffer[-limit:]] *)
Definition get_recent_logs (limit : Z) (m : t) : list LogEntry :=
  slice_from (- limit) (log_buffer m).

(** [log_buffer_size] is [settings.log_buffer_size]. *)
Definition add_log_entry (e : Env) (log_buffer_size : Z)
  (content log_type : string) (m : t) : t :=
  match session m with
  | None => m
  | Some s =>
      let entry := mkLogEntry (now e) (Session.id s) content log_type in
      let buf := log_buffer m ++ [entry] in
      if log_buffer_size <? Z.of_nat (length buf)
      then set_log_buffer (slice_from (- log_buffer_size) buf) m
      else set_log_buffer buf m
  end.

Definition get_session_info (e : Env) (m : t) : option SessionInfo :=
  if has_active_session m then
    match session m with
    | Some s =>
        Some (mkSessionInfo s (get_recent_logs 100 m) (Session.tunnels s)
                (mkSessionStats (command_count m)
                   (now e - Session.created_at s)
                   (Z.of_nat (length (log_buffer m)))
                   (Z.of_nat (length (Session.tunnels s)))))
    | None => None
    end
  else None.
End SessionManager.

(** ** core/log_monitor.py *)

(** [put_nowait] with QueueFull caught: the item is dropped. *)
Definition put_or_drop {A} (x : A) (q : Queue.t A) : Queue.t A :=
  default q (Queue.put_nowait x q).

(** [for queue in subscribers.copy(): try: queue.put_nowait(x) ...] *)
Definition broadcast_nowait {A} (x : A) (subs : gset qref) (h : qheap A)
  : qheap A :=
  mkQheap (set_fold (λ q st, alter (put_or_drop x) q st) (qstore h) subs)
          (qnext h).

Fixpoint split_on (sep : ascii) (acc s : string) : list string :=
  match s with
  | EmptyString => [acc]
  | String c s' =>
      if Ascii.eqb c sep then acc :: split_on sep "" s'
      else split_on sep (acc +:+ String c "") s'
  end.

(** [content.split("\n")] *)
Definition split_lines (s : string) : list string := split_on "010"%char "" s.

(** [line.strip()] is not empty. *)
Fixpoint not_blank (s : string) : bool :=
  match s with
  | EmptyString => false
  | String c s' => negb (Re.is_space c) || not_blank s'
  end.

(** [s[n:]] on a string. *)
Fixpoint string_drop (n : nat) (s : string) : string :=
  match n, s with
  | O, _ => s
  | S n', String _ s' => string_drop n' s'
  | S _, EmptyString => EmptyString
  end.

Module LogMonitor.
(** [_extract_new_content]: what of [new_output] comes after
    [old_output]. *)
Definition _extract_new_content (old_output new_output : string) : string :=
  match old_output with
  | EmptyString => new_output
  | _ =>
      if (String.length old_output <? String.length new_output)%nat then
        if String.prefix old_output new_output
        then string_drop (String.length old_output) new_output
        else new_output
      else ""
  end.

Section WithHandlers.
Context {H : Type}.

Record t := mk {
  callbacks : gmap string (list H);   (* pattern_detector.callbacks *)
  is_monitoring : bool;
  _subscribers : gset qref;
  queues : qheap WSLogMessage
}.

Definition new : t := mk ∅ false ∅ qheap_empty.

Definition subscribe (m : t) : qref * t :=
  let '(q, h) := qalloc 100 (queues m) in
  (q, mk (callbacks m) (is_monitoring m) ({[q]} ∪ _subscribers m) h).

Definition unsubscribe (q : qref) (m : t) : t :=
  mk (callbacks m) (is_monitoring m) (_subscribers m ∖ {[q]}) (queues m).

Definition _broadcast_log (now : datetime) (content log_type : string)
  (m : t) : t :=
  if decide (_subscribers m = ∅) then m
  else
    mk (callbacks m) (is_monitoring m) (_subscribers m)
       (broadcast_nowait (mkWSLogMessage now content log_type)
          (_subscribers m) (queues m)).

Definition consume (q : qref) (m : t) : option WSLogMessage * t :=
  match qstore (queues m) !! q with
  | Some qu =>
      match Queue.get_nowait qu with
      | Some (x, qu') =>
          (Some x,
           mk (callbacks m) (is_monitoring m) (_subscribers m)
              (mkQheap (<[q := qu']> (qstore (queues m)))
                 (qnext (queues m))))
      | None => (None, m)
      end
  | None => (None, m)
  end.

Definition register_pattern_callback (name : string) (h : H) (m : t) : t :=
  mk (PatternDetector.register_callback (callbacks m) name h)
     (is_monitoring m) (_subscribers m) (queues m).

Inductive call :=
| Subscribe
| Unsubscribe (q : qref)
| BroadcastLog (now : datetime) (content log_type : string)
| Consume (q : qref).

Definition step (c : call) (m : t) : t :=
  match c with
  | Subscribe => snd (subscribe m)
  | Unsubscribe q => unsubscribe q m
  | BroadcastLog now content log_type => _broadcast_log now content log_type m
  | Consume q => snd (consume q m)
  end.

Definition run (cs : list call) (m : t) : t := foldl (λ m c, step c m) m cs.

Fixpoint detect_lines (cbs : gmap string (list H)) (i : Z)
  (lines : list string) : list (H * PatternDetector.PatternMatch) :=
  match lines with
  | [] => []
  | line :: rest =>
      (if not_blank line
       then snd (PatternDetector.detect_patterns cbs line i)
       else [])
      ++ detect_lines cbs (i + 1) rest
  end.

(** [_detect_patterns]: the handler calls it leads to, in order. *)
Definition _detect_patterns (content : string) (m : t)
  : list (H * PatternDetector.PatternMatch) :=
  detect_lines (callbacks m) 0 (split_lines content).

Definition start_monitoring (m : t) : t :=
  if is_monitoring m then m
  else mk (callbacks m) true (_subscribers m) (queues m).

Definition stop_monitoring (m : t) : t :=
  if negb (is_monitoring m) then m
  else mk (callbacks m) false (_subscribers m) (queues m).
End WithHandlers.
Arguments t : clear implicits.
End LogMonitor.

(** ** core/named_tunnel_manager.py *)

Record ingress_rule := mkRule {
  hostname : option string;
  service : string
}.

(** The YAML document at [_config_path]. *)
Record tunnel_config := mkConfig {
  cfg_tunnel : option string;
  cfg_credentials_file : string;
  ingress : list ingress_rule
}.

Global Instance ingress_rule_eq_dec : EqDecision ingress_rule.
Proof. solve_decision. Defined.

(** A dict: keys in insertion order; assignment to a present key keeps its
    place. *)
Section Dict.
Context {K V : Type} `{EqDecision K}.

Fixpoint dict_get (k : K) (d : list (K * V)) : option V :=
  match d with
  | [] => None
  | (k', v) :: d' => if decide (k' = k) then Some v else dict_get k d'
  end.

Fixpoint dict_set (k : K) (v : V) (d : list (K * V)) : list (K * V) :=
  match d with
  | [] => [(k, v)]
  | (k', v') :: d' =>
      if decide (k' = k) then (k, v) :: d' else (k', v') :: dict_set k v d'
  end.

Fixpoint dict_del (k : K) (d : list (K * V)) : list (K * V) :=
  match d with
  | [] => []
  | (k', v') :: d' =>
      if decide (k' = k) then d' else (k', v') :: dict_del k d'
  end.

Definition dict_keys (d : list (K * V)) : list K := map fst d.
Definition dict_values (d : list (K * V)) : list V := map snd d.
End Dict.

(** [l.insert(-1, x)]: before the last element; into an empty list. *)
Fixpoint insert_before_last {A} (x : A) (l : list A) : list A :=
  match l with
  | [] => [x]
  | [y] => [x; y]
  | y :: l' => y :: insert_before_last x l'
  end.

Module Named.
Record t := mk {
  tunnel_name : string;
  tunnel_id : option string;
  domain : string;
  tunnels : list (Z * Tunnel.t);          (* port -> Tunnel *)
  _tunnel_process : option Z;
  config_file : option tunnel_config;     (* None: no such file *)
  api_tunnel_id : option string;          (* cloudflare_api.tunnel_id *)
  signals : list effect
}.

Definition set_tunnels (x : list (Z * Tunnel.t)) (n : t) : t :=
  mk (tunnel_name n) (tunnel_id n) (domain n) x (_tunnel_process n)
     (config_file n) (api_tunnel_id n) (signals n).
Definition set_config (x : option tunnel_config) (n : t) : t :=
  mk (tunnel_name n) (tunnel_id n) (domain n) (tunnels n) (_tunnel_process n)
     x (api_tunnel_id n) (signals n).
Definition set_tunnel_id (x : option string) (n : t) : t :=
  mk (tunnel_name n) x (domain n) (tunnels n) (_tunnel_process n)
     (config_file n) x (signals n).
Definition set_process (x : option Z) (n : t) : t :=
  mk (tunnel_name n) (tunnel_id n) (domain n) (tunnels n) x
     (config_file n) (api_tunnel_id n) (signals n).
Definition add_signals (x : list effect) (n : t) : t :=
  mk (tunnel_name n) (tunnel_id n) (domain n) (tunnels n) (_tunnel_process n)
     (config_file n) (api_tunnel_id n) (signals n ++ x).

Definition new (name : string) (id : option string) (dom : string) : t :=
  mk name id dom [] None None id [].

Definition sighup (n : t) : t :=
  if truthy_Z (_tunnel_process n)
  then add_signals [OsKill (default 0 (_tunnel_process n)) SIGHUP] n
  else n.

Definition _get_or_create_tunnel (e : Env) (n : t) : result (option string) :=
  if truthy_str (tunnel_id n) then Ret (tunnel_id n)
  else
    match cloudflared_tunnel e with
    | Ret x => Ret x
    | Raise x => Raise (NamedTunnelError "Failed to create tunnel")
    | Blocked => Blocked
    end.

Definition initial_config (e : Env) (n : t) : tunnel_config :=
  mkConfig (tunnel_id n)
    (home e +:+ "/.cloudflared/" +:+ default "None" (tunnel_id n) +:+ ".json")
    [ mkRule (Some (domain n)) "http://127.0.0.1:8000";
      mkRule None "http_status:404" ].

Definition initialize (e : Env) (n : t) : result bool * t :=
  match _get_or_create_tunnel e n with
  | Ret id =>
      if truthy_str id then
        let n1 := set_tunnel_id id n in
        if config_write_ok e then
          let n2 := set_config (Some (initial_config e n1)) n1 in
          match cloudflared_run e with
          | Some cpid => (Ret true, set_process (Some cpid) n2)
          | None => (Ret false, n2)
          end
        else (Ret false, n1)
      else (Ret false, n)
  | Raise _ => (Ret false, n)
  | Blocked => (Blocked, n)
  end.

Definition port_hostname (port : Z) (n : t) : string :=
  pretty port +:+ "." +:+ domain n.

Definition _add_ingress_rule (e : Env) (port : Z) (n : t) : result unit * t :=
  match config_file n with
  | None => (Raise (OSError "config file"), n)
  | Some cfg =>
      let new_rule := mkRule (Some (port_hostname port n))
                        ("http://127.0.0.1:" +:+ pretty port) in
      let cfg' := mkConfig (cfg_tunnel cfg) (cfg_credentials_file cfg)
                    (insert_before_last new_rule (ingress cfg)) in
      if config_write_ok e
      then (Ret (), sighup (set_config (Some cfg') n))
      else (Raise (OSError "config file"), n)
  end.

Definition _remove_ingress_rule (e : Env) (port : Z) (n : t)
  : result unit * t :=
  match config_file n with
  | None => (Raise (OSError "config file"), n)
  | Some cfg =>
      let cfg' := mkConfig (cfg_tunnel cfg) (cfg_credentials_file cfg)
                    (filter (λ r, hostname r ≠ Some (port_hostname port n))
                       (ingress cfg)) in
      if config_write_ok e
      then (Ret (), sighup (set_config (Some cfg') n))
      else (Raise (OSError "config file"), n)
  end.

Definition add_port_mapping (e : Env) (port : Z)
  (st : t * SessionManager.t) : result Tunnel.t * (t * SessionManager.t) :=
  let '(n, sm) := st in
  if negb (SessionManager.has_active_session sm)
  then (Raise (ValueError "No active session"), st)
  else
    match SessionManager.session sm, dict_get port (tunnels n) with
    | None, _ => (Raise (ValueError "No active session"), st)
    | Some session, Some tunnel => (Ret tunnel, st)
    | Some session, None =>
        let failed := Raise (NamedTunnelError "Failed to add port mapping") in
        match cname e with
        | CnameRaises => (failed, st)
        | _ =>
            let public_url := "https://" +:+ port_hostname port n in
            match _add_ingress_rule e port n with
            | (Ret _, n1) =>
                let tunnel :=
                  Tunnel.mk ("tun_" +:+ pretty port +:+ "_" +:+ pretty (now e))
                    (Session.id session) port public_url (now e) T_ACTIVE
                    (if truthy_Z (_tunnel_process n1)
                     then _tunnel_process n1 else None) in
                let n2 := set_tunnels (dict_set port tunnel (tunnels n1)) n1 in
                let session' :=
                  Session.set_tunnels (Session.tunnels session ++ [tunnel])
                    session in
                (Ret tunnel,
                 (n2, SessionManager._save_session_metadata e
                        (SessionManager.set_session (Some session') sm)))
            | (_, n1) => (failed, (n1, sm))
            end
        end
    end.

Definition remove_port_mapping (e : Env) (port : Z)
  (st : t * SessionManager.t) : result bool * (t * SessionManager.t) :=
  let '(n, sm) := st in
  match dict_get port (tunnels n) with
  | None => (Ret false, st)
  | Some tunnel =>
      match _remove_ingress_rule e port n with
      | (Ret _, n1) =>
          let n2 := set_tunnels (dict_del port (tunnels n1)) n1 in
          match SessionManager.session sm with
          | Some session =>
              let session' :=
                Session.set_tunnels
                  (filter (λ x, Tunnel.id x ≠ Tunnel.id tunnel)
                     (Session.tunnels session)) session in
              (Ret true,
               (n2, SessionManager._save_session_metadata e
                      (SessionManager.set_session (Some session') sm)))
          | None => (Ret true, (n2, sm))
          end
      | (_, n1) => (Ret false, (n1, sm))
      end
  end.

Definition shutdown (e : Env) (n : t) : t :=
  if truthy_Z (_tunnel_process n) then
    let cpid := default 0 (_tunnel_process n) in
    add_signals
      (OsKill cpid SIGTERM ::
       match kill0 e cpid with
       | KillOk => [OsKill cpid SIGKILL]
       | _ => []
       end) n
  else n.

Definition get_tunnel_for_port (port : Z) (n : t) : option Tunnel.t :=
  dict_get port (tunnels n).

Definition get_all_tunnels (n : t) : list Tunnel.t := dict_values (tunnels n).

(** The calls made on an initialized manager, and those made on the
    session registry in between. *)
Inductive call :=
| AddPortMapping (port : Z)
| RemovePortMapping (port : Z)
| Shutdown
| OnSession (c : SessionManager.call).

Definition step (e : Env) (c : call) (st : t * SessionManager.t)
  : t * SessionManager.t :=
  match c with
  | AddPortMapping port => snd (add_port_mapping e port st)
  | RemovePortMapping port => snd (remove_port_mapping e port st)
  | Shutdown => (shutdown e (fst st), snd st)
  | OnSession c => (fst st, SessionManager.step e c (snd st))
  end.

Fixpoint run (cs : list (Env * call)) (st : t * SessionManager.t)
  : t * SessionManager.t :=
  match cs with
  | [] => st
  | (e, c) :: rest => run rest (step e c st)
  end.
End Named.

(** ** core/tunnel_manager.py (quick tunnels) *)

Module Quick.
Record t := mk {
  tunnels : list (string * Tunnel.t);        (* id -> Tunnel *)
  _tunnel_processes : list (string * Z);     (* id -> process (its pid) *)
  signals : list effect
}.

Definition new : t := mk [] [] [].

Definition set_tunnels (x : list (string * Tunnel.t)) (q : t) : t :=
  mk x (_tunnel_processes q) (signals q).

Definition gen_id (e : Env) (port : Z) : string :=
  "tun_" +:+ pretty port +:+ "_" +:+ pretty (now e).

Definition active_on (port : Z) (x : Tunnel.t) : bool :=
  bool_decide (Tunnel.port x = port) && bool_decide (Tunnel.status x = T_ACTIVE).

Definition failed : exn := TunnelError "Failed to create tunnel".

(** [create_tunnel] run from its first line to its return, no other call
    on the manager running while it awaits [_extract_tunnel_url]: the
    calls that the facade and the handlers make one after the other.
    [TunnelManager] has the call in its two halves, for the calls that
    overlap. *)
Definition create_tunnel (e : Env) (port : Z) (tunnel_id : option string)
  (st : t * SessionManager.t) : result Tunnel.t * (t * SessionManager.t) :=
  let '(q, sm) := st in
  if negb (SessionManager.has_active_session sm)
  then (Raise (ValueError "No active session to associate tunnel with"), st)
  else
    match SessionManager.session sm with
    | None => (Raise (ValueError "No active session to associate tunnel with"), st)
    | Some session =>
        let tid := if truthy_str tunnel_id then default "" tunnel_id
                   else gen_id e port in
        match find (active_on port) (dict_values (tunnels q)) with
        | Some existing => (Ret existing, st)
        | None =>
            let tunnel := Tunnel.mk tid (Session.id session) port "" (now e)
                            T_CREATING None in
            match popen e with
            | None =>
                (Raise failed,
                 (set_tunnels
                    (dict_set tid (Tunnel.set_status T_ERROR tunnel) (tunnels q))
                    q, sm))
            | Some cpid =>
                let procs := dict_set tid cpid (_tunnel_processes q) in
                let started := Tunnel.mk tid (Session.id session) port ""
                                 (now e) T_CREATING (Some cpid) in
                if truthy_str (tunnel_url e) then
                  let active := Tunnel.mk tid (Session.id session) port
                                  (default "" (tunnel_url e)) (now e) T_ACTIVE
                                  (Some cpid) in
                  let session' :=
                    Session.set_tunnels (Session.tunnels session ++ [active])
                      session in
                  (Ret active,
                   (mk (dict_set tid active (tunnels q)) procs (signals q),
                    SessionManager._save_session_metadata e
                      (SessionManager.set_session (Some session') sm)))
                else
                  (Raise failed,
                   (mk (dict_set tid (Tunnel.set_status T_ERROR started)
                          (tunnels q)) procs (signals q), sm))
            end
        end
    end.

Definition destroy_tunnel (e : Env) (tunnel_id : string)
  (st : t * SessionManager.t) : result bool * (t * SessionManager.t) :=
  let '(q, sm) := st in
  match dict_get tunnel_id (tunnels q) with
  | None => (Raise (ValueError "Tunnel not found"), st)
  | Some tunnel =>
      let '(procs, sigs) :=
        match dict_get tunnel_id (_tunnel_processes q) with
        | Some cpid =>
            (* [terminate] and [kill] poll first and send nothing to a
               process that has exited; [wait] returns at once for it *)
            (dict_del tunnel_id (_tunnel_processes q),
             if poll_exited e cpid then []
             else OsKill cpid SIGTERM ::
                  (if wait_times_out e then [OsKill cpid SIGKILL] else []))
        | None => (_tunnel_processes q, [])
        end in
      let sm' :=
        match SessionManager.session sm with
        | Some session =>
            SessionManager._save_session_metadata e
              (SessionManager.set_session
                 (Some (Session.set_tunnels
                          (filter (λ x, Tunnel.id x ≠ tunnel_id)
                             (Session.tunnels session)) session)) sm)
        | None => sm
        end in
      (Ret true,
       (mk (dict_del tunnel_id (tunnels q)) procs (signals q ++ sigs), sm'))
  end.

Fixpoint destroy_each (e : Env) (ids : list string)
  (st : t * SessionManager.t) : t * SessionManager.t :=
  match ids with
  | [] => st
  | i :: rest => destroy_each e rest (snd (destroy_tunnel e i st))
  end.

Definition destroy_all_tunnels (e : Env) (st : t * SessionManager.t)
  : t * SessionManager.t :=
  destroy_each e (dict_keys (tunnels (fst st))) st.

Definition get_tunnel (tunnel_id : string) (q : t) : option Tunnel.t :=
  dict_get tunnel_id (tunnels q).

Definition get_tunnels_by_session (session_id : string) (q : t)
  : list Tunnel.t :=
  filter (λ x, Tunnel.session_id x = session_id) (dict_values (tunnels q)).

Definition get_active_tunnels (q : t) : list Tunnel.t :=
  filter (λ x, Tunnel.status x = T_ACTIVE) (dict_values (tunnels q)).

(** [tunnel.status = ERROR] is an assignment to the object held by the
    dict, which the session's list may hold too: the entries of the list
    equal to it in every field follow. *)
Definition health_check (e : Env) (tunnel_id : string)
  (st : t * SessionManager.t) : bool * (t * SessionManager.t) :=
  let '(q, sm) := st in
  match dict_get tunnel_id (tunnels q) with
  | None => (false, st)
  | Some tunnel =>
      match dict_get tunnel_id (_tunnel_processes q) with
      | Some cpid =>
          if poll_exited e cpid then
            let dead := Tunnel.set_status T_ERROR tunnel in
            let mark (x : Tunnel.t) :=
              if decide (x = tunnel) then dead else x in
            (false,
             (set_tunnels (dict_set tunnel_id dead (tunnels q)) q,
              SessionManager.set_session
                ((λ s, Session.set_tunnels (map mark (Session.tunnels s)) s)
                   <$> SessionManager.session sm) sm))
          else (bool_decide (Tunnel.status tunnel = T_ACTIVE), st)
      | None => (bool_decide (Tunnel.status tunnel = T_ACTIVE), st)
      end
  end.

(** The calls made on the manager, and those made on the session
    registry in between. *)
Inductive call :=
| CreateTunnel (port : Z) (tunnel_id : option string)
| DestroyTunnel (tunnel_id : string)
| DestroyAllTunnels
| HealthCheck (tunnel_id : string)
| OnSession (c : SessionManager.call).

Definition step (e : Env) (c : call) (st : t * SessionManager.t)
  : t * SessionManager.t :=
  match c with
  | CreateTunnel port tunnel_id => snd (create_tunnel e port tunnel_id st)
  | DestroyTunnel tunnel_id => snd (destroy_tunnel e tunnel_id st)
  | DestroyAllTunnels => destroy_all_tunnels e st
  | HealthCheck tunnel_id => snd (health_check e tunnel_id st)
  | OnSession c => (fst st, SessionManager.step e c (snd st))
  end.

Fixpoint run (cs : list (Env * call)) (st : t * SessionManager.t)
  : t * SessionManager.t :=
  match cs with
  | [] => st
  | (e, c) :: rest => run rest (step e c st)
  end.
End Quick.

(** ** core/hybrid_tunnel_manager.py

    The two strategies are the façade's collaborators: it only calls the
    methods listed here, on whichever manager it holds. *)

Class NamedStrategy (N : Type) := {
  named_initialize : Env → N → result bool * N;
  named_add_port_mapping :
    Env → Z → N * SessionManager.t → result Tunnel.t * (N * SessionManager.t);
  named_remove_port_mapping :
    Env → Z → N * SessionManager.t → result bool * (N * SessionManager.t);
  named_tunnels : N → list (Z * Tunnel.t);
  named_get_all_tunnels : N → list Tunnel.t;
  named_tunnel_process : N → option Z;
  named_shutdown : Env → N → N
}.

Class QuickStrategy (Q : Type) := {
  quick_new : Q;
  quick_create_tunnel :
    Env → Z → option string → Q * SessionManager.t →
    result Tunnel.t * (Q * SessionManager.t);
  quick_destroy_tunnel :
    Env → string → Q * SessionManager.t → result bool * (Q * SessionManager.t);
  quick_destroy_all_tunnels :
    Env → Q * SessionManager.t → Q * SessionManager.t;
  quick_get_tunnel : string → Q → option Tunnel.t;
  quick_get_tunnels_by_session : string → Q → list Tunnel.t;
  quick_get_active_tunnels : Q → list Tunnel.t;
  quick_health_check :
    Env → string → Q * SessionManager.t → bool * (Q * SessionManager.t)
}.

Global Instance Named_strategy : NamedStrategy Named.t := {
  named_initialize := Named.initialize;
  named_add_port_mapping := Named.add_port_mapping;
  named_remove_port_mapping := Named.remove_port_mapping;
  named_tunnels := Named.tunnels;
  named_get_all_tunnels := Named.get_all_tunnels;
  named_tunnel_process := Named._tunnel_process;
  named_shutdown := Named.shutdown
}.

Global Instance Quick_strategy : QuickStrategy Quick.t := {
  quick_new := Quick.new;
  quick_create_tunnel := Quick.create_tunnel;
  quick_destroy_tunnel := Quick.destroy_tunnel;
  quick_destroy_all_tunnels := Quick.destroy_all_tunnels;
  quick_get_tunnel := Quick.get_tunnel;
  quick_get_tunnels_by_session := Quick.get_tunnels_by_session;
  quick_get_active_tunnels := Quick.get_active_tunnels;
  quick_health_check := Quick.health_check
}.

Module Hybrid.
Section Facade.
Context {N Q : Type} `{NamedStrategy N} `{QuickStrategy Q}.

Inductive manager := NamedM (n : N) | QuickM (q : Q).

Record t := mk {
  use_named_tunnels : bool;
  tunnel_manager : manager;
  _is_named : bool
}.

Definition world : Type := t * SessionManager.t.

(** [HybridTunnelManager(session_manager)]: [configured] is
    [cloudflare_api.is_configured()], [n0] the NamedTunnelManager it
    would build. *)
Definition new (settings_use_named configured : bool) (n0 : N) : t :=
  if settings_use_named && configured
  then mk true (NamedM n0) true
  else mk false (QuickM quick_new) false.

Definition with_manager (x : manager) (h : t) : t :=
  mk (use_named_tunnels h) x (_is_named h).

Definition fall_back (h : t) : t :=
  mk (use_named_tunnels h) (QuickM quick_new) false.

(** The manager held is not of the kind the flag says. *)
Definition wrong_manager : exn := AttributeError "tunnel_manager".

Definition initialize (e : Env) (h : t) : result bool * t :=
  if _is_named h then
    match tunnel_manager h with
    | NamedM n =>
        match named_initialize e n with
        | (Ret true, n') => (Ret true, with_manager (NamedM n') h)
        | (Ret false, _) => (Ret false, fall_back h)
        | (Raise _, _) => (Ret false, fall_back h)
        | (Blocked, n') => (Blocked, with_manager (NamedM n') h)
        end
    | QuickM _ => (Ret false, fall_back h)
    end
  else (Ret true, h).

Definition create_tunnel (e : Env) (port : Z) (tunnel_id : option string)
  (w : world) : result Tunnel.t * world :=
  let '(h, sm) := w in
  match _is_named h, tunnel_manager h with
  | true, NamedM n =>
      let '(r, (n', sm')) := named_add_port_mapping e port (n, sm) in
      (r, (with_manager (NamedM n') h, sm'))
  | false, QuickM q =>
      let '(r, (q', sm')) := quick_create_tunnel e port tunnel_id (q, sm) in
      (r, (with_manager (QuickM q') h, sm'))
  | _, _ => (Raise wrong_manager, w)
  end.

Definition destroy_tunnel (e : Env) (tunnel_id : string) (w : world)
  : result bool * world :=
  let '(h, sm) := w in
  match _is_named h, tunnel_manager h with
  | true, NamedM n =>
      let key := fst <$> find (λ kv, bool_decide (Tunnel.id (snd kv) = tunnel_id))
                           (named_tunnels n) in
      match key ≫= (λ k, dict_get k (named_tunnels n)) with
      | Some tunnel =>
          let '(r, (n', sm')) :=
            named_remove_port_mapping e (Tunnel.port tunnel) (n, sm) in
          (r, (with_manager (NamedM n') h, sm'))
      | None => (Ret false, w)
      end
  | false, QuickM q =>
      let '(r, (q', sm')) := quick_destroy_tunnel e tunnel_id (q, sm) in
      (r, (with_manager (QuickM q') h, sm'))
  | _, _ => (Raise wrong_manager, w)
  end.

Fixpoint remove_each (e : Env) (ports : list Z) (st : N * SessionManager.t)
  : N * SessionManager.t :=
  match ports with
  | [] => st
  | p :: rest => remove_each e rest (snd (named_remove_port_mapping e p st))
  end.

Definition destroy_all_tunnels (e : Env) (w : world) : result unit * world :=
  let '(h, sm) := w in
  match _is_named h, tunnel_manager h with
  | true, NamedM n =>
      let '(n', sm') := remove_each e (dict_keys (named_tunnels n)) (n, sm) in
      (Ret (), (with_manager (NamedM n') h, sm'))
  | false, QuickM q =>
      let '(q', sm') := quick_destroy_all_tunnels e (q, sm) in
      (Ret (), (with_manager (QuickM q') h, sm'))
  | _, _ => (Raise wrong_manager, w)
  end.

Definition get_tunnel (tunnel_id : string) (h : t) : result (option Tunnel.t) :=
  match _is_named h, tunnel_manager h with
  | true, NamedM n =>
      Ret (find (λ x, bool_decide (Tunnel.id x = tunnel_id))
             (dict_values (named_tunnels n)))
  | false, QuickM q => Ret (quick_get_tunnel tunnel_id q)
  | _, _ => Raise wrong_manager
  end.

Definition get_tunnels_by_session (session_id : string) (h : t)
  : result (list Tunnel.t) :=
  match _is_named h, tunnel_manager h with
  | true, NamedM n =>
      Ret (filter (λ x, Tunnel.session_id x = session_id)
             (dict_values (named_tunnels n)))
  | false, QuickM q => Ret (quick_get_tunnels_by_session session_id q)
  | _, _ => Raise wrong_manager
  end.

Definition get_active_tunnels (h : t) : result (list Tunnel.t) :=
  match _is_named h, tunnel_manager h with
  | true, NamedM n => Ret (named_get_all_tunnels n)
  | false, QuickM q => Ret (quick_get_active_tunnels q)
  | _, _ => Raise wrong_manager
  end.

(** In named mode [_tunnel_process] holds a pid, an [int], which has
    no [poll]. *)
Definition health_check (e : Env) (tunnel_id : string) (w : world)
  : result bool * world :=
  let '(h, sm) := w in
  match _is_named h, tunnel_manager h with
  | true, NamedM n =>
      match named_tunnel_process n with
      | None => (Ret false, w)
      | Some _ => (Raise (AttributeError "poll"), w)
      end
  | false, QuickM q =>
      let '(b, (q', sm')) := quick_health_check e tunnel_id (q, sm) in
      (Ret b, (with_manager (QuickM q') h, sm'))
  | _, _ => (Raise wrong_manager, w)
  end.

Definition shutdown (e : Env) (w : world) : result unit * world :=
  let '(h, sm) := w in
  match _is_named h, tunnel_manager h with
  | true, NamedM n => (Ret (), (with_manager (NamedM (named_shutdown e n)) h, sm))
  | true, QuickM _ => (Raise wrong_manager, w)
  | false, _ => destroy_all_tunnels e w
  end.

(** The calls a client of the façade can make. *)
Inductive call :=
| Initialize
| CreateTunnel (port : Z) (tunnel_id : option string)
| DestroyTunnel (tunnel_id : string)
| DestroyAllTunnels
| GetTunnel (tunnel_id : string)
| GetTunnelsBySession (session_id : string)
| GetActiveTunnels
| HealthCheck (tunnel_id : string)
| Shutdown.

Definition step (e : Env) (c : call) (w : world) : world :=
  match c with
  | Initialize => (snd (initialize e (fst w)), snd w)
  | CreateTunnel port tid => snd (create_tunnel e port tid w)
  | DestroyTunnel tid => snd (destroy_tunnel e tid w)
  | DestroyAllTunnels => snd (destroy_all_tunnels e w)
  | GetTunnel _ | GetTunnelsBySession _ | GetActiveTunnels => w
  | HealthCheck tid => snd (health_check e tid w)
  | Shutdown => snd (shutdown e w)
  end.

Fixpoint run (cs : list (Env * call)) (w : world) : world :=
  match cs with
  | [] => w
  | (e, c) :: rest => run rest (step e c w)
  end.
End Facade.
Arguments t : clear implicits.
Arguments manager : clear implicits.
Arguments world : clear implicits.
End Hybrid.

(** ** core/auto_tunnel.py *)

(** What the orchestrator asks of its [tunnel_manager]. *)
Class TunnelFacade (W : Type) := {
  facade_create_tunnel : Env → Z → W → result Tunnel.t * W;
  facade_destroy_all_tunnels : Env → W → result unit * W
}.

Global Instance Hybrid_facade {N Q} `{NamedStrategy N} `{QuickStrategy Q}
  : TunnelFacade (Hybrid.world N Q) := {
  facade_create_tunnel e port w := Hybrid.create_tunnel e port None w;
  facade_destroy_all_tunnels := Hybrid.destroy_all_tunnels
}.

Module AutoTunnel.
(** The callbacks that [initialize] registers. *)
Inductive handler := OnLocalhostDetected | OnServerReady.

(** What is recorded of the calls to [tunnel_manager.create_tunnel]: that
    one was made for a port, and that one came back, with a tunnel or
    without. *)
Inductive call_event :=
| Issued (port : Z)
| Returned (port : Z) (ok : bool).

Record t := mk {
  _detected_ports : gset Z;
  _subscribers : gset qref;
  queues : qheap WSTunnelMessage;
  (* the record of the calls to create_tunnel, oldest first *)
  create_calls : list call_event
}.

Definition new : t := mk ∅ ∅ qheap_empty [].

Definition subscribe (a : t) : qref * t :=
  let '(q, h) := qalloc 50 (queues a) in
  (q, mk (_detected_ports a) ({[q]} ∪ _subscribers a) h (create_calls a)).

Definition unsubscribe (q : qref) (a : t) : t :=
  mk (_detected_ports a) (_subscribers a ∖ {[q]}) (queues a) (create_calls a).

Definition _broadcast_tunnel_event (msg : WSTunnelMessage) (a : t) : t :=
  if decide (_subscribers a = ∅) then a
  else mk (_detected_ports a) (_subscribers a)
         (broadcast_nowait msg (_subscribers a) (queues a)) (create_calls a).

Definition record (ev : call_event) (a : t) : t :=
  mk (_detected_ports a) (_subscribers a) (queues a) (create_calls a ++ [ev]).

Definition mark_handled (port : Z) (a : t) : t :=
  mk ({[port]} ∪ _detected_ports a) (_subscribers a) (queues a)
     (create_calls a).

Section WithFacade.
Context {W : Type} `{TunnelFacade W}.

Definition _on_localhost_detected (e : Env)
  (m : PatternDetector.PatternMatch) (st : t * W) : result unit * (t * W) :=
  let '(a, w) := st in
  match PatternDetector.extract_port (PatternDetector.matched_text m) with
  | Ret (Some port) =>
      if port =? 0 then (Ret (), st)
      else if decide (port ∈ _detected_ports a) then (Ret (), st)
      else
        match facade_create_tunnel e port w with
        | (Ret tunnel, w') =>
            (Ret (),
             (_broadcast_tunnel_event
                (mkWSTunnelMessage TUNNEL_CREATED tunnel)
                (mark_handled port
                   (record (Returned port true) (record (Issued port) a))),
              w'))
        | (Raise _, w') =>
            (Ret (),
             (record (Returned port false) (record (Issued port) a), w'))
        | (Blocked, w') => (Blocked, (record (Issued port) a, w'))
        end
  | Ret None => (Ret (), st)
  | Raise x => (Raise x, st)
  | Blocked => (Blocked, st)
  end.

Definition _on_server_ready (e : Env) (m : PatternDetector.PatternMatch)
  (st : t * W) : result unit * (t * W) :=
  match PatternDetector.extract_port (PatternDetector.matched_text m) with
  | Ret (Some port) =>
      if negb (port =? 0) && negb (bool_decide (port ∈ _detected_ports (fst st)))
      then _on_localhost_detected e m st
      else (Ret (), st)
  | Ret None => (Ret (), st)
  | Raise x => (Raise x, st)
  | Blocked => (Blocked, st)
  end.

Definition handle (e : Env) (h : handler)
  (m : PatternDetector.PatternMatch) (st : t * W) : t * W :=
  match h with
  | OnLocalhostDetected => snd (_on_localhost_detected e m st)
  | OnServerReady => snd (_on_server_ready e m st)
  end.

(** The handler tasks, each run to completion, in the order the
    matches were found. *)
Fixpoint deliver (events : list (Env * handler * PatternDetector.PatternMatch))
  (st : t * W) : t * W :=
  match events with
  | [] => st
  | (e, h, m) :: rest => deliver rest (handle e h m st)
  end.

Definition cleanup (e : Env) (st : t * W) : result unit * (t * W) :=
  let '(a, w) := st in
  match facade_destroy_all_tunnels e w with
  | (Ret _, w') => (Ret (), (mk ∅ ∅ (queues a) (create_calls a), w'))
  | (r, w') => (r, (a, w'))
  end.
End WithFacade.

(** *** The handlers as tasks

    [initialize] registers each handler as [asyncio.create_task(...)]: a
    handler runs up to [await tunnel_manager.create_tunnel(port)], other
    tasks may run while it waits, and it goes on when the call comes back.
    [begin] is a handler up to the await ([_on_server_ready] makes the same
    two tests before it awaits [_on_localhost_detected]), [finish] is what
    follows the await. *)

Definition begin (m : PatternDetector.PatternMatch) (a : t) : t * option Z :=
  match PatternDetector.extract_port (PatternDetector.matched_text m) with
  | Ret (Some port) =>
      if port =? 0 then (a, None)
      else if decide (port ∈ _detected_ports a) then (a, None)
      else (record (Issued port) a, Some port)
  | _ => (a, None)
  end.

Definition finish (port : Z) (r : result Tunnel.t) (a : t) : t :=
  match r with
  | Ret tunnel =>
      _broadcast_tunnel_event (mkWSTunnelMessage TUNNEL_CREATED tunnel)
        (mark_handled port (record (Returned port true) a))
  | Raise _ => record (Returned port false) a
  | Blocked => a
  end.

(** A schedule: a handler task starts on a match, or the call of the
    [i]-th waiting task comes back with [r]. *)
Inductive sched :=
| Start (h : handler) (m : PatternDetector.PatternMatch)
| Finish (i : nat) (r : result Tunnel.t).

(** The orchestrator and the ports of the waiting tasks, oldest first. *)
Definition sched_step (s : sched) (st : t * list Z) : t * list Z :=
  let '(a, waiting) := st in
  match s with
  | Start _ m =>
      match begin m a with
      | (a', Some port) => (a', waiting ++ [port])
      | (a', None) => (a', waiting)
      end
  | Finish i r =>
      match waiting !! i, r with
      | Some port, Blocked => st
      | Some port, _ => (finish port r a, delete i waiting)
      | None, _ => st
      end
  end.

Definition sched_run (ss : list sched) (st : t * list Z) : t * list Z :=
  foldl (λ st s, sched_step s st) st ss.

Definition initialize (auto_create_tunnels : bool)
  (lm : LogMonitor.t handler) : LogMonitor.t handler :=
  if auto_create_tunnels then
    LogMonitor.register_pattern_callback "listening_on_port" OnLocalhostDetected
      (LogMonitor.register_pattern_callback "server_ready" OnServerReady
         (LogMonitor.register_pattern_callback "localhost_server"
            OnLocalhostDetected lm))
  else lm.
End AutoTunnel.

(** ** utils/template_manager.py *)

(** [name.endswith(suffix)] *)
Definition endswith (suffix name : string) : bool :=
  (String.length suffix <=? String.length name)%nat
  && String.eqb
       (string_drop (String.length name - String.length suffix) name) suffix.

(** [s[:-1]] *)
Fixpoint string_init (s : string) : string :=
  match s with
  | EmptyString => EmptyString
  | String c EmptyString => EmptyString
  | String c s' => String c (string_init s')
  end.

(** [c in s] for a character. *)
Fixpoint has_char (c : ascii) (s : string) : bool :=
  match s with
  | EmptyString => false
  | String c' s' => Ascii.eqb c' c || has_char c s'
  end.

Module TemplateManager.
Definition EXCLUDE_PATTERNS : list string :=
  [ ".git"; ".gitignore"; "__pycache__"; "*.pyc"; ".DS_Store";
    "node_modules"; ".venv"; "venv"; ".env"; ".env.local"; "*.log";
    ".pytest_cache"; ".mypy_cache"; ".coverage"; "dist"; "build";
    "*.egg-info" ].

(** One turn of the loop over the wildcard patterns. *)
Definition wildcard_match (name pattern : string) : bool :=
  if has_char "*" pattern then
    if String.prefix "*" pattern
    then endswith (string_drop 1 pattern) name
    else if endswith "*" pattern
         then String.prefix (string_init pattern) name
         else false
  else false.

(** [should_exclude(path)], on [path.name]. *)
Definition should_exclude (name : string) : bool :=
  bool_decide (name ∈ EXCLUDE_PATTERNS)
  || existsb (wildcard_match name) EXCLUDE_PATTERNS.

(** A path relative to the template directory, as its components. *)
Abbreviation path := (list string) (only parsing).

(** [p.name]: the last component, [''] for the path [.] *)
Definition path_name (p : path) : string := default "" (last p).

(** [p.parents] of a relative path: [a/b], [a], [.] for [a/b/c]. *)
Definition parents (p : path) : list path :=
  map (λ n, take n p) (reverse (seq 0 (length p))).

Inductive kind := Dir | File | Other.

(** An entry that [rglob] yields: where it is, what it is, and whether
    creating or copying it at the destination succeeds. *)
Record item := mkItem {
  rel : path;
  item_kind : kind;
  op_ok : bool
}.

(** What is at [template_path]; for a directory, its entries in the
    order [rglob("*")] yields them. *)
Inductive source := Missing | NotADirectory | Tree (items : list item).

Inductive action := Mkdir (p : path) | Copy (p : path).

Record report := mkReport {
  copied_count : nat;
  skipped_count : nat;
  actions : list action
}.

Definition skip (it : item) : bool :=
  existsb (λ part, should_exclude (path_name part)) (parents (rel it))
  || should_exclude (path_name (rel it)).

Fixpoint copy_items (items : list item) (r : report) : report :=
  match items with
  | [] => r
  | it :: rest =>
      let skipped :=
        mkReport (copied_count r) (S (skipped_count r)) (actions r) in
      if skip it then copy_items rest skipped
      else
        match item_kind it with
        | Dir =>
            if op_ok it
            then copy_items rest
                   (mkReport (copied_count r) (skipped_count r)
                      (actions r ++ [Mkdir (rel it)]))
            else copy_items rest skipped
        | File =>
            if op_ok it
            then copy_items rest
                   (mkReport (S (copied_count r)) (skipped_count r)
                      (actions r ++ [Copy (rel it)]))
            else copy_items rest skipped
        | Other => copy_items rest r
        end
  end.

(** [copy_templates]: [template_dir] is the resolved template path,
    [dest_mkdir_ok] whether the destination directory can be made. *)
Definition copy_templates (template_dir : string) (src : source)
  (dest_mkdir_ok : bool) : (bool * option string) * report :=
  let nothing := mkReport 0 0 [] in
  match src with
  | Missing =>
      ((false, Some ("Template directory not found: " +:+ template_dir)),
       nothing)
  | NotADirectory =>
      ((false, Some ("Template path is not a directory: " +:+ template_dir)),
       nothing)
  | Tree items =>
      if dest_mkdir_ok then ((true, None), copy_items items nothing)
      else ((false, Some "Template copy failed"), nothing)
  end.
End TemplateManager.

(** ** config.py: the project list of the configuration file *)

Module Settings.
(** The value of a key of a JSON object: missing, [null] or a string. *)
Inductive jstr := JAbsent | JNull | JStr (s : string).

Global Instance jstr_eq_dec : EqDecision jstr.
Proof. solve_decision. Defined.

(** An element of ["projects"]. *)
Record project_entry := mkEntry {
  pe_name : jstr;
  pe_path : jstr;
  pe_description : jstr
}.

Global Instance project_entry_eq_dec : EqDecision project_entry.
Proof. solve_decision. Defined.

Record ProjectConfig := mkProject {
  name : string;
  path : string;
  description : option string
}.

(** The document in the file; a key that is missing is [None]. *)
Record config_json := mkJson {
  cj_jwt_expiry_minutes : option Z;
  cj_template_path : option string;
  cj_projects : option (list project_entry);
  cj_common_slash_commands : option (list string)
}.

(** The file at [auth_config_file]. *)
Inductive config_file := NoConfig | BadJSON | Config (d : config_json).

Record AuthConfig := mkAuthConfig {
  ac_totp_secret : option string;
  ac_jwt_secret : option string;
  ac_jwt_expiry_minutes : Z;
  ac_template_path : option string;
  ac_projects : list ProjectConfig;
  ac_common_slash_commands : list string
}.

Record t := mk {
  auth_config_file : config_file;
  totp_secret : option string;
  jwt_secret : option string;
  _auth_config_cache : option AuthConfig
}.

Definition not_found : exn := OSError "Auth config file not found".
Definition invalid_json : exn := ValueError "Invalid JSON in auth config file".

(** [data.get("projects", [])] *)
Definition projects_of (d : config_json) : list project_entry :=
  default [] (cj_projects d).

Definition with_projects (ps : list project_entry) (d : config_json)
  : config_json :=
  mkJson (cj_jwt_expiry_minutes d) (cj_template_path d) (Some ps)
    (cj_common_slash_commands d).

(** The projects in the file, none when it cannot be read. *)
Definition file_projects (s : t) : list project_entry :=
  match auth_config_file s with
  | Config d => projects_of d
  | _ => []
  end.

(** [ProjectConfig] built from the dict: [name] and [path] are required
    strings. *)
Definition to_project (p : project_entry) : result ProjectConfig :=
  match pe_name p, pe_path p with
  | JStr n, JStr pa =>
      Ret (mkProject n pa
             (match pe_description p with JStr d => Some d | _ => None end))
  | _, _ => Raise (ValueError "validation error for ProjectConfig")
  end.

Fixpoint to_projects (ps : list project_entry) : result (list ProjectConfig) :=
  match ps with
  | [] => Ret []
  | p :: rest =>
      match to_project p with
      | Ret x =>
          match to_projects rest with
          | Ret xs => Ret (x :: xs)
          | r => r
          end
      | Raise x => Raise x
      | Blocked => Blocked
      end
  end.

Definition load_auth_config (s : t) : result AuthConfig * t :=
  match _auth_config_cache s with
  | Some c => (Ret c, s)
  | None =>
      match auth_config_file s with
      | NoConfig => (Raise not_found, s)
      | BadJSON => (Raise invalid_json, s)
      | Config d =>
          match to_projects (projects_of d) with
          | Ret projects =>
              let c := mkAuthConfig (totp_secret s) (jwt_secret s)
                         (default 30 (cj_jwt_expiry_minutes d))
                         (cj_template_path d) projects
                         (default [] (cj_common_slash_commands d)) in
              if truthy_str (totp_secret s) && truthy_str (jwt_secret s)
              then (Ret c,
                    mk (auth_config_file s) (totp_secret s) (jwt_secret s)
                       (Some c))
              else (Raise (ValueError "Missing authentication secrets"), s)
          | Raise x => (Raise x, s)
          | Blocked => (Blocked, s)
          end
      end
  end.

(** The dict that [save_project] writes for a project. *)
Definition entry_of (p : ProjectConfig) : project_entry :=
  mkEntry (JStr (name p)) (JStr (path p))
    (match description p with Some d => JStr d | None => JNull end).

(** The file is written and the cache cleared. *)
Definition written (d : config_json) (s : t) : t :=
  mk (Config d) (totp_secret s) (jwt_secret s) None.

(** [p.get("name") == n] *)
Definition named (n : string) (p : project_entry) : bool :=
  bool_decide (pe_name p = JStr n).

(** [write_ok]: whether the file can be opened for writing. *)
Definition save_project (write_ok : bool) (project : ProjectConfig) (s : t)
  : result unit * t :=
  match auth_config_file s with
  | NoConfig => (Raise not_found, s)
  | BadJSON => (Raise invalid_json, s)
  | Config d =>
      if existsb (named (name project)) (projects_of d)
      then (Raise (ValueError "Project already exists"), s)
      else if write_ok
      then (Ret (), written (with_projects (entry_of project :: projects_of d) d) s)
      else (Raise (OSError "config file"), s)
  end.

Definition delete_project (write_ok : bool) (project_name : string) (s : t)
  : result unit * t :=
  match auth_config_file s with
  | NoConfig => (Raise not_found, s)
  | BadJSON => (Raise invalid_json, s)
  | Config d =>
      let kept := filter (λ p, named project_name p = false) (projects_of d) in
      if (length kept =? length (projects_of d))%nat
      then (Raise (ValueError "Project not found"), s)
      else if write_ok
      then (Ret (), written (with_projects kept d) s)
      else (Raise (OSError "config file"), s)
  end.

Section Paths.
(** [Path(p).expanduser().resolve()] *)
Variable resolve : string → string.

(** The loop of [move_project_to_top]: the index of the first project
    at [working_path]; [Path(None)] raises. *)
Fixpoint find_project (working_path : string) (i : nat)
  (ps : list project_entry) : result (option (nat * project_entry)) :=
  match ps with
  | [] => Ret None
  | p :: rest =>
      match pe_path p with
      | JNull => Raise (ValueError "TypeError: expected str, not NoneType")
      | JAbsent =>
          if String.eqb (resolve "") working_path then Ret (Some (i, p))
          else find_project working_path (S i) rest
      | JStr pa =>
          if String.eqb (resolve pa) working_path then Ret (Some (i, p))
          else find_project working_path (S i) rest
      end
  end.

(** Every failure is logged and swallowed. *)
Definition move_project_to_top (write_ok : bool) (working_dir : string)
  (s : t) : t :=
  match auth_config_file s with
  | Config d =>
      match projects_of d with
      | [] => s
      | ps =>
          match find_project (resolve working_dir) 0 ps with
          | Ret (Some (O, _)) => s
          | Ret (Some (i, p)) =>
              if write_ok
              then written (with_projects (p :: delete i ps) d) s
              else s
          | _ => s
          end
      end
  | _ => s
  end.

(** The calls that change or read the project list. *)
Inductive call :=
| LoadAuthConfig
| SaveProject (write_ok : bool) (project : ProjectConfig)
| DeleteProject (write_ok : bool) (project_name : string)
| MoveProjectToTop (write_ok : bool) (working_dir : string).

Definition step (c : call) (s : t) : t :=
  match c with
  | LoadAuthConfig => snd (load_auth_config s)
  | SaveProject w p => snd (save_project w p s)
  | DeleteProject w n => snd (delete_project w n s)
  | MoveProjectToTop w d => move_project_to_top w d s
  end.

Definition run (cs : list call) (s : t) : t := foldl (λ s c, step c s) s cs.
End Paths.
End Settings.

(** ** Base64 decoding, as [base64.b64decode] does it

    The text is encoded as ASCII and handed to [binascii.a2b_base64],
    which skips the characters outside the alphabet, stops at a complete
    padding and refuses a text that ends inside a group of four. *)

Definition b64_index (c : ascii) : option N :=
  let n := N_of_ascii c in
  if ((65 <=? n) && (n <=? 90))%N then Some (n - 65)%N
  else if ((97 <=? n) && (n <=? 122))%N then Some (n - 71)%N
  else if ((48 <=? n) && (n <=? 57))%N then Some (n + 4)%N
  else if (n =? 43)%N then Some 62%N
  else if (n =? 47)%N then Some 63%N
  else None.

Definition incorrect_padding : exn := ValueError "Incorrect padding".

Fixpoint a2b_base64 (s : string) (quad_pos : nat) (leftchar : N)
  (pads : nat) (out : bytes) : result bytes :=
  match s with
  | EmptyString =>
      match quad_pos with O => Ret out | _ => Raise incorrect_padding end
  | String c s' =>
      if Ascii.eqb c "="%char then
        if (2 <=? quad_pos)%nat then
          if (4 <=? quad_pos + S pads)%nat then Ret out
          else a2b_base64 s' quad_pos leftchar (S pads) out
        else a2b_base64 s' quad_pos leftchar pads out
      else
        match b64_index c with
        | None => a2b_base64 s' quad_pos leftchar pads out
        | Some v =>
            match quad_pos with
            | 0%nat => a2b_base64 s' 1 v 0 out
            | 1%nat =>
                a2b_base64 s' 2 (N.land v 15) 0
                  (out ++ [byte_of_N (N.lor (N.shiftl leftchar 2) (N.shiftr v 4))])
            | 2%nat =>
                a2b_base64 s' 3 (N.land v 3) 0
                  (out ++ [byte_of_N (N.lor (N.shiftl leftchar 4) (N.shiftr v 2))])
            | _ =>
                a2b_base64 s' 0 0 0
                  (out ++ [byte_of_N (N.lor (N.shiftl leftchar 6) v)])
            end
        end
  end.

Fixpoint is_ascii (s : string) : bool :=
  match s with
  | EmptyString => true
  | String c s' => (N_of_ascii c <? 128)%N && is_ascii s'
  end.

Definition b64decode (s : string) : result bytes :=
  if is_ascii s then a2b_base64 s 0 0 0 []
  else Raise (ValueError "string argument should contain only ASCII characters").

(** ** api/websocket.py *)

Module WS.
(** The binary frame that one turn of [send_pty_output] sends for an
    item of the output queue. *)
Definition pty_frame (encoded_data : string) : result bytes :=
  b64decode encoded_data.
End WS.

(** ** api/routes.py

    A route answers with the value it returns, sent with the status code
    of the route, or with the [HTTPException] it raises; a route whose
    awaited call never completes gives no answer.  The requests are
    those that passed [require_auth] and the validation of the body. *)

Module Routes.
Inductive response (A : Type) :=
| Sent (status_code : Z) (body : A)
| HTTPException (status_code : Z).
Arguments Sent {A} status_code body.
Arguments HTTPException {A} status_code.

(** The handlers that close the [try] of a route:
    [except ValueError] with the status code of the route, then
    [except Exception] with 500. *)
Definition handlers {A} (on_value_error : Z) (x : exn) : response A :=
  match x with
  | ValueError _ => HTTPException on_value_error
  | _ => HTTPException 500
  end.

Definition get_session (e : Env) (sm : SessionManager.t)
  : response SessionInfo :=
  match SessionManager.get_session_info e sm with
  | Some session_info => Sent 200 session_info
  | None => HTTPException 404
  end.

Definition send_command (e : Env) (command : string) (sm : SessionManager.t)
  : option (response string) * SessionManager.t :=
  match SessionManager.send_command e command sm with
  | (Ret _, sm') => (Some (Sent 200 "Command sent successfully"), sm')
  | (Raise x, sm') => (Some (handlers 404 x), sm')
  | (Blocked, sm') => (None, sm')
  end.

Definition get_logs (limit : Z) (sm : SessionManager.t)
  : response (list LogEntry) :=
  if negb (SessionManager.has_active_session sm) then HTTPException 404
  else Sent 200 (SessionManager.get_recent_logs limit sm).

Section WithManagers.
Context {N Q : Type} `{NamedStrategy N} `{QuickStrategy Q}.

Definition destroy_session (e : Env) (w : Hybrid.world N Q)
  : option (response string) * Hybrid.world N Q :=
  match Hybrid.destroy_all_tunnels e w with
  | (Ret _, (h, sm)) =>
      match SessionManager.destroy_session e sm with
      | (Ret _, sm') => (Some (Sent 200 "Session destroyed successfully"), (h, sm'))
      | (Raise x, sm') => (Some (handlers 404 x), (h, sm'))
      | (Blocked, sm') => (None, (h, sm'))
      end
  | (Raise x, w') => (Some (handlers 404 x), w')
  | (Blocked, w') => (None, w')
  end.

Definition create_tunnel (e : Env) (port : Z) (w : Hybrid.world N Q)
  : option (response Tunnel.t) * Hybrid.world N Q :=
  match Hybrid.create_tunnel e port None w with
  | (Ret tunnel, w') => (Some (Sent 201 tunnel), w')
  | (Raise x, w') => (Some (handlers 400 x), w')
  | (Blocked, w') => (None, w')
  end.

Definition destroy_tunnel (e : Env) (tunnel_id : string) (w : Hybrid.world N Q)
  : option (response string) * Hybrid.world N Q :=
  match Hybrid.destroy_tunnel e tunnel_id w with
  | (Ret _, w') => (Some (Sent 200 "Tunnel destroyed successfully"), w')
  | (Raise x, w') => (Some (handlers 404 x), w')
  | (Blocked, w') => (None, w')
  end.
End WithManagers.
End Routes.

(** ** core/tunnel_manager.py, with the await of [create_tunnel]

    [create_tunnel] awaits [_extract_tunnel_url], which sleeps between
    its reads of the output of cloudflared, and other calls on the manager
    run while a call waits there.  [create_begin] is the call up to that
    await and [create_finish] is the call from there on; the other
    methods never give up control.  The [Tunnel] objects are mutable and
    shared by [self.tunnels], by the list of the session and by the local
    variable of a waiting call: they are kept in a store and named by
    their place in it.  The session manager is another object: its state
    at a call is given with the call, and what the manager does to it is
    recorded in order. *)

Module TunnelManager.
Inductive session_call :=
| TunnelsAppend (session_id : string) (tunnel : nat)
| TunnelsRemove (tunnel_id : string)
| SaveSessionMetadata.

Record t := mk {
  objects : list Tunnel.t;                 (* the Tunnel objects made so far *)
  tunnels : list (string * nat);           (* id -> Tunnel object *)
  _tunnel_processes : list (string * Z);   (* id -> process (its pid) *)
  waiting : gset nat;                      (* the calls at their await, each
                                              named by its Tunnel object *)
  signals : list effect;
  session_calls : list session_call
}.

Definition new : t := mk [] [] [] ∅ [] [].

Definition set_public_url (u : string) (x : Tunnel.t) : Tunnel.t :=
  Tunnel.mk (Tunnel.id x) (Tunnel.session_id x) (Tunnel.port x) u
    (Tunnel.created_at x) (Tunnel.status x) (Tunnel.process_pid x).

Definition set_process_pid (p : option Z) (x : Tunnel.t) : Tunnel.t :=
  Tunnel.mk (Tunnel.id x) (Tunnel.session_id x) (Tunnel.port x)
    (Tunnel.public_url x) (Tunnel.created_at x) (Tunnel.status x) p.

(** An assignment to a field of the object [r]. *)
Definition update (r : nat) (f : Tunnel.t → Tunnel.t) (st : t) : t :=
  mk (alter f r (objects st)) (tunnels st) (_tunnel_processes st)
     (waiting st) (signals st) (session_calls st).

(** [self.tunnels.values()] *)
Definition values (st : t) : list Tunnel.t :=
  omap (λ kr, objects st !! kr.2) (tunnels st).

Inductive begun :=
| Returns (r : result Tunnel.t)     (* the call is over *)
| Awaits (tunnel : nat).            (* the call waits for the URL *)

Definition create_begin (e : Env) (sm : SessionManager.t) (port : Z)
  (tunnel_id : option string) (st : t) : begun * t :=
  if negb (SessionManager.has_active_session sm)
  then (Returns (Raise (ValueError "No active session to associate tunnel with")),
        st)
  else
    match SessionManager.session sm with
    | None =>
        (Returns (Raise (ValueError "No active session to associate tunnel with")),
         st)
    | Some session =>
        let tid := if truthy_str tunnel_id then default "" tunnel_id
                   else Quick.gen_id e port in
        match find (Quick.active_on port) (values st) with
        | Some existing => (Returns (Ret existing), st)
        | None =>
            let r := length (objects st) in
            let tunnel := Tunnel.mk tid (Session.id session) port "" (now e)
                            T_CREATING None in
            let st1 := mk (objects st ++ [tunnel]) (dict_set tid r (tunnels st))
                         (_tunnel_processes st) (waiting st) (signals st)
                         (session_calls st) in
            match popen e with
            | None =>
                (Returns (Raise Quick.failed),
                 update r (Tunnel.set_status T_ERROR) st1)
            | Some cpid =>
                (Awaits r,
                 mk (alter (set_process_pid (Some cpid)) r (objects st1))
                    (tunnels st1)
                    (dict_set tid cpid (_tunnel_processes st1))
                    ({[r]} ∪ waiting st1) (signals st1) (session_calls st1))
            end
        end
    end.

(** The call that waits with the object [r] goes on: [_extract_tunnel_url]
    has returned [tunnel_url e].  [None]: no call waits with [r]. *)
Definition create_finish (e : Env) (r : nat) (st : t)
  : option (result Tunnel.t) * t :=
  if decide (r ∈ waiting st) then
    let st1 := mk (objects st) (tunnels st) (_tunnel_processes st)
                 (waiting st ∖ {[r]}) (signals st) (session_calls st) in
    if truthy_str (tunnel_url e) then
      let st2 :=
        update r (λ x, Tunnel.set_status T_ACTIVE
                         (set_public_url (default "" (tunnel_url e)) x)) st1 in
      match objects st2 !! r with
      | Some tunnel =>
          (Some (Ret tunnel),
           mk (objects st2) (tunnels st2) (_tunnel_processes st2) (waiting st2)
              (signals st2)
              (session_calls st2
               ++ [TunnelsAppend (Tunnel.session_id tunnel) r;
                   SaveSessionMetadata]))
      | None => (None, st)
      end
    else (Some (Raise Quick.failed), update r (Tunnel.set_status T_ERROR) st1)
  else (None, st).

Definition destroy_tunnel (e : Env) (sm : SessionManager.t)
  (tunnel_id : string) (st : t) : result bool * t :=
  match dict_get tunnel_id (tunnels st) with
  | None => (Raise (ValueError "Tunnel not found"), st)
  | Some r =>
      let '(procs, sigs) :=
        match dict_get tunnel_id (_tunnel_processes st) with
        | Some cpid =>
            (dict_del tunnel_id (_tunnel_processes st),
             if poll_exited e cpid then []
             else OsKill cpid SIGTERM ::
                  (if wait_times_out e then [OsKill cpid SIGKILL] else []))
        | None => (_tunnel_processes st, [])
        end in
      let calls :=
        match SessionManager.session sm with
        | Some _ => [TunnelsRemove tunnel_id; SaveSessionMetadata]
        | None => []
        end in
      (Ret true,
       mk (alter (Tunnel.set_status T_STOPPED) r (objects st))
          (dict_del tunnel_id (tunnels st)) procs (waiting st)
          (signals st ++ sigs) (session_calls st ++ calls))
  end.

Fixpoint destroy_each (e : Env) (sm : SessionManager.t) (ids : list string)
  (st : t) : t :=
  match ids with
  | [] => st
  | i :: rest => destroy_each e sm rest (destroy_tunnel e sm i st).2
  end.

Definition destroy_all_tunnels (e : Env) (sm : SessionManager.t) (st : t) : t :=
  destroy_each e sm (dict_keys (tunnels st)) st.

Definition get_tunnel (tunnel_id : string) (st : t) : option Tunnel.t :=
  dict_get tunnel_id (tunnels st) ≫= (λ r, objects st !! r).

Definition get_active_tunnels (st : t) : list Tunnel.t :=
  filter (λ x, Tunnel.status x = T_ACTIVE) (values st).

Definition health_check (e : Env) (tunnel_id : string) (st : t) : bool * t :=
  match dict_get tunnel_id (tunnels st) with
  | None => (false, st)
  | Some r =>
      let healthy (st' : t) :=
        match objects st' !! r with
        | Some tunnel => bool_decide (Tunnel.status tunnel = T_ACTIVE)
        | None => false
        end in
      match dict_get tunnel_id (_tunnel_processes st) with
      | Some cpid =>
          if poll_exited e cpid
          then (false, update r (Tunnel.set_status T_ERROR) st)
          else (healthy st, st)
      | None => (healthy st, st)
      end
  end.

(** What happens on the manager, one step at a time. *)
Inductive call :=
| CreateBegin (port : Z) (tunnel_id : option string)
| CreateFinish (tunnel : nat)
| DestroyTunnel (tunnel_id : string)
| DestroyAllTunnels
| HealthCheck (tunnel_id : string).

Definition step (e : Env) (sm : SessionManager.t) (c : call) (st : t) : t :=
  match c with
  | CreateBegin port tunnel_id => (create_begin e sm port tunnel_id st).2
  | CreateFinish r => (create_finish e r st).2
  | DestroyTunnel tunnel_id => (destroy_tunnel e sm tunnel_id st).2
  | DestroyAllTunnels => destroy_all_tunnels e sm st
  | HealthCheck tunnel_id => (health_check e tunnel_id st).2
  end.

Fixpoint run (cs : list (Env * SessionManager.t * call)) (st : t) : t :=
  match cs with
  | [] => st
  | (e, sm, c) :: rest => run rest (step e sm c st)
  end.
End TunnelManager.

(** * Stating the properties: invariants, spec-side predicates, samples *)

(** What [put_each] does to one queue. *)
Definition push {A} (x : A) (qu : Queue.t A) : Queue.t A :=
  Queue.mk (Queue.maxsize qu) (Queue.items qu ++ [x]).

(** The invariant of the terminal-output hub: the subscribers are distinct
    queues of the store, and every queue of the store is unbounded. *)
Definition hub_ok (m : SessionManager.t) : Prop :=
  NoDup (SessionManager._output_subscribers m)
  ∧ (∀ q, q ∈ SessionManager._output_subscribers m →
          is_Some (qstore (SessionManager.queues m) !! q))
  ∧ (∀ q qu, qstore (SessionManager.queues m) !! q = Some qu →
             Queue.maxsize qu = 0 ∧ (q < qnext (SessionManager.queues m))%nat).

(** In the log hub every subscriber is a queue of the store, and the
    store holds no queue at or above the next reference. *)
Definition log_hub_ok {H} (m : LogMonitor.t H) : Prop :=
  (∀ q, q ∈ LogMonitor._subscribers m →
        is_Some (qstore (LogMonitor.queues m) !! q))
  ∧ (∀ q, is_Some (qstore (LogMonitor.queues m) !! q) →
          (q < qnext (LogMonitor.queues m))%nat).

Ltac sm_unfold :=
  unfold SessionManager.create_session, SessionManager.destroy_session,
    SessionManager.send_command, SessionManager.send_input,
    SessionManager.resize_terminal, SessionManager._save_session_metadata,
    SessionManager.unlink, SessionManager.exists_metadata,
    PTYSession.start, PTYSession.stop, PTYSession.send_command,
    PTYSession.write, PTYSession.resize, PTYSession._set_terminal_size in *.

Ltac sm_cases := repeat (case_match; simplify_eq/=; try done).

(** A world in which every system call succeeds. *)
Definition env_ok : Env :=
  mkEnv 1700000000 "/srv/work" "claude" "/home/dev" (λ p, p)
    (λ _, KillOk) true true true (Started 4242 7) true true ChildExitsOnTerm
    CnameCreated true (Ret (Some "0a1b2c3d")) (Some 5151)
    (Some 6161) (Some "https://blue-sky.trycloudflare.com") (λ _, false) false.

(** The same world with another answer to [os.kill(pid, 0)]. *)
Definition with_kill0 (k : Z → kill_result) (e : Env) : Env :=
  mkEnv (now e) (default_working_dir e) (claude_cli_path e) (home e)
    (expanduser e) k (unlink_ok e) (write_ok e) (mkdir_ok e) (spawn e)
    (pty_write_ok e) (ioctl_ok e) (child e) (cname e) (config_write_ok e)
    (cloudflared_tunnel e) (cloudflared_run e) (popen e) (tunnel_url e)
    (poll_exited e) (wait_times_out e).

Definition with_now (t : datetime) (e : Env) : Env :=
  mkEnv t (default_working_dir e) (claude_cli_path e) (home e)
    (expanduser e) (kill0 e) (unlink_ok e) (write_ok e) (mkdir_ok e) (spawn e)
    (pty_write_ok e) (ioctl_ok e) (child e) (cname e) (config_write_ok e)
    (cloudflared_tunnel e) (cloudflared_run e) (popen e) (tunnel_url e)
    (poll_exited e) (wait_times_out e).

Definition with_spawn (o : start_outcome) (e : Env) : Env :=
  mkEnv (now e) (default_working_dir e) (claude_cli_path e) (home e)
    (expanduser e) (kill0 e) (unlink_ok e) (write_ok e) (mkdir_ok e) o
    (pty_write_ok e) (ioctl_ok e) (child e) (cname e) (config_write_ok e)
    (cloudflared_tunnel e) (cloudflared_run e) (popen e) (tunnel_url e)
    (poll_exited e) (wait_times_out e).

Definition with_child (c : child_state) (e : Env) : Env :=
  mkEnv (now e) (default_working_dir e) (claude_cli_path e) (home e)
    (expanduser e) (kill0 e) (unlink_ok e) (write_ok e) (mkdir_ok e) (spawn e)
    (pty_write_ok e) (ioctl_ok e) c (cname e) (config_write_ok e)
    (cloudflared_tunnel e) (cloudflared_run e) (popen e) (tunnel_url e)
    (poll_exited e) (wait_times_out e).

(** A session record as an earlier run of the server left it on disk. *)
Definition persisted_session : Session.t :=
  Session.mk "ses_1f2e3d4c" (Some 3131) "/srv/work/ses_1f2e3d4c" RUNNING
    1699990000 1699995000 [].

(** The registry after a restart that found the recorded pid alive. *)
Definition restored : SessionManager.t :=
  SessionManager.init env_ok (Saved persisted_session).

(** The registry with a session created in this run. *)
Definition created : SessionManager.t :=
  (SessionManager.create_session env_ok "ses_aa11bb22" None true false
     (SessionManager.init env_ok NoFile)).2.

(** C1 as the specification words it: a session with status Running
    makes [createSession] fail and stay without effect. *)
Definition running_session_blocks_create : Prop :=
  ∀ e sid wd a ct m s,
    SessionManager.session m = Some s → Session.status s = RUNNING →
    SessionManager.create_session e sid wd a ct m
    = (Raise SessionManager.already_running, m).

(** The call wrote the snapshot of the session it leaves behind, as the
    last thing it did to the file. *)
Definition snapshot_written (m m' : SessionManager.t) : Prop :=
  ∃ s pre,
    SessionManager.session m' = Some s
    ∧ SessionManager.metadata_file m' = Saved s
    ∧ SessionManager.effects m'
      = SessionManager.effects m ++ pre ++ [FsWriteMetadata s].

(** The mutating calls of C6. *)
Definition mutating (c : SessionManager.call) : bool :=
  match c with
  | SessionManager.CreateSession _ _ _ _ | SessionManager.DestroySession
  | SessionManager.SendCommand _ | SessionManager.SendInput _
  | SessionManager.ResizeTerminal _ _ => true
  | _ => false
  end.

(** Whether the call returned (did not raise). *)
Definition returns (e : Env) (c : SessionManager.call) (m : SessionManager.t)
  : bool :=
  match c with
  | SessionManager.CreateSession sid wd a ct =>
      is_ret (SessionManager.create_session e sid wd a ct m).1
  | SessionManager.DestroySession => is_ret (SessionManager.destroy_session e m).1
  | SessionManager.SendCommand cmd => is_ret (SessionManager.send_command e cmd m).1
  | SessionManager.SendInput d => is_ret (SessionManager.send_input e d m).1
  | _ => true
  end.

(** C6 as the specification words it. *)
Definition every_mutating_call_persists : Prop :=
  ∀ e c m,
    mutating c = true → write_ok e = true → returns e c m = true →
    snapshot_written m (SessionManager.step e c m).


(** A terminal process as [start] leaves it. *)
Definition running_pty : PTYSession.t :=
  PTYSession.mk "ses_aa11bb22" "/srv/work/ses_aa11bb22" (Some 7) (Some 4242)
    true true.

(** C5 as the specification words it: an effective stop returns, has
    released the descriptor, and has sent a forced kill to a child that
    outlives the termination request. *)
Definition stop_escalates_after_grace : Prop :=
  ∀ c p cpid,
    PTYSession.running p = true → PTYSession.pid p = Some cpid → cpid ≠ 0 →
    (PTYSession.stop c p).1.1 = Ret ()
    ∧ PTYSession.master_fd (PTYSession.stop c p).1.2 = None
    ∧ (c = ChildIgnoresTerm → OsKill cpid SIGKILL ∈ (PTYSession.stop c p).2).

(** The named strategy after a successful [initialize], with a session
    created in this run. *)
Definition named_ready : Named.t * SessionManager.t :=
  ((Named.initialize env_ok (Named.new "cloude" None "dev.example.com")).2,
   created).

(** A world in which [cloudflared] cannot list or create the tunnel. *)
Definition env_no_cloudflared : Env :=
  mkEnv 1700000000 "/srv/work" "claude" "/home/dev" (λ p, p)
    (λ _, KillOk) true true true (Started 4242 7) true true ChildExitsOnTerm
    CnameCreated true (Raise (OSError "cloudflared")) None
    (Some 6161) (Some "https://blue-sky.trycloudflare.com") (λ _, false) false.

(** The façade as built at start-up with named tunnels configured. *)
Definition hybrid_named : Hybrid.t Named.t Quick.t :=
  Hybrid.new true true (Named.new "cloude" None "dev.example.com").

Section ServedByQuick.
Context {N Q : Type} `{NamedStrategy N} `{QuickStrategy Q}.

(** Every call on the façade in this state is a call on the quick
  manager [q] it holds; [initialize] does not try the named one. *)
Definition served_by_quick (w : Hybrid.world N Q) : Prop :=
Hybrid._is_named w.1 = false
∧ ∃ q,
    Hybrid.tunnel_manager w.1 = Hybrid.QuickM q
    ∧ (∀ e, Hybrid.initialize e w.1 = (Ret true, w.1))
    ∧ (∀ e port tid,
         Hybrid.create_tunnel e port tid w
         = let '(r, (q', sm')) := quick_create_tunnel e port tid (q, w.2) in
           (r, (Hybrid.with_manager (Hybrid.QuickM q') w.1, sm')))
    ∧ (∀ e tid,
         Hybrid.destroy_tunnel e tid w
         = let '(r, (q', sm')) := quick_destroy_tunnel e tid (q, w.2) in
           (r, (Hybrid.with_manager (Hybrid.QuickM q') w.1, sm')))
    ∧ (∀ e,
         Hybrid.destroy_all_tunnels e w
         = let '(q', sm') := quick_destroy_all_tunnels e (q, w.2) in
           (Ret (), (Hybrid.with_manager (Hybrid.QuickM q') w.1, sm')))
    ∧ (∀ e, Hybrid.shutdown e w = Hybrid.destroy_all_tunnels e w)
    ∧ (∀ e tid,
         Hybrid.health_check e tid w
         = let '(b, (q', sm')) := quick_health_check e tid (q, w.2) in
           (Ret b, (Hybrid.with_manager (Hybrid.QuickM q') w.1, sm')))
    ∧ (∀ tid, Hybrid.get_tunnel tid w.1 = Ret (quick_get_tunnel tid q))
    ∧ (∀ sid, Hybrid.get_tunnels_by_session sid w.1
              = Ret (quick_get_tunnels_by_session sid q))
    ∧ Hybrid.get_active_tunnels w.1 = Ret (quick_get_active_tunnels q).
End ServedByQuick.

(** A world in which the DNS API call fails. *)
Definition env_dns_down : Env :=
  mkEnv 1700000100 "/srv/work" "claude" "/home/dev" (λ p, p)
    (λ _, KillOk) true true true (Started 4242 7) true true ChildExitsOnTerm
    CnameRaises true (Ret (Some "0a1b2c3d")) (Some 5151)
    (Some 6161) (Some "https://blue-sky.trycloudflare.com") (λ _, false) false.

(** The façade in named mode after a successful [initialize], with a
    session created in this run. *)
Definition hybrid_ready : Hybrid.world Named.t Quick.t :=
  ((Hybrid.initialize env_ok hybrid_named).2, created).

(** The log monitor with the orchestrator's callbacks registered. *)
Definition monitor : LogMonitor.t AutoTunnel.handler :=
  AutoTunnel.initialize true LogMonitor.new.

(** The handler calls that a chunk of terminal output leads to, each
    handler running in the world [e]. *)
Definition scan (e : Env) (content : string)
  : list (Env * AutoTunnel.handler * PatternDetector.PatternMatch) :=
  map (λ hm, (e, hm.1, hm.2)) (LogMonitor._detect_patterns content monitor).

(** The ports for which a call was made, and those for which a call
    returned a tunnel, in the order of the record. *)
Definition issued_ports (log : list AutoTunnel.call_event) : list Z :=
  omap (λ ev, match ev with AutoTunnel.Issued p => Some p | _ => None end) log.

Definition created_ports (log : list AutoTunnel.call_event) : list Z :=
  omap (λ ev, match ev with
              | AutoTunnel.Returned p true => Some p
              | _ => None
              end) log.

(** No call is made for a port once a call for it has returned a tunnel. *)
Definition no_call_after_success (log : list AutoTunnel.call_event) : Prop :=
  ∀ l1 l2 p,
    log = l1 ++ AutoTunnel.Returned p true :: l2 → AutoTunnel.Issued p ∉ l2.

(** C2 as the specification words it, with the retry that it allows: a
    further call for a port is made only after a call for that port has
    failed. *)
Definition one_call_per_port_unless_failed
  (log : list AutoTunnel.call_event) : Prop :=
  ∀ l1 l2 l3 p,
    log = l1 ++ AutoTunnel.Issued p :: l2 ++ AutoTunnel.Issued p :: l3 →
    AutoTunnel.Returned p false ∈ l2.

(** The handler tasks that a chunk of terminal output starts, in the
    order in which [_detect_patterns] creates them. *)
Definition tasks_of (content : string) : list AutoTunnel.sched :=
  map (λ hm, AutoTunnel.Start hm.1 hm.2)
    (LogMonitor._detect_patterns content monitor).

(** The handled ports are those for which a call returned a tunnel, and
    no call follows such a return for the same port. *)
Definition calls_ok (a : AutoTunnel.t) : Prop :=
  (∀ p, p ∈ AutoTunnel._detected_ports a
        ↔ AutoTunnel.Returned p true ∈ AutoTunnel.create_calls a)
  ∧ no_call_after_success (AutoTunnel.create_calls a).

(** Two matches of port 3000 from one line, as [scan] finds them. *)
Definition match_localhost : PatternDetector.PatternMatch :=
  PatternDetector.mkPatternMatch "localhost_server" "http://localhost:3000"
    [Some "3000"; None; None; None] 0.

Definition match_listening : PatternDetector.PatternMatch :=
  PatternDetector.mkPatternMatch "listening_on_port"
    "running at http://localhost:3000" [Some "3000"] 0.

Definition tunnel_3000 (id : string) : Tunnel.t :=
  Tunnel.mk id "ses_aa11bb22" 3000 "https://blue-sky.trycloudflare.com"
    1700000000 T_ACTIVE (Some 6161).

(** What a [(\d+)] capture holds: a non-empty run of decimal digits. *)
Fixpoint all_digits (s : string) : bool :=
  match s with
  | EmptyString => true
  | String c s' => Re.is_digit c && all_digits s'
  end.

Definition cap_ok (g : option string) : Prop :=
  match g with
  | Some w => w ≠ "" ∧ all_digits w = true
  | None => True
  end.

(** Every capture group of the expression is [(\d+)]. *)
Fixpoint digit_groups (r : Re.regex) : bool :=
  match r with
  | Re.RGroup _ (Re.RSeq (Re.RChar Re.CDigit) (Re.RStar Re.CDigit)) => true
  | Re.RGroup _ _ => false
  | Re.RSeq a b | Re.RAlt a b => digit_groups a && digit_groups b
  | Re.ROpt a => digit_groups a
  | _ => true
  end.

(** Every group number has a slot among [len] captures. *)
Fixpoint groups_below (len : nat) (r : Re.regex) : bool :=
  match r with
  | Re.RGroup n a => bool_decide (Nat.pred n < len)%nat && groups_below len a
  | Re.RSeq a b | Re.RAlt a b => groups_below len a && groups_below len b
  | Re.ROpt a => groups_below len a
  | _ => true
  end.

(** Every way through the expression passes a capture group. *)
Fixpoint sets_group (r : Re.regex) : bool :=
  match r with
  | Re.RGroup _ _ => true
  | Re.RSeq a b => sets_group a || sets_group b
  | Re.RAlt a b => sets_group a && sets_group b
  | _ => false
  end.

(** A line that names a port of 4301 digits. *)
Definition long_port : string :=
  string_of_list_ascii (replicate 4301 "1"%char).

Definition long_port_line : string := "localhost:" +:+ long_port.

(** A record whose saved status is not Running, with a live pid. *)
Definition persisted_stopped : Session.t :=
  Session.mk "ses_0c0d0e0f" (Some 3131) "/srv/work/ses_0c0d0e0f" STOPPED
    1699990000 1699995000 [].

(** ** Stating the further properties *)

(** The names of the projects of a list, in order. *)
Definition project_names (ps : list Settings.project_entry) : list string :=
  omap (λ p, match Settings.pe_name p with
             | Settings.JStr n => Some n
             | _ => None
             end) ps.

(** The settings object with its cache dropped. *)
Definition uncached (s : Settings.t) : Settings.t :=
  Settings.mk (Settings.auth_config_file s) (Settings.totp_secret s)
    (Settings.jwt_secret s) None.

(** A configuration file with two projects, and the settings that read
    it. *)
Definition sample_config : Settings.config_json :=
  Settings.mkJson (Some 30) (Some "/srv/templates")
    (Some [ Settings.mkEntry (Settings.JStr "api") (Settings.JStr "/srv/api")
              Settings.JNull;
            Settings.mkEntry (Settings.JStr "web") (Settings.JStr "/srv/web")
              (Settings.JStr "front end") ])
    None.

Definition sample_settings : Settings.t :=
  Settings.mk (Settings.Config sample_config) (Some "JBSWY3DPEHPK3PXP")
    (Some "s3cr3t") None.

(** The project's path, resolved, is [working_path]. *)
Definition at_path (resolve : string → string) (working_path : string)
  (p : Settings.project_entry) : bool :=
  match Settings.pe_path p with
  | Settings.JStr pa => String.eqb (resolve pa) working_path
  | Settings.JAbsent => String.eqb (resolve "") working_path
  | Settings.JNull => false
  end.

(** The cached configuration, if any, is what reading the file gives. *)
Definition cache_fresh (s : Settings.t) : Prop :=
  ∀ c, Settings._auth_config_cache s = Some c →
       (Settings.load_auth_config (uncached s)).1 = Ret c.


Definition docs_project : Settings.ProjectConfig :=
  Settings.mkProject "docs" "/srv/docs" None.

(** A run of [add_log_entry] calls, each with its clock, and the entries
    they make for the session [s]. *)
Definition add_log_entries (log_buffer_size : Z)
  (adds : list (Env * string * string)) (m : SessionManager.t)
  : SessionManager.t :=
  foldl (λ m a, SessionManager.add_log_entry a.1.1 log_buffer_size a.1.2 a.2 m)
    m adds.

Definition log_entries (s : Session.t) (adds : list (Env * string * string))
  : list LogEntry :=
  map (λ a, mkLogEntry (now a.1.1) (Session.id s) a.1.2 a.2) adds.

(** The last [k] elements of a list. *)
Definition last_n {A} (k : nat) (l : list A) : list A := drop (length l - k) l.

(** The queue [q] exists and is not subscribed to the terminal output. *)
Definition detached (q : qref) (m : SessionManager.t) : Prop :=
  (q ∉ SessionManager._output_subscribers m)
  ∧ (q < qnext (SessionManager.queues m))%nat.

(** A check of a property of two bytes on every pair of them. *)
Definition below2 (P : N → N → bool) : bool :=
  forallb (λ x, forallb (P x) (map N.of_nat (seq 0 256)))
    (map N.of_nat (seq 0 256)).


(** The ingress rule that [_add_ingress_rule] writes for a port. *)
Definition port_rule (n : Named.t) (port : Z) : ingress_rule :=
  mkRule (Some (Named.port_hostname port n))
    ("http://127.0.0.1:" +:+ pretty port).

(** The configuration file lists the rule of the root domain, then one
    rule for each mapped port in the order the ports were mapped, then the
    catch-all rule; no port is mapped twice. *)
Definition ingress_ok (n : Named.t) : Prop :=
  NoDup (dict_keys (Named.tunnels n))
  ∧ ∃ cfg,
      Named.config_file n = Some cfg
      ∧ ingress cfg
        = mkRule (Some (Named.domain n)) "http://127.0.0.1:8000"
          :: map (port_rule n) (dict_keys (Named.tunnels n))
          ++ [mkRule None "http_status:404"].

(** The two dicts of the quick tunnel manager: a process is kept only
    under the id of a tunnel that is kept. *)
Definition quick_ok (q : Quick.t) : Prop :=
  NoDup (dict_keys (Quick.tunnels q))
  ∧ NoDup (dict_keys (Quick._tunnel_processes q))
  ∧ ∀ k, k ∈ dict_keys (Quick._tunnel_processes q) →
         k ∈ dict_keys (Quick.tunnels q).

(** *** The tunnel manager with its await *)

(** The objects that [self.tunnels] holds. *)
Definition on_record (st : TunnelManager.t) : list nat :=
  map snd (TunnelManager.tunnels st).

(** What every run of the manager keeps: the two dicts have distinct
    keys, a process is kept only under the id of a tunnel that is kept,
    the references are those of objects made, an object is on record
    under one id at most, and the object of a waiting call is not
    active. *)
Definition tm_ok (st : TunnelManager.t) : Prop :=
  NoDup (dict_keys (TunnelManager.tunnels st))
  ∧ NoDup (dict_keys (TunnelManager._tunnel_processes st))
  ∧ (∀ k, k ∈ dict_keys (TunnelManager._tunnel_processes st) →
          k ∈ dict_keys (TunnelManager.tunnels st))
  ∧ (∀ r, r ∈ on_record st → (r < length (TunnelManager.objects st))%nat)
  ∧ (∀ r, r ∈ TunnelManager.waiting st →
          (r < length (TunnelManager.objects st))%nat)
  ∧ NoDup (on_record st)
  ∧ (∀ r x, r ∈ TunnelManager.waiting st →
            TunnelManager.objects st !! r = Some x →
            Tunnel.status x ≠ T_ACTIVE).

(** The object [r] stands for its port: a call waits with it, or it is
    on record and active. *)
Definition claims (st : TunnelManager.t) (r : nat) : Prop :=
  r ∈ TunnelManager.waiting st
  ∨ (r ∈ on_record st
     ∧ ∃ x, TunnelManager.objects st !! r = Some x
            ∧ Tunnel.status x = T_ACTIVE).

Definition ports_ok (st : TunnelManager.t) : Prop :=
  ∀ r1 r2 x1 x2,
    claims st r1 → claims st r2 →
    TunnelManager.objects st !! r1 = Some x1 →
    TunnelManager.objects st !! r2 = Some x2 →
    Tunnel.port x1 = Tunnel.port x2 → r1 = r2.

(** A call of [create_tunnel] begins for a port while another call for
    that port waits for its URL. *)
Definition overlaps (c : TunnelManager.call) (st : TunnelManager.t) : bool :=
  match c with
  | TunnelManager.CreateBegin port _ =>
      existsb (λ r, match TunnelManager.objects st !! r with
                    | Some x => bool_decide (Tunnel.port x = port)
                    | None => false
                    end)
        (elements (TunnelManager.waiting st))
  | _ => false
  end.

(** No call of the run overlaps another for the same port. *)
Fixpoint no_overlap (cs : list (Env * SessionManager.t * TunnelManager.call))
  (st : TunnelManager.t) : bool :=
  match cs with
  | [] => true
  | (e, sm, c) :: rest =>
      negb (overlaps c st) && no_overlap rest (TunnelManager.step e sm c st)
  end.

(** The same world a second later, in which cloudflared starts with
    another pid and prints another URL. *)
Definition env_later : Env :=
  mkEnv 1700000001 (default_working_dir env_ok) (claude_cli_path env_ok)
    (home env_ok) (expanduser env_ok) (kill0 env_ok) (unlink_ok env_ok)
    (write_ok env_ok) (mkdir_ok env_ok) (spawn env_ok) (pty_write_ok env_ok)
    (ioctl_ok env_ok) (child env_ok) (cname env_ok) (config_write_ok env_ok)
    (cloudflared_tunnel env_ok) (cloudflared_run env_ok) (Some 6262)
    (Some "https://red-hill.trycloudflare.com") (poll_exited env_ok)
    (wait_times_out env_ok).

(** Two ports, one call after the other. *)
Definition calls_in_turn : list (Env * SessionManager.t * TunnelManager.call) :=
  [(env_ok, created, TunnelManager.CreateBegin 3000 None);
   (env_ok, created, TunnelManager.CreateFinish 0);
   (env_later, created, TunnelManager.CreateBegin 8080 None);
   (env_later, created, TunnelManager.CreateFinish 1)].

(** Two calls for port 3000, the second made while the first waits. *)
Definition calls_at_once : list (Env * SessionManager.t * TunnelManager.call) :=
  [(env_ok, created, TunnelManager.CreateBegin 3000 None);
   (env_later, created, TunnelManager.CreateBegin 3000 None);
   (env_ok, created, TunnelManager.CreateFinish 0);
   (env_later, created, TunnelManager.CreateFinish 1)].

(** [self.tunnels] with the objects in the place of their references. *)
Definition by_value (st : TunnelManager.t) : list (string * Tunnel.t) :=
  omap (λ kr, (λ x, (kr.1, x)) <$> TunnelManager.objects st !! kr.2)
    (TunnelManager.tunnels st).

(** * Properties *)

(** ** Queues and hubs *)

Section QueueFacts.
Context {A : Type}.

Lemma put_nowait_unbounded (x : A) (q : Queue.t A) :
Queue.maxsize q <= 0 →
Queue.put_nowait x q = Some (Queue.mk (Queue.maxsize q) (Queue.items q ++ [x])).
Proof.
intros Hm. unfold Queue.put_nowait, Queue.full.
destruct (Z.leb_spec (Queue.maxsize q) 0); [done | lia].
Qed.

Lemma put_or_drop_full (x : A) (q : Queue.t A) :
Queue.full q = true → put_or_drop x q = q.
Proof. intros Hf. unfold put_or_drop, Queue.put_nowait. by rewrite Hf. Qed.

Lemma put_or_drop_room (x : A) (q : Queue.t A) :
Queue.full q = false →
put_or_drop x q = Queue.mk (Queue.maxsize q) (Queue.items q ++ [x]).
Proof. intros Hf. unfold put_or_drop, Queue.put_nowait. by rewrite Hf. Qed.

Lemma broadcast_nowait_lookup (x : A) (subs : gset qref) (h : qheap A) (q : qref) :
qstore (broadcast_nowait x subs h) !! q
= if decide (q ∈ subs) then put_or_drop x <$> qstore h !! q
  else qstore h !! q.
Proof.
unfold broadcast_nowait; simpl. revert q.
pose (P := λ (st : gmap qref (Queue.t A)) (X : gset qref),
        ∀ q, st !! q = if decide (q ∈ X)
                       then put_or_drop x <$> qstore h !! q
                       else qstore h !! q).
change (P (set_fold (λ q st, alter (put_or_drop x) q st) (qstore h) subs) subs).
apply set_fold_ind_L; unfold P.
- intros q. rewrite decide_False; [done | set_solver].
- intros y X st Hy IH q.
  rewrite lookup_alter. destruct (decide (y = q)) as [->|Hne].
  + rewrite IH, decide_False by done.
    rewrite decide_True by set_solver. done.
  + rewrite IH. destruct (decide (q ∈ X)).
    * rewrite decide_True by set_solver. done.
    * rewrite decide_False by set_solver. done.
Qed.
End QueueFacts.

Lemma remove_first_subseteq q l x :
  x ∈ SessionManager.remove_first q l → x ∈ l.
Proof.
  induction l as [|y l IH]; simpl; [done |].
  destruct (decide (y = q)); [set_solver |].
  rewrite !elem_of_cons. naive_solver.
Qed.

Lemma remove_first_NoDup q l :
  NoDup l → NoDup (SessionManager.remove_first q l).
Proof.
  induction 1 as [|y l Hy Hl IH]; simpl; [constructor |].
  destruct (decide (y = q)); [done |].
  constructor; [| done]. intros Hin. by apply Hy, (remove_first_subseteq q).
Qed.

Lemma remove_first_NoDup_elem q l x :
  NoDup l → x ∈ SessionManager.remove_first q l ↔ x ∈ l ∧ x ≠ q.
Proof.
  induction 1 as [|y l Hy Hl IH]; simpl; [set_solver |].
  destruct (decide (y = q)) as [->|Hne].
  - rewrite elem_of_cons. split; [| naive_solver].
    intros Hx. split; [by right | congruence].
  - rewrite !elem_of_cons, IH. naive_solver.
Qed.

Lemma put_each_spec (x : string) (qs : list qref) (m : SessionManager.t) :
  NoDup qs →
  (∀ q, q ∈ qs → is_Some (qstore (SessionManager.queues m) !! q)) →
  (∀ q qu, qstore (SessionManager.queues m) !! q = Some qu → Queue.maxsize qu = 0) →
  ∃ st,
    SessionManager.put_each x qs m
    = (Ret (), SessionManager.set_queues (mkQheap st (qnext (SessionManager.queues m))) m)
    ∧ ∀ q, st !! q = if decide (q ∈ qs)
                     then push x <$> qstore (SessionManager.queues m) !! q
                     else qstore (SessionManager.queues m) !! q.
Proof.
  intros Hnd. revert m.
  induction Hnd as [|q qs Hq Hnd IH]; intros m Hin Hmax.
  - exists (qstore (SessionManager.queues m)). split; [by destruct m as [? ? ? ? ? []] |].
    intros q. destruct (decide (q ∈ [])) as [Hin'|]; [| done].
    by apply elem_of_nil in Hin'.
  - destruct (Hin q) as [qu Hqu]; [set_solver |].
    cbn [SessionManager.put_each].
    rewrite Hqu, put_nowait_unbounded by (rewrite (Hmax _ _ Hqu); lia).
    set (m1 := SessionManager.set_queues _ m).
    destruct (IH m1) as (st & Hrun & Hst).
    + intros q' Hq'. simpl. rewrite lookup_insert.
      case_decide; [eauto | apply Hin; set_solver].
    + intros q' qu'. simpl. rewrite lookup_insert.
      case_decide; [| apply Hmax].
      intros [= <-]. simpl. by eapply Hmax.
    + exists st. split; [rewrite Hrun; by destruct m |].
      intros q'. rewrite Hst. simpl. rewrite lookup_insert.
      destruct (decide (q = q')) as [<-|Hne].
      * rewrite decide_False by done. rewrite decide_True by set_solver.
        by rewrite Hqu.
      * destruct (decide (q' ∈ qs)).
        -- rewrite decide_True by set_solver. done.
        -- rewrite decide_False by set_solver. done.
Qed.

Lemma handle_pty_output_spec (data : bytes) (m : SessionManager.t) :
  hub_ok m →
  ∃ m',
    SessionManager._handle_pty_output data m = (Ret (), m')
    ∧ SessionManager._output_subscribers m' = SessionManager._output_subscribers m
    ∧ qnext (SessionManager.queues m') = qnext (SessionManager.queues m)
    ∧ SessionManager.session m' = SessionManager.session m
    ∧ SessionManager.pty m' = SessionManager.pty m
    ∧ ∀ q, qstore (SessionManager.queues m') !! q
           = if decide (q ∈ SessionManager._output_subscribers m)
             then push (b64encode data) <$> qstore (SessionManager.queues m) !! q
             else qstore (SessionManager.queues m) !! q.
Proof.
  intros (Hnd & Hin & Hmax).
  destruct (put_each_spec (b64encode data) _ m Hnd Hin) as (st & Hrun & Hst).
  { intros q qu Hq. by destruct (Hmax q qu Hq). }
  eexists. split; [exact Hrun |]. by destruct m.
Qed.

(** The session calls leave the queues alone; [destroy_session] empties
    the subscriber list, the others keep it. *)
Lemma create_session_queues e sid wd a ct m :
  let m' := (SessionManager.create_session e sid wd a ct m).2 in
  SessionManager.queues m' = SessionManager.queues m
  ∧ SessionManager._output_subscribers m' = SessionManager._output_subscribers m.
Proof. destruct m. sm_unfold. simpl. sm_cases. Qed.

Lemma destroy_session_queues e m :
  let m' := (SessionManager.destroy_session e m).2 in
  SessionManager.queues m' = SessionManager.queues m
  ∧ (SessionManager._output_subscribers m' = SessionManager._output_subscribers m
     ∨ SessionManager._output_subscribers m' = []).
Proof. destruct m. sm_unfold. simpl. sm_cases; auto. Qed.

Lemma send_command_queues e cmd m :
  let m' := (SessionManager.send_command e cmd m).2 in
  SessionManager.queues m' = SessionManager.queues m
  ∧ SessionManager._output_subscribers m' = SessionManager._output_subscribers m.
Proof. destruct m. sm_unfold. simpl. sm_cases. Qed.

Lemma send_input_queues e d m :
  let m' := (SessionManager.send_input e d m).2 in
  SessionManager.queues m' = SessionManager.queues m
  ∧ SessionManager._output_subscribers m' = SessionManager._output_subscribers m.
Proof. destruct m. sm_unfold. simpl. sm_cases. Qed.

Lemma resize_terminal_queues e cols rows m :
  let m' := SessionManager.resize_terminal e cols rows m in
  SessionManager.queues m' = SessionManager.queues m
  ∧ SessionManager._output_subscribers m' = SessionManager._output_subscribers m.
Proof. destruct m. sm_unfold. simpl. sm_cases. Qed.

Lemma hub_ok_frame m m' :
  SessionManager.queues m' = SessionManager.queues m →
  SessionManager._output_subscribers m' = SessionManager._output_subscribers m
  ∨ SessionManager._output_subscribers m' = [] →
  hub_ok m → hub_ok m'.
Proof.
  intros Hq Hs (Hnd & Hin & Hmax). unfold hub_ok. rewrite Hq.
  destruct Hs as [-> | ->]; [done |].
  split_and!; [constructor | | done]. intros q Hq'. by apply elem_of_nil in Hq'.
Qed.

Lemma hub_ok_subscribe m : hub_ok m → hub_ok (SessionManager.subscribe_output m).2.
Proof.
  intros (Hnd & Hin & Hmax). unfold SessionManager.subscribe_output, qalloc.
  destruct m as [s p lb cc subs [st nx] md ef]; simpl in *.
  assert (Hfresh : st !! nx = None).
  { destruct (st !! nx) as [qu|] eqn:Hl; [| done].
    destruct (Hmax _ _ Hl). lia. }
  split_and!; simpl.
  - apply NoDup_app. split_and!; [done | | apply NoDup_singleton].
    intros q Hq ->%list_elem_of_singleton.
    destruct (Hin _ Hq) as [qu Hqu]. congruence.
  - intros q [Hq | ->%list_elem_of_singleton]%elem_of_app.
    + rewrite lookup_insert. case_decide; [eauto | by apply Hin].
    + rewrite lookup_insert_eq. eauto.
  - intros q qu. rewrite lookup_insert. case_decide.
    + intros [= <-]. subst. simpl. lia.
    + intros Hl. destruct (Hmax _ _ Hl). lia.
Qed.

Lemma hub_ok_unsubscribe q m :
  hub_ok m → hub_ok (SessionManager.unsubscribe_output q m).
Proof.
  intros (Hnd & Hin & Hmax). destruct m; simpl in *.
  split_and!; simpl; [by apply remove_first_NoDup | | done].
  intros q' Hq'. by apply Hin, (remove_first_subseteq q).
Qed.

Lemma hub_ok_consume q m : hub_ok m → hub_ok (SessionManager.consume q m).2.
Proof.
  intros (Hnd & Hin & Hmax). unfold SessionManager.consume.
  destruct (qstore (SessionManager.queues m) !! q) as [qu|] eqn:Hqu; [| done].
  unfold Queue.get_nowait. destruct (Queue.items qu) as [|x rest]; [done |].
  destruct m as [s p lb cc subs [st nx] md ef]; simpl in *.
  split_and!; simpl; [done | |].
  - intros q' Hq'. rewrite lookup_insert. case_decide; [eauto | by apply Hin].
  - intros q' qu'. rewrite lookup_insert. case_decide; [| apply Hmax].
    intros [= <-]. subst. simpl. by eapply Hmax.
Qed.

Lemma hub_ok_output data m :
  hub_ok m → hub_ok (SessionManager._handle_pty_output data m).2.
Proof.
  intros Hok. destruct (handle_pty_output_spec data m Hok)
    as (m' & -> & Hs & Hn & _ & _ & Hst).
  destruct Hok as (Hnd & Hin & Hmax). unfold hub_ok. simpl. rewrite Hs, Hn.
  split_and!; [done | |].
  - intros q Hq. rewrite Hst, decide_True by done.
    destruct (Hin q Hq) as [qu ->]. eauto.
  - intros q qu. rewrite Hst. case_decide; [| apply Hmax].
    intros (qu0 & Hl & ->)%fmap_Some. simpl. by eapply Hmax.
Qed.

Lemma hub_ok_step e c m : hub_ok m → hub_ok (SessionManager.step e c m).
Proof.
  intros Hok. destruct c; simpl.
  - destruct (create_session_queues e session_id working_dir
                auto_start_claude copy_templates m) as [Hq Hs].
    eapply hub_ok_frame; eauto.
  - destruct (destroy_session_queues e m) as [Hq Hs]. eapply hub_ok_frame; eauto.
  - destruct (send_command_queues e command m) as [Hq Hs].
    eapply hub_ok_frame; eauto.
  - destruct (send_input_queues e data m) as [Hq Hs]. eapply hub_ok_frame; eauto.
  - destruct (resize_terminal_queues e cols rows m) as [Hq Hs].
    eapply hub_ok_frame; eauto.
  - by apply hub_ok_subscribe.
  - by apply hub_ok_unsubscribe.
  - by apply hub_ok_output.
  - by apply hub_ok_consume.
  - by destruct m.
Qed.

Lemma hub_ok_init e disk : hub_ok (SessionManager.init e disk).
Proof.
  unfold SessionManager.init, SessionManager._load_session_metadata.
  sm_unfold. simpl.
  assert (Hbase : ∀ s md ef, hub_ok (SessionManager.mk s None [] 0 [] qheap_empty md ef)).
  { intros. split_and!; simpl; [constructor | | ].
    - intros q Hq. by apply elem_of_nil in Hq.
    - intros q qu Hl. by rewrite lookup_empty in Hl. }
  sm_cases; apply Hbase.
Qed.

Lemma hub_ok_run cs m : hub_ok m → hub_ok (SessionManager.run cs m).
Proof.
  revert m. induction cs as [|[e c] cs IH]; intros m Hok; simpl; [done |].
  by apply IH, hub_ok_step.
Qed.

Lemma broadcast_log_lookup {H} now content log_type (m : LogMonitor.t H) q :
  qstore (LogMonitor.queues (LogMonitor._broadcast_log now content log_type m)) !! q
  = if decide (q ∈ LogMonitor._subscribers m)
    then put_or_drop (mkWSLogMessage now content log_type)
           <$> qstore (LogMonitor.queues m) !! q
    else qstore (LogMonitor.queues m) !! q.
Proof.
  unfold LogMonitor._broadcast_log.
  destruct (decide (LogMonitor._subscribers m = ∅)) as [He|Hne]; simpl.
  - rewrite decide_False; [done | rewrite He; set_solver].
  - apply broadcast_nowait_lookup.
Qed.

Lemma broadcast_log_subscribers {H} now content log_type (m : LogMonitor.t H) :
  LogMonitor._subscribers (LogMonitor._broadcast_log now content log_type m)
  = LogMonitor._subscribers m.
Proof. unfold LogMonitor._broadcast_log. by case_decide. Qed.

Lemma log_hub_ok_step {H} (c : LogMonitor.call) (m : LogMonitor.t H) :
  log_hub_ok m → log_hub_ok (LogMonitor.step c m).
Proof.
  intros [Hin Hlt]. destruct c as [|q0|now content lt|q0]; simpl.
  - unfold LogMonitor.subscribe, qalloc. split; simpl.
    + intros q Hq. rewrite lookup_insert. case_decide; [eauto |].
      apply Hin. set_solver.
    + intros q. rewrite lookup_insert. case_decide; [lia |].
      intros Hq. specialize (Hlt q Hq). lia.
  - split; [| done]. intros q Hq. apply Hin. simpl in Hq. set_solver.
  - split.
    + intros q. rewrite broadcast_log_subscribers, broadcast_log_lookup.
      intros Hq. rewrite decide_True by done.
      destruct (Hin q Hq) as [qu ->]. eauto.
    + intros q. rewrite broadcast_log_lookup.
      unfold LogMonitor._broadcast_log. case_decide; simpl;
        case_decide; rewrite ?fmap_is_Some; apply Hlt.
  - unfold LogMonitor.consume.
    destruct (qstore (LogMonitor.queues m) !! q0) as [qu|] eqn:Hqu; [| done].
    destruct (Queue.get_nowait qu) as [[x qu']|]; [| done]. split; simpl.
    + intros q Hq. rewrite lookup_insert. case_decide; [eauto | by apply Hin].
    + intros q. rewrite lookup_insert. case_decide; [| apply Hlt].
      intros _. subst. apply Hlt. eauto.
Qed.

Lemma log_hub_ok_run {H} (cs : list LogMonitor.call) (m : LogMonitor.t H) :
  log_hub_ok m → log_hub_ok (LogMonitor.run cs m).
Proof.
  revert m. induction cs as [|c cs IH]; intros m Hok; [done |].
  apply IH. by apply log_hub_ok_step.
Qed.

(** C3.  Take either hub after any sequence of calls, subscribe and
    unsubscribe among them.  [subscribe] adds one queue that was not
    subscribed, new and empty; [unsubscribe] removes the queue it is given
    and no other.  A broadcast then reaches exactly the queues subscribed
    at that moment: the terminal-output hub puts the encoded chunk on every
    subscribed queue and returns (its queues are unbounded, so the awaited
    put never waits); the log hub puts the message on every subscribed
    queue that has room and leaves a full one as it is.  A queue that is
    not subscribed is not touched, and the subscriber set is unchanged. *)
Theorem broadcast_reaches_exactly_the_subscribers :
  (∀ e disk cs,
     let m := SessionManager.run cs (SessionManager.init e disk) in
     let subs := SessionManager._output_subscribers in
     let store m := qstore (SessionManager.queues m) in
     (let out := SessionManager.subscribe_output m in
      (out.1 ∉ subs m) ∧ subs out.2 = subs m ++ [out.1]
      ∧ store out.2 !! out.1 = Some (Queue.new 0))
     ∧ (∀ q x, x ∈ subs (SessionManager.unsubscribe_output q m)
               ↔ x ∈ subs m ∧ x ≠ q)
     ∧ ∀ data, ∃ m',
         SessionManager._handle_pty_output data m = (Ret (), m')
         ∧ subs m' = subs m
         ∧ (∀ q, q ∈ subs m →
                 ∃ qu, store m !! q = Some qu
                       ∧ Queue.full qu = false
                       ∧ store m' !! q = Some (push (b64encode data) qu))
         ∧ (∀ q, q ∉ subs m → store m' !! q = store m !! q))
  ∧ (∀ (cs : list LogMonitor.call),
       let m := LogMonitor.run cs (LogMonitor.new (H:=AutoTunnel.handler)) in
       let subs := LogMonitor._subscribers in
       let store (m : LogMonitor.t AutoTunnel.handler) :=
         qstore (LogMonitor.queues m) in
       (let out := LogMonitor.subscribe m in
        (out.1 ∉ subs m) ∧ subs out.2 = {[out.1]} ∪ subs m
        ∧ store out.2 !! out.1 = Some (Queue.new 100))
       ∧ (∀ q, subs (LogMonitor.unsubscribe q m) = subs m ∖ {[q]})
       ∧ ∀ now content log_type,
           let m' := LogMonitor._broadcast_log now content log_type m in
           let msg := mkWSLogMessage now content log_type in
           subs m' = subs m
           ∧ (∀ q, q ∈ subs m →
                   ∃ qu, store m !! q = Some qu
                         ∧ store m' !! q
                           = Some (if Queue.full qu then qu else push msg qu))
           ∧ (∀ q, q ∉ subs m → store m' !! q = store m !! q)).
Proof.
  split.
  - intros e disk cs m subs store.
    assert (Hok : hub_ok m) by apply hub_ok_run, hub_ok_init.
    split_and!.
    + destruct Hok as (Hnd & Hin & Hmax).
      unfold SessionManager.subscribe_output, qalloc, subs, store. simpl.
      split_and!; [| done | by rewrite lookup_insert_eq].
      intros Hq. destruct (Hin _ Hq) as [qu Hqu].
      destruct (Hmax _ _ Hqu). lia.
    + intros q x. destruct Hok as (Hnd & _).
      by apply remove_first_NoDup_elem.
    + intros data.
      destruct (handle_pty_output_spec data m Hok)
        as (m' & Hrun & Hs & _ & _ & _ & Hst).
      exists m'. split_and!; [done | done | |].
      * intros q Hq. destruct Hok as (_ & Hin & Hmax).
        destruct (Hin q Hq) as [qu Hqu]. exists qu. split_and!; [done | |].
        -- destruct (Hmax q qu Hqu) as [Hz _]. unfold Queue.full. by rewrite Hz.
        -- unfold store. rewrite Hst, decide_True by done.
           unfold store in Hqu. by rewrite Hqu.
      * intros q Hq. unfold store. by rewrite Hst, decide_False.
  - intros cs m subs store.
    assert (Hok : log_hub_ok m).
    { apply log_hub_ok_run. split; intros q; simpl.
      - set_solver.
      - rewrite lookup_empty. by intros [? ?]. }
    destruct Hok as [Hin Hlt]. split_and!.
    + unfold LogMonitor.subscribe, qalloc, subs, store. simpl.
      split_and!; [| done | by rewrite lookup_insert_eq].
      intros Hq. specialize (Hlt _ (Hin _ Hq)). lia.
    + done.
    + intros now content log_type m' msg. split_and!.
      * apply broadcast_log_subscribers.
      * intros q Hq. destruct (Hin q Hq) as [qu Hqu]. exists qu. split; [done |].
        unfold m', store. rewrite broadcast_log_lookup, decide_True by done.
        unfold store in Hqu. rewrite Hqu. simpl.
        f_equal. destruct (Queue.full qu) eqn:Hf.
        -- by apply put_or_drop_full.
        -- by apply put_or_drop_room.
      * intros q Hq. unfold m', store.
        by rewrite broadcast_log_lookup, decide_False.
Qed.

Lemma broadcast_reaches_exactly_the_subscribers_witness :
  ∃ m',
    SessionManager._handle_pty_output [Byte.x68; Byte.x69]
      (SessionManager.run
         [(env_ok, SessionManager.SubscribeOutput);
          (env_ok, SessionManager.SubscribeOutput);
          (env_ok, SessionManager.UnsubscribeOutput 0%nat)]
         (SessionManager.init env_ok NoFile))
    = (Ret (), m')
    ∧ qstore (SessionManager.queues m') !! 1%nat = Some (Queue.mk 0 ["aGk="])
    ∧ qstore (SessionManager.queues m') !! 0%nat = Some (Queue.mk 0 []).
Proof.
  destruct broadcast_reaches_exactly_the_subscribers as [Hpty _].
  destruct (Hpty env_ok NoFile
              [(env_ok, SessionManager.SubscribeOutput);
               (env_ok, SessionManager.SubscribeOutput);
               (env_ok, SessionManager.UnsubscribeOutput 0%nat)])
    as (_ & _ & Hout).
  destruct (Hout [Byte.x68; Byte.x69]) as (m' & Hrun & _ & Hin & Hnot).
  cbv beta in Hin, Hnot.
  exists m'. split_and!; [exact Hrun | |].
  - destruct (Hin 1%nat) as (qu & Hqu & _ & Hq1); [vm_compute; left |].
    refine (eq_trans Hq1 _). vm_compute in Hqu. by injection Hqu as <-.
  - refine (eq_trans (Hnot 0%nat _) _); [| reflexivity].
    change (0%nat ∉ [1%nat]). by intros [=]%list_elem_of_singleton.
Defined.

(** ** The session registry *)

(** C4.  Start-up with a persisted record that names a process id: when
    the probe of that id says the process is gone (or not ours to signal),
    the record is dropped, no session is active, and the file is removed
    (it stays only if the removal itself fails); when the probe succeeds,
    the recorded session is restored with status Running. *)
Theorem startup_restores_or_discards (e : Env) (s : Session.t) (pid : Z) :
  Session.pty_pid s = Some pid → pid ≠ 0 →
  let m := SessionManager.init e (Saved s) in
  (kill0 e pid = KillProcessLookupError ∨ kill0 e pid = KillPermissionError →
   SessionManager.session m = None
   ∧ SessionManager.has_active_session m = false
   ∧ SessionManager.metadata_file m = if unlink_ok e then NoFile else Saved s)
  ∧ (kill0 e pid = KillOk →
     SessionManager.session m = Some (Session.set_status RUNNING s)
     ∧ Session.status (Session.set_status RUNNING s) = RUNNING
     ∧ SessionManager.metadata_file m = Saved s).
Proof.
  intros Hpid Hnz m. subst m.
  unfold SessionManager.init, SessionManager._load_session_metadata. simpl.
  rewrite Hpid. simpl.
  destruct (Z.eqb_spec pid 0) as [|_]; [done |]. simpl.
  split.
  - intros [-> | ->]; unfold SessionManager.unlink; simpl;
      destruct (unlink_ok e); done.
  - intros ->. done.
Qed.

Lemma startup_restores_or_discards_witness :
  SessionManager.session
    (SessionManager.init (with_kill0 (λ _, KillProcessLookupError) env_ok)
       (Saved persisted_session)) = None
  ∧ SessionManager.session (SessionManager.init env_ok (Saved persisted_session))
    = Some (Session.set_status RUNNING persisted_session).
Proof.
  split.
  - apply (startup_restores_or_discards
             (with_kill0 (λ _, KillProcessLookupError) env_ok)
             persisted_session 3131); [reflexivity | lia | left; reflexivity].
  - apply (startup_restores_or_discards env_ok persisted_session 3131);
      [reflexivity | lia | reflexivity].
Defined.

(** C1, counterexample.  After a restart that found the recorded pid
    alive the registry holds a session with status Running, and
    [create_session] neither fails nor keeps it. *)
Lemma running_session_blocks_create_fails : ¬ running_session_blocks_create.
Proof.
  intros Hclaim.
  specialize (Hclaim env_ok "ses_aa11bb22" None true false restored
                (Session.set_status RUNNING persisted_session)
                eq_refl eq_refl).
  vm_compute in Hclaim. discriminate Hclaim.
Qed.

(** C1, as the code has it.  [create_session] is refused exactly when
    [has_active_session] holds, that is when the registry holds a session
    with status Running together with a terminal process object; the
    refused call changes nothing.  Otherwise the call is not refused on
    this ground, and when it returns a session, that session is Running and
    is the one the registry holds. *)
Theorem create_session_refused_iff_active (e : Env) (sid : string)
  (wd : option string) (a ct : bool) (m : SessionManager.t) :
  (SessionManager.has_active_session m = true →
   SessionManager.create_session e sid wd a ct m
   = (Raise SessionManager.already_running, m))
  ∧ (SessionManager.has_active_session m = false →
     (SessionManager.create_session e sid wd a ct m).1
     ≠ Raise SessionManager.already_running
     ∧ ∀ s m', SessionManager.create_session e sid wd a ct m = (Ret s, m') →
               SessionManager.session m' = Some s
               ∧ Session.status s = RUNNING
               ∧ Session.id s = sid
               ∧ SessionManager.has_active_session m' = true).
Proof.
  split; intros Hact; unfold SessionManager.create_session; rewrite Hact;
    [done |].
  destruct (mkdir_ok e); simpl; [| by split].
  unfold PTYSession.start, PTYSession.new; simpl.
  destruct (spawn e); simpl; (split; [discriminate |]); intros s m' [= <- <-].
  unfold SessionManager._save_session_metadata. simpl.
  destruct (write_ok e); simpl; done.
Qed.

Lemma create_session_refused_iff_active_witness :
  SessionManager.create_session env_ok "ses_cc33dd44" None true false created
  = (Raise SessionManager.already_running, created)
  ∧ (SessionManager.create_session env_ok "ses_cc33dd44" None true false
       restored).1 ≠ Raise SessionManager.already_running.
Proof.
  split.
  - apply (create_session_refused_iff_active env_ok "ses_cc33dd44" None true
             false created). reflexivity.
  - apply (create_session_refused_iff_active env_ok "ses_cc33dd44" None true
             false restored). reflexivity.
Defined.

(** C10.  A session restored at start-up from a live pid has status
    Running, whatever status the record was saved with, and no terminal
    process object, so [has_active_session] is false for it.  A [create_session] that follows is not refused: it
    forgets the restored session and removes its metadata file; when the
    terminal starts, the registry holds the new session and the file holds
    its snapshot; when the terminal does not start, the call fails for that
    reason and neither a session nor a file is left. *)
Theorem restored_session_is_replaced (e0 e : Env) (s : Session.t) (pid : Z)
  (sid : string) (wd : option string) (a ct : bool) :
  Session.pty_pid s = Some pid → pid ≠ 0 → kill0 e0 pid = KillOk →
  let m := SessionManager.init e0 (Saved s) in
  let out := SessionManager.create_session e sid wd a ct m in
  SessionManager.session m = Some (Session.set_status RUNNING s)
  ∧ Session.status <$> SessionManager.session m = Some RUNNING
  ∧ Session.id <$> SessionManager.session m = Some (Session.id s)
  ∧ SessionManager.pty m = None
  ∧ SessionManager.has_active_session m = false
  ∧ out.1 ≠ Raise SessionManager.already_running
  ∧ (unlink_ok e = true → mkdir_ok e = true →
     (∀ cpid fd, spawn e = Started cpid fd →
        ∃ new pre,
          out.1 = Ret new
          ∧ SessionManager.session out.2 = Some new
          ∧ Session.id new = sid ∧ Session.pty_pid new = Some cpid
          ∧ Session.status new = RUNNING
          ∧ SessionManager.effects out.2
            = FsUnlinkMetadata :: pre
              ++ (if write_ok e then [FsWriteMetadata new] else [])
          ∧ SessionManager.metadata_file out.2
            = if write_ok e then Saved new else NoFile)
     ∧ (spawn e = ForkFails →
        (∃ msg, out.1 = Raise (ValueError ("Failed to create session: " +:+ msg)))
        ∧ SessionManager.session out.2 = None
        ∧ SessionManager.metadata_file out.2 = NoFile)).
Proof.
  intros Hpid Hnz Hlive m out. subst out m.
  unfold SessionManager.init, SessionManager._load_session_metadata. simpl.
  rewrite Hpid. simpl. destruct (Z.eqb_spec pid 0) as [|_]; [done |]. simpl.
  rewrite Hlive.
  unfold SessionManager.create_session, SessionManager.has_active_session,
    SessionManager.unlink, SessionManager.exists_metadata. simpl.
  split_and!; try done.
  - destruct (unlink_ok e), (mkdir_ok e), (spawn e); simpl; discriminate.
  - intros -> ->. simpl. split.
    + intros cpid fd ->. simpl.
      unfold SessionManager._save_session_metadata. simpl.
      destruct (write_ok e); simpl; eexists _, [_; _; _]; split_and!; done.
    + intros ->. simpl. split_and!; eauto.
Qed.

Lemma restored_session_is_replaced_witness :
  Session.status persisted_stopped = STOPPED
  ∧ Session.status
      <$> SessionManager.session (SessionManager.init env_ok (Saved persisted_stopped))
    = Some RUNNING
  ∧ SessionManager.has_active_session
      (SessionManager.init env_ok (Saved persisted_stopped)) = false
  ∧ (SessionManager.create_session env_ok "ses_aa11bb22" None true false
       (SessionManager.init env_ok (Saved persisted_stopped))).1
    ≠ Raise SessionManager.already_running.
Proof.
  pose proof (restored_session_is_replaced env_ok env_ok persisted_stopped 3131
                "ses_aa11bb22" None true false eq_refl) as H.
  destruct H as (_ & Hst & _ & _ & Hact & Hnot & _); [lia | reflexivity |].
  split_and!; [reflexivity | exact Hst | exact Hact | exact Hnot].
Defined.

(** C6, counterexample.  With every write to storage succeeding:
    [destroy_session] returns with no snapshot on disk, [send_input]
    returns with the file still holding the earlier snapshot, and
    [resize_terminal] writes nothing. *)
Lemma every_mutating_call_persists_fails :
  ¬ snapshot_written created
      (SessionManager.step env_ok SessionManager.DestroySession created)
  ∧ ¬ snapshot_written created
        (SessionManager.step (with_now 1700000060 env_ok)
           (SessionManager.SendInput "ls") created)
  ∧ ¬ snapshot_written created
        (SessionManager.step env_ok (SessionManager.ResizeTerminal 100 40) created)
  ∧ ¬ every_mutating_call_persists.
Proof.
  assert (H1 : ¬ snapshot_written created
                 (SessionManager.step env_ok SessionManager.DestroySession created)).
  { intros (s & pre & Hs & _). vm_compute in Hs. discriminate Hs. }
  split_and!; [exact H1 | | |].
  - intros (s & pre & Hs & Hf & _). vm_compute in Hs, Hf. congruence.
  - intros (s & pre & _ & _ & He).
    change (SessionManager.effects
              (SessionManager.step env_ok (SessionManager.ResizeTerminal 100 40)
                 created))
      with (SessionManager.effects created
            ++ [OsWinsize 7 40 100; OsKill 4242 SIGWINCH]) in He.
    apply app_inv_head in He.
    destruct pre as [|? [|? [|? ?]]]; simplify_eq/=.
  - intros Hclaim. apply H1. by apply Hclaim.
Qed.

Lemma snapshot_written_intro m m' s l pre :
  SessionManager.session m' = Some s →
  SessionManager.metadata_file m' = Saved s →
  SessionManager.effects m' = l ++ [FsWriteMetadata s] →
  l = SessionManager.effects m ++ pre →
  snapshot_written m m'.
Proof. intros Hs Hf He ->. exists s, pre. by rewrite app_assoc. Qed.

(** C6, as the code has it.  A [create_session] and a [send_command] that
    return have written the snapshot of the session they leave behind
    (the write to storage succeeding); a [destroy_session] that returns
    leaves no session and no metadata file; [resize_terminal] changes
    neither the session record nor the file and writes nothing. *)
Theorem mutating_calls_and_storage (e : Env) (m : SessionManager.t) :
  (∀ sid wd a ct s m',
     write_ok e = true →
     SessionManager.create_session e sid wd a ct m = (Ret s, m') →
     snapshot_written m m')
  ∧ (∀ cmd b m',
       write_ok e = true →
       SessionManager.send_command e cmd m = (Ret b, m') →
       snapshot_written m m'
       ∧ SessionManager.command_count m' = SessionManager.command_count m + 1
       ∧ Session.last_activity <$> SessionManager.session m' = Some (now e))
  ∧ (∀ b m',
       SessionManager.destroy_session e m = (Ret b, m') →
       SessionManager.session m' = None
       ∧ SessionManager.metadata_file m' = NoFile)
  ∧ (∀ cols rows,
       let m' := SessionManager.resize_terminal e cols rows m in
       SessionManager.session m' = SessionManager.session m
       ∧ SessionManager.metadata_file m' = SessionManager.metadata_file m
       ∧ ∃ extra, SessionManager.effects m' = SessionManager.effects m ++ extra
                  ∧ ∀ s, FsWriteMetadata s ∉ extra).
Proof.
  split_and!.
  - intros sid wd a ct s m' Hw. unfold SessionManager.create_session.
    destruct (SessionManager.has_active_session m); [done |].
    destruct (mkdir_ok e); simpl; [| done].
    unfold PTYSession.start, PTYSession.new; simpl.
    destruct (spawn e); simpl; intros [= <- <-].
    unfold SessionManager._save_session_metadata. simpl. rewrite Hw.
    unfold SessionManager.exists_metadata, SessionManager.unlink,
      SessionManager.exists_metadata; simpl.
    destruct (SessionManager.session m), (SessionManager.metadata_file m),
      (unlink_ok e); simpl;
      (eapply snapshot_written_intro;
       [reflexivity | reflexivity | reflexivity |]); simpl;
      rewrite <- ?(app_assoc (SessionManager.effects m)); reflexivity.
  - intros cmd b m' Hw. unfold SessionManager.send_command.
    destruct (SessionManager.session m) as [s|]; [| done].
    destruct (bool_decide (Session.status s = RUNNING)); simpl; [| done].
    destruct (SessionManager.pty m) as [p|]; [| done].
    unfold PTYSession.send_command, PTYSession.write.
    destruct (PTYSession.running p), (PTYSession.master_fd p),
      (pty_write_ok e); simpl; try done.
    intros [= <- <-]. unfold SessionManager._save_session_metadata. simpl.
    rewrite Hw. simpl. split_and!; [| done | done].
    eapply snapshot_written_intro; reflexivity.
  - intros b m'. unfold SessionManager.destroy_session.
    destruct m as [[s|] [p|] lb cc subs qs md ef]; simpl; try done.
    + destruct (PTYSession.stop (child e) p) as [[r p'] effs].
      destruct r; [| done | done].
      unfold SessionManager.exists_metadata, SessionManager.unlink,
        SessionManager.exists_metadata; simpl.
      destruct md, (unlink_ok e); simpl; intros [= <- <-]; done.
    + unfold SessionManager.exists_metadata, SessionManager.unlink,
        SessionManager.exists_metadata; simpl.
      destruct md, (unlink_ok e); simpl; intros [= <- <-]; done.
  - intros cols rows m'. subst m'. unfold SessionManager.resize_terminal.
    destruct (SessionManager.pty m) as [p|]; simpl.
    + split_and!; [done | done |]. eexists. split; [done |].
      intros s. unfold PTYSession.resize, PTYSession._set_terminal_size.
      repeat case_match; simplify_eq/=; set_solver.
    + split_and!; [done | done |]. exists []. split; [by rewrite app_nil_r |].
      set_solver.
Qed.

Lemma mutating_calls_and_storage_witness :
  snapshot_written created
    (SessionManager.send_command (with_now 1700000060 env_ok) "make test"
       created).2.
Proof.
  destruct (mutating_calls_and_storage (with_now 1700000060 env_ok) created)
    as (_ & Hsend & _).
  refine (proj1 (Hsend "make test" true _ eq_refl _)).
  vm_compute. reflexivity.
Defined.

(** ** The terminal process *)

(** C5.  The code at a child that keeps running after SIGTERM (an
    interactive shell does): [stop] sends SIGTERM and waits for the child
    with no time limit, so it never returns; no SIGKILL is sent and the
    descriptor stays open.  The specification's sentence, that an effective
    stop escalates after a bounded grace period and then releases the
    descriptor, does not hold of it. *)
Theorem stop_waits_without_bound :
  PTYSession.stop ChildIgnoresTerm running_pty
  = (Blocked,
     PTYSession.mk "ses_aa11bb22" "/srv/work/ses_aa11bb22" (Some 7) (Some 4242)
       false true,
     [ReaderCancelled; OsKill 4242 SIGTERM; OsWaitpid 4242])
  ∧ ¬ stop_escalates_after_grace.
Proof.
  split; [reflexivity |].
  intros Hclaim.
  destruct (Hclaim ChildIgnoresTerm running_pty 4242 eq_refl eq_refl)
    as (Hret & _); [lia |].
  vm_compute in Hret. discriminate Hret.
Qed.

(** What [stop] does in every case.  On a session that is not running it
    does nothing, so a second [stop] is a no-op.  An effective [stop]
    marks the session stopped and sends SIGTERM to the child; the only
    signal it ever sends is SIGTERM.  When the child exits on it, or was
    already gone, the call returns with the descriptor closed, the close
    being its last action; when the child keeps running the call waits for
    ever with the descriptor still open. *)
Lemma stop_is_idempotent_and_waits (c : child_state) (p : PTYSession.t) :
  let out := PTYSession.stop c p in
  (PTYSession.running p = false → out = (Ret (), p, []))
  ∧ (∀ c', PTYSession.stop c' out.1.2 = (Ret (), out.1.2, []))
  ∧ (PTYSession.running p = true →
     PTYSession.running out.1.2 = false
     ∧ (∀ cpid sig, OsKill cpid sig ∈ out.2 →
                    sig = SIGTERM ∧ PTYSession.pid p = Some cpid)
     ∧ (∀ cpid, PTYSession.pid p = Some cpid → cpid ≠ 0 →
                OsKill cpid SIGTERM ∈ out.2
                ∧ (c = ChildIgnoresTerm →
                   out.1.1 = Blocked
                   ∧ PTYSession.master_fd out.1.2 = PTYSession.master_fd p
                   ∧ ∀ fd, OsClose fd ∉ out.2))
     ∧ (c ≠ ChildIgnoresTerm ∨ truthy_Z (PTYSession.pid p) = false →
        out.1.1 = Ret ()
        ∧ PTYSession.master_fd out.1.2 = None
        ∧ ∀ fd, PTYSession.master_fd p = Some fd →
                last out.2 = Some (OsClose fd))).
Proof.
  destruct p as [sid wd fd pid running reader].
  unfold PTYSession.stop; simpl.
  split_and!.
  - by intros ->.
  - intros c'. destruct running; simpl; [| done].
    destruct pid as [cpid|]; simpl; [| done].
    destruct (cpid =? 0); simpl; [done |]. by destruct c.
  - intros ->. simpl.
    destruct pid as [cpid|]; simpl.
    + destruct (Z.eqb_spec cpid 0) as [->|Hnz]; simpl.
      * split_and!; [done | | | ].
        -- intros cpid' sig. destruct reader, fd; simpl; set_solver.
        -- intros cpid' [= <-] ?. done.
        -- intros _. split_and!; [done | done |].
           intros fd' ->. by destruct reader.
      * destruct c; simpl.
        -- split_and!; [done | | |].
           ++ intros cpid' sig. destruct reader, fd; simpl; set_solver.
           ++ intros cpid' [= <-] _. split; [| done].
              destruct reader; simpl; set_solver.
           ++ intros _. split_and!; [done | done |].
              intros fd' ->. by destruct reader.
        -- split_and!; [done | | |].
           ++ intros cpid' sig. destruct reader, fd; simpl; set_solver.
           ++ intros cpid' [= <-] _. split; [| done].
              destruct reader; simpl; set_solver.
           ++ intros _. split_and!; [done | done |].
              intros fd' ->. by destruct reader.
        -- split_and!; [done | | |].
           ++ intros cpid' sig. destruct reader; simpl; set_solver.
           ++ intros cpid' [= <-] _. split.
              ** destruct reader; simpl; set_solver.
              ** intros _. split_and!; [done | done |].
                 intros fd'. destruct reader; simpl; set_solver.
           ++ intros [? | ?]; done.
    + split_and!; [done | | done |].
      * intros cpid sig. destruct reader, fd; simpl; set_solver.
      * intros _. split_and!; [done | done |].
        intros fd' ->. by destruct reader.
Qed.

(** A sibling path: the named strategy's [shutdown] sends SIGTERM, probes
    the tunnel process after its grace period and sends SIGKILL when it is
    still there. *)
Lemma tunnel_processes_are_killed_after_grace (e : Env) (n : Named.t)
  (cpid : Z) :
  Named._tunnel_process n = Some cpid → cpid ≠ 0 → kill0 e cpid = KillOk →
  Named.signals (Named.shutdown e n)
  = Named.signals n ++ [OsKill cpid SIGTERM; OsKill cpid SIGKILL].
Proof.
  intros Hp Hnz Hk. unfold Named.shutdown. rewrite Hp. simpl.
  destruct (Z.eqb_spec cpid 0) as [|_]; [done |]. simpl. by rewrite Hk.
Qed.

(** ** The named strategy *)

Lemma dict_get_set {K V} `{EqDecision K} (k : K) (v : V) (d : list (K * V)) :
  dict_get k (dict_set k v d) = Some v.
Proof.
  induction d as [|[k' v'] d IH]; simpl.
  - by rewrite decide_True.
  - destruct (decide (k' = k)) as [->|Hne]; simpl.
    + by rewrite decide_True.
    + by rewrite decide_False.
Qed.

Lemma has_active_session_save e s m :
  SessionManager.has_active_session
    (SessionManager._save_session_metadata e
       (SessionManager.set_session (Some s) m))
  = match SessionManager.pty m with
    | Some _ => bool_decide (Session.status s = RUNNING)
    | None => false
    end.
Proof.
  unfold SessionManager._save_session_metadata,
    SessionManager.has_active_session. simpl.
  by destruct (write_ok e).
Qed.

(** C8.  When [add_port_mapping] has returned a tunnel for a port, a
    second call for the same port, whatever the outside world answers
    then, returns that same tunnel and changes nothing: not the ingress
    rules of the configuration file, not the port table, not the session. *)
Theorem add_port_mapping_idempotent (e1 e2 : Env) (port : Z)
  (st st' : Named.t * SessionManager.t) (tunnel : Tunnel.t) :
  Named.add_port_mapping e1 port st = (Ret tunnel, st') →
  Named.add_port_mapping e2 port st' = (Ret tunnel, st')
  ∧ Named.get_tunnel_for_port port st'.1 = Some tunnel.
Proof.
  destruct st as [n sm]. unfold Named.add_port_mapping at 1.
  destruct (SessionManager.has_active_session sm) eqn:Hact; simpl; [| done].
  destruct (SessionManager.session sm) as [session|] eqn:Hs; [| done].
  destruct (dict_get port (Named.tunnels n)) as [t0|] eqn:Hget.
  - intros [= <- <-]. split; [| done].
    unfold Named.add_port_mapping. by rewrite Hact, Hs, Hget.
  - assert (Hstatus : Session.status session = RUNNING
                      ∧ is_Some (SessionManager.pty sm)).
    { unfold SessionManager.has_active_session in Hact. rewrite Hs in Hact.
      destruct (SessionManager.pty sm); [| done].
      apply bool_decide_eq_true in Hact. eauto. }
    destruct Hstatus as [Hrun [p Hp]].
    assert (Hdone : ∀ n1 t1 sm1,
              sm1 = SessionManager._save_session_metadata e1
                      (SessionManager.set_session
                         (Some (Session.set_tunnels
                                  (Session.tunnels session ++ [t1]) session)) sm) →
              Named.add_port_mapping e2 port
                (Named.set_tunnels (dict_set port t1 (Named.tunnels n1)) n1, sm1)
              = (Ret t1, (Named.set_tunnels (dict_set port t1 (Named.tunnels n1)) n1, sm1))
              ∧ Named.get_tunnel_for_port port
                  (Named.set_tunnels (dict_set port t1 (Named.tunnels n1)) n1)
                = Some t1).
    { intros n1 t1 sm1 ->. unfold Named.add_port_mapping, Named.get_tunnel_for_port.
      rewrite has_active_session_save, Hp. simpl.
      rewrite bool_decide_eq_true_2 by done. simpl.
      rewrite dict_get_set.
      unfold SessionManager._save_session_metadata. simpl.
      by destruct (write_ok e1). }
    destruct (cname e1); [| | done].
    + destruct (Named._add_ingress_rule e1 port n) as [[| |] n1] eqn:Hadd;
        [| done | done].
      intros [= <- <-]. by apply Hdone.
    + destruct (Named._add_ingress_rule e1 port n) as [[| |] n1] eqn:Hadd;
        [| done | done].
      intros [= <- <-]. by apply Hdone.
Qed.

Lemma add_port_mapping_idempotent_witness :
  Named.add_port_mapping (with_now 1700000300 env_ok) 3000
    (Named.add_port_mapping env_ok 3000 named_ready).2
  = ((Named.add_port_mapping env_ok 3000 named_ready).1,
     (Named.add_port_mapping env_ok 3000 named_ready).2)
  ∧ is_ret (Named.add_port_mapping env_ok 3000 named_ready).1 = true.
Proof.
  split; [| reflexivity].
  refine (proj1 (add_port_mapping_idempotent env_ok (with_now 1700000300 env_ok)
                   3000 named_ready _ _ _)).
  vm_compute. reflexivity.
Defined.

(** ** The hybrid façade *)

Section HybridFacts.
Context {N Q : Type} `{NamedStrategy N} `{QuickStrategy Q}.

Lemma quick_mode_served (h : Hybrid.t N Q) (sm : SessionManager.t) (q : Q) :
Hybrid._is_named h = false → Hybrid.tunnel_manager h = Hybrid.QuickM q →
served_by_quick (h, sm).
Proof.
intros Hn Hm. split; [done |]. exists q. simpl.
unfold Hybrid.initialize, Hybrid.create_tunnel, Hybrid.destroy_tunnel,
  Hybrid.destroy_all_tunnels, Hybrid.shutdown, Hybrid.health_check,
  Hybrid.get_tunnel, Hybrid.get_tunnels_by_session,
  Hybrid.get_active_tunnels, Hybrid.destroy_all_tunnels.
rewrite Hn, Hm. split_and!; done.
Qed.

Lemma quick_mode_step (e : Env) (c : Hybrid.call) (w : Hybrid.world N Q) :
Hybrid._is_named w.1 = false →
(∃ q, Hybrid.tunnel_manager w.1 = Hybrid.QuickM q) →
Hybrid._is_named (Hybrid.step e c w).1 = false
∧ ∃ q, Hybrid.tunnel_manager (Hybrid.step e c w).1 = Hybrid.QuickM q.
Proof.
destruct w as [h sm]. simpl. intros Hn [q Hm].
destruct c; simpl;
  unfold Hybrid.initialize, Hybrid.create_tunnel, Hybrid.destroy_tunnel,
    Hybrid.destroy_all_tunnels, Hybrid.shutdown, Hybrid.health_check,
    Hybrid.destroy_all_tunnels;
  rewrite ?Hn, ?Hm; simpl; eauto.
- destruct (quick_create_tunnel e port tunnel_id (q, sm)) as [r [q' sm']].
  simpl. eauto.
- destruct (quick_destroy_tunnel e tunnel_id (q, sm)) as [r [q' sm']].
  simpl. eauto.
- destruct (quick_destroy_all_tunnels e (q, sm)) as [q' sm']. simpl. eauto.
- destruct (quick_health_check e tunnel_id (q, sm)) as [b [q' sm']].
  simpl. eauto.
- destruct (quick_destroy_all_tunnels e (q, sm)) as [q' sm']. simpl. eauto.
Qed.

Lemma quick_mode_run (cs : list (Env * Hybrid.call)) (w : Hybrid.world N Q) :
Hybrid._is_named w.1 = false →
(∃ q, Hybrid.tunnel_manager w.1 = Hybrid.QuickM q) →
Hybrid._is_named (Hybrid.run cs w).1 = false
∧ ∃ q, Hybrid.tunnel_manager (Hybrid.run cs w).1 = Hybrid.QuickM q.
Proof.
revert w. induction cs as [|[e c] cs IH]; intros w Hn Hm; simpl; [done |].
destruct (quick_mode_step e c w Hn Hm) as [Hn' Hm']. by apply IH.
Qed.

(** C7.  When the façade is in named mode and the named strategy's
  [initialize] returns failure or raises, the façade's [initialize]
  reports failure and leaves the façade holding a fresh quick manager
  with the named flag cleared.  From then on, after any sequence of
  façade calls ([initialize] included), the flag is still cleared and
  every operation is the quick manager's: [create_tunnel] is its
  [create_tunnel], and likewise the others; [initialize] returns at once
  without trying the named strategy again. *)
Theorem named_failure_falls_back_for_good (e : Env) (h : Hybrid.t N Q) (n : N) :
Hybrid._is_named h = true → Hybrid.tunnel_manager h = Hybrid.NamedM n →
((named_initialize e n).1 = Ret false ∨ ∃ x, (named_initialize e n).1 = Raise x) →
Hybrid.initialize e h = (Ret false, Hybrid.fall_back h)
∧ Hybrid.tunnel_manager (Hybrid.fall_back h) = Hybrid.QuickM quick_new
∧ ∀ (cs : list (Env * Hybrid.call)) (sm : SessionManager.t),
    served_by_quick (Hybrid.run cs (Hybrid.fall_back h, sm)).
Proof.
intros Hn Hm Hfail. split_and!.
- unfold Hybrid.initialize. rewrite Hn, Hm.
  destruct (named_initialize e n) as [r n']. simpl in Hfail.
  destruct Hfail as [-> | [x ->]]; done.
- done.
- intros cs sm.
  destruct (quick_mode_run cs (Hybrid.fall_back h, sm)) as [Hn' [q Hq]];
    [done | by eexists |].
  destruct (Hybrid.run cs (Hybrid.fall_back h, sm)) as [h' sm'] eqn:Hrun.
  by eapply quick_mode_served.
Qed.
End HybridFacts.

Lemma named_failure_falls_back_for_good_witness :
  Hybrid.initialize env_no_cloudflared hybrid_named
  = (Ret false, Hybrid.fall_back hybrid_named)
  ∧ served_by_quick
      (Hybrid.run [(env_ok, Hybrid.Initialize);
                   (env_ok, Hybrid.CreateTunnel 3000 None)]
         (Hybrid.fall_back hybrid_named, created)).
Proof.
  destruct (named_failure_falls_back_for_good env_no_cloudflared hybrid_named
              (Named.new "cloude" None "dev.example.com") eq_refl eq_refl)
    as (Hinit & _ & Hrun).
  - left. reflexivity.
  - split; [exact Hinit | apply Hrun].
Defined.

(** ** The auto-tunnel orchestrator *)

(** The retry that the claim allows.  The line is printed while the DNS
    API is down and again when it is back.  Two of its matches name port
    3000; both attempts of the first round fail, the first of the second
    round succeeds: three calls to [create_tunnel] for the one port, each
    after the failure of the one before. *)
Lemma failed_attempts_are_retried :
  AutoTunnel.create_calls
    (AutoTunnel.deliver
       (scan env_dns_down "Server running at http://localhost:3000"
        ++ scan env_ok "Server running at http://localhost:3000")
       (AutoTunnel.new, hybrid_ready)).1
  = [AutoTunnel.Issued 3000; AutoTunnel.Returned 3000 false;
     AutoTunnel.Issued 3000; AutoTunnel.Returned 3000 false;
     AutoTunnel.Issued 3000; AutoTunnel.Returned 3000 true].
Proof. vm_compute. reflexivity. Qed.

Lemma broadcast_tunnel_event_frame msg a :
  AutoTunnel._detected_ports (AutoTunnel._broadcast_tunnel_event msg a)
  = AutoTunnel._detected_ports a
  ∧ AutoTunnel.create_calls (AutoTunnel._broadcast_tunnel_event msg a)
    = AutoTunnel.create_calls a.
Proof. unfold AutoTunnel._broadcast_tunnel_event. by case_decide. Qed.

Lemma no_call_after_success_snoc log ev :
  no_call_after_success log →
  (∀ p, ev = AutoTunnel.Issued p → AutoTunnel.Returned p true ∉ log) →
  no_call_after_success (log ++ [ev]).
Proof.
  intros Hok Hev l1 l2 p Heq Hin.
  destruct (decide (l2 = [])) as [-> | Hne]; [by apply elem_of_nil in Hin |].
  destruct (exists_last Hne) as (l2' & x & ->).
  change (l1 ++ AutoTunnel.Returned p true :: l2' ++ [x])
    with (l1 ++ (AutoTunnel.Returned p true :: l2') ++ [x]) in Heq.
  rewrite (app_assoc l1) in Heq.
  apply app_inj_tail in Heq as [-> <-].
  apply elem_of_app in Hin as [Hin | Hin%list_elem_of_singleton].
  - by eapply Hok.
  - apply (Hev p); [done |]. set_solver.
Qed.

Lemma created_ports_elem log p :
  p ∈ created_ports log ↔ AutoTunnel.Returned p true ∈ log.
Proof.
  unfold created_ports. rewrite list_elem_of_omap. split.
  - intros (ev & Hev & Hp). by destruct ev as [|? []]; simplify_eq.
  - intros Hin. by exists (AutoTunnel.Returned p true).
Qed.

(** A handler up to its await: a handled port and port 0 are let go, for
    another port the call is made. *)
Lemma begin_spec m a :
  match PatternDetector.extract_port (PatternDetector.matched_text m) with
  | Ret (Some port) =>
      if decide (port = 0 ∨ port ∈ AutoTunnel._detected_ports a)
      then AutoTunnel.begin m a = (a, None)
      else AutoTunnel.begin m a
           = (AutoTunnel.record (AutoTunnel.Issued port) a, Some port)
  | _ => AutoTunnel.begin m a = (a, None)
  end.
Proof.
  unfold AutoTunnel.begin.
  destruct (PatternDetector.extract_port (PatternDetector.matched_text m))
    as [[port|] | |]; try done.
  destruct (Z.eqb_spec port 0) as [-> | Hnz].
  { rewrite decide_True; [done | by left]. }
  destruct (decide (port ∈ AutoTunnel._detected_ports a)) as [Hin | Hnin].
  { rewrite decide_True; [done | by right]. }
  by rewrite decide_False by (intros [? | ?]; done).
Qed.

Lemma calls_ok_begin m a : calls_ok a → calls_ok (AutoTunnel.begin m a).1.
Proof.
  intros [Hset Hord]. pose proof (begin_spec m a) as Hspec.
  destruct (PatternDetector.extract_port (PatternDetector.matched_text m))
    as [[port|] | |]; try (by rewrite Hspec).
  destruct (decide (port = 0 ∨ port ∈ AutoTunnel._detected_ports a))
    as [_ | Hnot]; rewrite Hspec; [done |]. simpl.
  split; simpl.
  - intros p. rewrite Hset, elem_of_app, list_elem_of_singleton. naive_solver.
  - apply no_call_after_success_snoc; [done |].
    intros p [= <-]. rewrite <- Hset. tauto.
Qed.

Lemma finish_spec port r a :
  AutoTunnel._detected_ports (AutoTunnel.finish port r a)
  = (if is_ret r then {[port]} ∪ AutoTunnel._detected_ports a
     else AutoTunnel._detected_ports a)
  ∧ AutoTunnel.create_calls (AutoTunnel.finish port r a)
    = AutoTunnel.create_calls a
      ++ match r with
         | Ret _ => [AutoTunnel.Returned port true]
         | Raise _ => [AutoTunnel.Returned port false]
         | Blocked => []
         end.
Proof.
  destruct r as [tunnel | x |]; simpl.
  - by destruct (broadcast_tunnel_event_frame
                   (mkWSTunnelMessage TUNNEL_CREATED tunnel)
                   (AutoTunnel.mark_handled port
                      (AutoTunnel.record (AutoTunnel.Returned port true) a)))
      as [-> ->].
  - done.
  - by rewrite app_nil_r.
Qed.

Lemma calls_ok_finish port r a : calls_ok a → calls_ok (AutoTunnel.finish port r a).
Proof.
  intros [Hset Hord]. destruct (finish_spec port r a) as [Hdet Hlog].
  split.
  - intros p. rewrite Hdet, Hlog, elem_of_app.
    destruct r as [tunnel | x |]; simpl.
    + rewrite elem_of_union, elem_of_singleton, list_elem_of_singleton, Hset.
      naive_solver.
    + rewrite list_elem_of_singleton, Hset. naive_solver.
    + rewrite Hset. set_solver.
  - rewrite Hlog. destruct r as [tunnel | x |]; simpl.
    + by apply no_call_after_success_snoc.
    + by apply no_call_after_success_snoc.
    + by rewrite app_nil_r.
Qed.

Lemma calls_ok_sched_step s st : calls_ok st.1 → calls_ok (AutoTunnel.sched_step s st).1.
Proof.
  destruct st as [a waiting]. simpl. intros Hok. destruct s as [h m | i r]; simpl.
  - pose proof (calls_ok_begin m a Hok) as Hb.
    by destruct (AutoTunnel.begin m a) as [a' [port|]].
  - destruct (waiting !! i) as [port|]; [| done].
    destruct r as [tunnel | x |]; simpl; [| | done].
    + by apply (calls_ok_finish port (Ret tunnel)).
    + by apply (calls_ok_finish port (Raise x)).
Qed.

Lemma calls_ok_sched_run ss st : calls_ok st.1 → calls_ok (AutoTunnel.sched_run ss st).1.
Proof.
  revert st. induction ss as [|s ss IH]; intros st Hok; [done |].
  apply IH. by apply calls_ok_sched_step.
Qed.

Lemma calls_ok_new : calls_ok AutoTunnel.new.
Proof.
  split.
  - intros p. simpl. set_solver.
  - intros l1 l2 p Heq. simpl in Heq. by destruct l1.
Qed.

(** C2.  The claim fails on the code where two handler tasks wait at
    once, as they do in quick mode, where [create_tunnel] sleeps while it
    waits for the tunnel URL.  The one line [Server running at http://localhost:3000] is
    matched by [localhost_server] and by [listening_on_port], and
    [_detect_patterns] starts a handler task for each.  A task tests the
    handled set before it awaits [create_tunnel] and adds the port after
    the call has returned: the second task finds the port not handled and
    makes a second call for port 3000 while the first is still waiting, no
    call having failed.  Both calls can return a tunnel. *)
Theorem two_calls_in_flight_for_one_port :
  let started :=
    AutoTunnel.sched_run (tasks_of "Server running at http://localhost:3000")
      (AutoTunnel.new, []) in
  tasks_of "Server running at http://localhost:3000"
  = [AutoTunnel.Start AutoTunnel.OnLocalhostDetected match_localhost;
     AutoTunnel.Start AutoTunnel.OnServerReady
       (PatternDetector.mkPatternMatch "server_ready" "Server running" [] 0);
     AutoTunnel.Start AutoTunnel.OnLocalhostDetected match_listening]
  ∧ AutoTunnel.create_calls started.1
    = [AutoTunnel.Issued 3000; AutoTunnel.Issued 3000]
  ∧ started.2 = [3000; 3000]
  ∧ AutoTunnel._detected_ports started.1 = ∅
  ∧ ¬ one_call_per_port_unless_failed (AutoTunnel.create_calls started.1)
  ∧ ∀ t1 t2,
      AutoTunnel.create_calls
        (AutoTunnel.sched_run
           [AutoTunnel.Finish 0 (Ret t1); AutoTunnel.Finish 0 (Ret t2)]
           started).1
      = [AutoTunnel.Issued 3000; AutoTunnel.Issued 3000;
         AutoTunnel.Returned 3000 true; AutoTunnel.Returned 3000 true].
Proof.
  assert (AutoTunnel.sched_run
            (tasks_of "Server running at http://localhost:3000")
            (AutoTunnel.new, [])
          = (AutoTunnel.mk ∅ ∅ qheap_empty
               [AutoTunnel.Issued 3000; AutoTunnel.Issued 3000],
             [3000; 3000])) as Hrun by (vm_compute; reflexivity).
  cbv zeta. rewrite Hrun. cbn [fst snd AutoTunnel.create_calls
                                 AutoTunnel._detected_ports].
  split; [vm_compute; reflexivity |].
  split; [reflexivity |]. split; [reflexivity |]. split; [reflexivity |].
  split.
  - intros Hclaim. specialize (Hclaim [] [] [] 3000 eq_refl).
    by apply not_elem_of_nil in Hclaim.
  - intros t1 t2. vm_compute. reflexivity.
Qed.

Section AutoTunnelFacts.
Context {W : Type} `{TunnelFacade W}.

(** A handler run to completion is its two halves around the call. *)
Lemma on_localhost_detected_begin_finish e m (a : AutoTunnel.t) (w : W) :
  (AutoTunnel._on_localhost_detected e m (a, w)).2.1
  = match AutoTunnel.begin m a with
    | (a', Some port) =>
        AutoTunnel.finish port (facade_create_tunnel e port w).1 a'
    | (a', None) => a'
    end.
Proof.
  unfold AutoTunnel._on_localhost_detected, AutoTunnel.begin.
  destruct (PatternDetector.extract_port (PatternDetector.matched_text m))
    as [[port|] | |]; try done.
  destruct (port =? 0); [done |].
  destruct (decide (port ∈ AutoTunnel._detected_ports a)); [done |].
  by destruct (facade_create_tunnel e port w) as [[tunnel | x |] w'].
Qed.

Lemma handle_begin_finish e h m (a : AutoTunnel.t) (w : W) :
  (AutoTunnel.handle e h m (a, w)).1
  = match AutoTunnel.begin m a with
    | (a', Some port) =>
        AutoTunnel.finish port (facade_create_tunnel e port w).1 a'
    | (a', None) => a'
    end.
Proof.
  destruct h; simpl; [apply on_localhost_detected_begin_finish |].
  unfold AutoTunnel._on_server_ready. simpl.
  pose proof (on_localhost_detected_begin_finish e m a w) as Hloc.
  unfold AutoTunnel.begin in *.
  destruct (PatternDetector.extract_port (PatternDetector.matched_text m))
    as [[port|] | |]; try done.
  destruct (port =? 0); [done |]. simpl.
  destruct (decide (port ∈ AutoTunnel._detected_ports a)) as [Hin | Hnin].
  - by destruct (bool_decide (port ∈ AutoTunnel._detected_ports a)).
  - rewrite bool_decide_eq_false_2 by done. simpl.
    by destruct (facade_create_tunnel e port w) as [[tunnel | x |] w'].
Qed.

(** Run one after the other, the handlers keep the ports that came back
    with a tunnel distinct. *)
Lemma seq_ok_handle e h m (a : AutoTunnel.t) (w : W) :
  calls_ok a ∧ NoDup (created_ports (AutoTunnel.create_calls a)) →
  calls_ok (AutoTunnel.handle e h m (a, w)).1
  ∧ NoDup (created_ports (AutoTunnel.create_calls (AutoTunnel.handle e h m (a, w)).1)).
Proof.
  intros [Hok Hnd]. rewrite handle_begin_finish.
  pose proof (calls_ok_begin m a Hok) as Hb.
  pose proof (begin_spec m a) as Hspec.
  destruct (PatternDetector.extract_port (PatternDetector.matched_text m))
    as [[port|] | |]; try (by rewrite Hspec).
  destruct (decide (port = 0 ∨ port ∈ AutoTunnel._detected_ports a))
    as [_ | Hnot]; rewrite Hspec in *; [done |].
  simpl in Hb. split; [by apply calls_ok_finish |].
  destruct (finish_spec port (facade_create_tunnel e port w).1
              (AutoTunnel.record (AutoTunnel.Issued port) a)) as [_ ->].
  simpl. unfold created_ports in *. rewrite !omap_app. simpl.
  rewrite app_nil_r.
  destruct (facade_create_tunnel e port w).1; simpl; rewrite ?app_nil_r;
    try done.
  apply NoDup_app. split_and!; [done | | apply NoDup_singleton].
  intros p Hp ->%list_elem_of_singleton.
  apply Hnot. right. destruct Hok as [Hset _]. apply Hset.
  by apply created_ports_elem.
Qed.

Lemma seq_ok_deliver events (a : AutoTunnel.t) (w : W) :
  calls_ok a ∧ NoDup (created_ports (AutoTunnel.create_calls a)) →
  calls_ok (AutoTunnel.deliver events (a, w)).1
  ∧ NoDup (created_ports (AutoTunnel.create_calls (AutoTunnel.deliver events (a, w)).1)).
Proof.
  revert a w. induction events as [|[[e h] m] events IH]; intros a w Hok;
    simpl; [done |].
  destruct (AutoTunnel.handle e h m (a, w)) as [a' w'] eqn:Hh.
  apply IH. pose proof (seq_ok_handle e h m a w Hok) as Hok'.
  by rewrite Hh in Hok'.
Qed.

(** What the handled set does guarantee.  However the handler tasks
    interleave at their await and whatever the calls return: the handled
    set holds
    exactly the ports for which a call to [create_tunnel] has returned a
    tunnel, and no call is made for a port once a call for it has returned
    a tunnel.  A match whose port is in the handled set makes no call; a
    match of another port makes one, and the port joins the handled set
    when that call returns a tunnel and stays out of it when the call
    fails, so that a later match makes a further call.  When the handlers
    run one after the other, no two calls for a port return a tunnel. *)
Theorem no_create_call_after_success :
  (∀ ss,
     let a := (AutoTunnel.sched_run ss (AutoTunnel.new, [])).1 in
     (∀ p, p ∈ AutoTunnel._detected_ports a
           ↔ AutoTunnel.Returned p true ∈ AutoTunnel.create_calls a)
     ∧ no_call_after_success (AutoTunnel.create_calls a))
  ∧ (∀ m a port,
       PatternDetector.extract_port (PatternDetector.matched_text m)
       = Ret (Some port) →
       (port ∈ AutoTunnel._detected_ports a → AutoTunnel.begin m a = (a, None))
       ∧ (port ≠ 0 → port ∉ AutoTunnel._detected_ports a →
          AutoTunnel.begin m a
          = (AutoTunnel.record (AutoTunnel.Issued port) a, Some port))
       ∧ (∀ r, AutoTunnel._detected_ports (AutoTunnel.finish port r a)
               = if is_ret r then {[port]} ∪ AutoTunnel._detected_ports a
                 else AutoTunnel._detected_ports a))
  ∧ (∀ events (w : W),
       let a := (AutoTunnel.deliver events (AutoTunnel.new, w)).1 in
       (∀ p, p ∈ AutoTunnel._detected_ports a
             ↔ AutoTunnel.Returned p true ∈ AutoTunnel.create_calls a)
       ∧ no_call_after_success (AutoTunnel.create_calls a)
       ∧ NoDup (created_ports (AutoTunnel.create_calls a)))
  ∧ (∀ e h m a (w : W),
       (AutoTunnel.handle e h m (a, w)).1
       = match AutoTunnel.begin m a with
         | (a', Some port) =>
             AutoTunnel.finish port (facade_create_tunnel e port w).1 a'
         | (a', None) => a'
         end).
Proof.
  split_and!.
  - intros ss a. apply (calls_ok_sched_run ss (AutoTunnel.new, [])), calls_ok_new.
  - intros m a port Hport. pose proof (begin_spec m a) as Hspec.
    rewrite Hport in Hspec. split_and!.
    + intros Hin. by rewrite decide_True in Hspec by (by right).
    + intros Hnz Hnin. by rewrite decide_False in Hspec by (intros [? | ?]; done).
    + intros r. apply finish_spec.
  - intros events w a.
    destruct (seq_ok_deliver events AutoTunnel.new w) as [[Hset Hord] Hnd].
    { split; [apply calls_ok_new | constructor]. }
    done.
  - intros e h m a w. apply handle_begin_finish.
Qed.
End AutoTunnelFacts.

Lemma no_create_call_after_success_witness :
  no_call_after_success
    (AutoTunnel.create_calls
       (AutoTunnel.deliver
          (scan env_dns_down "Server running at http://localhost:3000"
           ++ scan env_ok "Server running at http://localhost:3000"
           ++ scan env_ok "Server running at http://localhost:3000")
          (AutoTunnel.new, hybrid_ready)).1)
  ∧ AutoTunnel.begin match_localhost AutoTunnel.new
    = (AutoTunnel.record (AutoTunnel.Issued 3000) AutoTunnel.new, Some 3000).
Proof.
  destruct (no_create_call_after_success (W:=Hybrid.world Named.t Quick.t))
    as (_ & Hstep & Hseq & _).
  split.
  - apply Hseq.
  - apply (Hstep match_localhost AutoTunnel.new 3000); [reflexivity | lia |].
    vm_compute. discriminate.
Defined.

(** ** The pattern scanner *)

(** Every pattern of the registry is in the syntax that [Re.parse] reads. *)
Lemma patterns_are_read :
  Forall (λ np : string * Re.pattern, Re.p_regex np.2 ≠ Re.RFail)
    PatternDetector.PATTERNS.
Proof. repeat constructor; by vm_compute. Qed.

Lemma consumed_app (w s : string) : Re.consumed (w +:+ s) s = w.
Proof.
  unfold Re.consumed.
  assert (Hlen : ∀ w, String.length (w +:+ s)
                      = (String.length w + String.length s)%nat).
  { intros w'. induction w' as [|c w' IH]; [done |].
    change (String c w' +:+ s) with (String c (w' +:+ s)).
    cbn [String.length]. by rewrite IH. }
  replace (String.length (w +:+ s) - String.length s)%nat
    with (String.length w) by (rewrite Hlen; lia).
  induction w as [|c w IH].
  - change ("" +:+ s) with s. by destruct s.
  - change (String c w +:+ s) with (String c (w +:+ s)).
    cbn [String.length substring]. by rewrite IH.
Qed.

Section MatcherFacts.
Context {A : Type} (icase : bool).

Lemma star_greedy_inv cc (k : string → option A) s a :
  Re.star_greedy icase cc k s = Some a → ∃ s1, k s1 = Some a.
Proof.
  induction s as [|c s IH]; simpl; [eauto |].
  destruct (Re.cmatch icase cc c); [| eauto].
  destruct (Re.star_greedy icase cc k s); [| eauto].
  intros [= <-]. by apply IH.
Qed.

Lemma star_lazy_inv cc (k : string → option A) s a :
  Re.star_lazy icase cc k s = Some a → ∃ s1, k s1 = Some a.
Proof.
  induction s as [|c s IH]; simpl.
  - destruct (k "") eqn:Hk; [| done]. intros [= <-]. eauto.
  - destruct (k (String c s)) eqn:Hk; [intros [= <-]; eauto |].
    destruct (Re.cmatch icase cc c); [apply IH | done].
Qed.

Lemma star_greedy_digits (k : string → option A) s a :
  Re.star_greedy icase Re.CDigit k s = Some a →
  ∃ w s1, s = w +:+ s1 ∧ all_digits w = true ∧ k s1 = Some a.
Proof.
  induction s as [|c s IH]; simpl.
  - intros Hk. by exists "", "".
  - destruct (Re.is_digit c) eqn:Hc; [| intros Hk; by exists "", (String c s)].
    destruct (Re.star_greedy icase Re.CDigit k s) eqn:Hs.
    + intros [= <-]. destruct (IH eq_refl) as (w & s1 & -> & Hw & Hk).
      exists (String c w), s1. simpl. by rewrite Hc, Hw.
    + intros Hk. by exists "", (String c s).
Qed.

(** A match hands its continuation captures of the same number, all of
    them digit runs if they were and the groups are [(\d+)], and one of
    them non-empty if every way through the expression sets a group. *)
Lemma rmatch_captures (r : Re.regex) :
  ∀ s cs (k : string → Re.caps → option A) a,
    digit_groups r = true → groups_below (length cs) r = true →
    Re.rmatch icase r s cs k = Some a →
    ∃ s1 cs1,
      k s1 cs1 = Some a
      ∧ length cs1 = length cs
      ∧ (Forall cap_ok cs → Forall cap_ok cs1)
      ∧ (Exists (λ g, PatternDetector.truthy g = true) cs ∨ sets_group r = true →
         Exists (λ g, PatternDetector.truthy g = true) cs1).
Proof.
  induction r as [|cc|r1 IH1 r2 IH2|r1 IH1 r2 IH2|r1 IH1|cc|cc|n r1 IH1];
    intros s cs k a Hdg Hgb Hm; simpl in *.
  - exists s, cs. split_and!; [done | done | done |]. intros [? | ?]; done.
  - destruct s as [|c s]; [done |].
    destruct (Re.cmatch icase cc c); [| done].
    exists s, cs. split_and!; [done | done | done |]. intros [? | ?]; done.
  - apply andb_true_iff in Hdg as [Hd1 Hd2].
    apply andb_true_iff in Hgb as [Hg1 Hg2].
    destruct (IH1 _ _ _ _ Hd1 Hg1 Hm) as (s1 & cs1 & Hk1 & Hl1 & Hc1 & Ht1).
    rewrite <- Hl1 in Hg2.
    destruct (IH2 _ _ _ _ Hd2 Hg2 Hk1) as (s2 & cs2 & Hk2 & Hl2 & Hc2 & Ht2).
    exists s2, cs2. split_and!; [done | congruence | tauto |].
    intros [Hex | [Hs1 | Hs2]%orb_true_iff]; apply Ht2; auto.
  - apply andb_true_iff in Hdg as [Hd1 Hd2].
    apply andb_true_iff in Hgb as [Hg1 Hg2].
    destruct (Re.rmatch icase r1 s cs k) eqn:Hr1.
    + injection Hm as <-.
      destruct (IH1 _ _ _ _ Hd1 Hg1 Hr1) as (s1 & cs1 & Hk1 & Hl1 & Hc1 & Ht1).
      exists s1, cs1. split_and!; [done | done | done |].
      intros [Hex | [Hs1 Hs2]%andb_true_iff]; apply Ht1; auto.
    + destruct (IH2 _ _ _ _ Hd2 Hg2 Hm) as (s1 & cs1 & Hk1 & Hl1 & Hc1 & Ht1).
      exists s1, cs1. split_and!; [done | done | done |].
      intros [Hex | [Hs1 Hs2]%andb_true_iff]; apply Ht1; auto.
  - destruct (Re.rmatch icase r1 s cs k) eqn:Hr1.
    + injection Hm as <-.
      destruct (IH1 _ _ _ _ Hdg Hgb Hr1) as (s1 & cs1 & Hk1 & Hl1 & Hc1 & Ht1).
      exists s1, cs1. split_and!; [done | done | done |].
      intros [Hex | ?]; [| done]. apply Ht1; auto.
    + exists s, cs. split_and!; [done | done | done |]. intros [? | ?]; done.
  - apply star_greedy_inv in Hm as [s1 Hk]. exists s1, cs.
    split_and!; [done | done | done |]. intros [? | ?]; done.
  - apply star_lazy_inv in Hm as [s1 Hk]. exists s1, cs.
    split_and!; [done | done | done |]. intros [? | ?]; done.
  - apply andb_true_iff in Hgb as [Hn%bool_decide_eq_true _].
    destruct r1 as [| | [|[| | |]| | | | | |] [| | | | |[| | |]| |] | | | | |];
      try done.
    simpl in Hm. destruct s as [|c s]; [done |].
    destruct (Re.is_digit c) eqn:Hc; [| done].
    apply star_greedy_digits in Hm as (w & s1 & -> & Hw & Hk).
    change (String c (w +:+ s1)) with (String c w +:+ s1) in Hk.
    rewrite consumed_app in Hk.
    exists s1, (<[Nat.pred n := Some (String c w)]> cs).
    split_and!; [exact Hk | by rewrite length_insert | |].
    + intros Hcs. apply Forall_insert; [done |]. simpl. by rewrite Hc, Hw.
    + intros _. apply Exists_exists. exists (Some (String c w)). split; [| done].
      apply list_elem_of_lookup. exists (Nat.pred n).
      by apply list_lookup_insert_eq.
Qed.
End MatcherFacts.

Lemma search_inv (p : Re.pattern) (s : string) (m : Re.mtch) :
  Re.search p s = Some m → ∃ s0, Re.match_at p s0 = Some m.
Proof.
  induction s as [|c s IH]; simpl.
  - destruct (Re.match_at p "") eqn:Hm; [| done]. intros [= <-]. eauto.
  - destruct (Re.match_at p (String c s)) eqn:Hm; [intros [= <-]; eauto |].
    apply IH.
Qed.

Lemma match_at_captures (p : Re.pattern) (s : string) (m : Re.mtch) :
  digit_groups (Re.p_regex p) = true →
  groups_below (Re.ngroups (Re.p_regex p)) (Re.p_regex p) = true →
  Re.match_at p s = Some m →
  length (Re.groups m) = Re.ngroups (Re.p_regex p)
  ∧ Forall cap_ok (Re.groups m)
  ∧ (sets_group (Re.p_regex p) = true →
     Exists (λ g, PatternDetector.truthy g = true) (Re.groups m)).
Proof.
  intros Hdg Hgb Hm. unfold Re.match_at in Hm.
  apply rmatch_captures in Hm as (s1 & cs1 & [= <-] & Hl & Hc & Ht);
    [| done | by rewrite length_replicate].
  simpl. rewrite length_replicate in Hl. split_and!; [done | | auto].
  apply Hc, Forall_replicate. done.
Qed.

Lemma digits_value_total (w : string) :
  all_digits w = true → ∀ acc, ∃ z, PatternDetector.digits_value acc w = Some z.
Proof.
  induction w as [|c w IH]; simpl; [eauto |].
  intros [Hc Hw]%andb_true_iff acc. rewrite Hc. by apply IH.
Qed.

Lemma first_truthy_Exists (gs : list (option string)) :
  Forall cap_ok gs → Exists (λ g, PatternDetector.truthy g = true) gs →
  ∃ w, PatternDetector.first_truthy gs = Some w ∧ w ≠ "" ∧ all_digits w = true.
Proof.
  intros Hok. induction 1 as [g gs Hg | g gs Hex IH]; simpl.
  - rewrite Hg. destruct g as [w|]; [| done].
    apply Forall_cons in Hok as [[? ?] _]. eauto.
  - apply Forall_cons in Hok as [Hg Hgs].
    destruct (PatternDetector.truthy g) eqn:Ht; [| by apply IH].
    destruct g as [w|]; [| done]. destruct Hg. eauto.
Qed.

Lemma leading_digits_all (w : string) :
  all_digits w = true → PatternDetector.leading_digits w = String.length w.
Proof.
  induction w as [|c w IH]; simpl; [done |].
  intros [Hc Hw]%andb_true_iff. rewrite Hc. by rewrite IH.
Qed.

Lemma py_int_digits (w : string) :
  w ≠ "" → all_digits w = true →
  ∃ z, PatternDetector.digits_value 0 w = Some z
       ∧ PatternDetector.py_int w
         = if PatternDetector.int_max_str_digits <? Z.of_nat (String.length w)
           then Raise (ValueError
                         "Exceeds the limit (4300 digits) for integer string conversion")
           else Ret z.
Proof.
  intros Hne Hw. destruct (digits_value_total w Hw 0) as [z Hz].
  exists z. split; [done |]. unfold PatternDetector.py_int.
  rewrite (leading_digits_all w Hw).
  destruct w; [done |]. by rewrite Hz.
Qed.

(** A match of the localhost pattern always yields a port or the error
    of [int]: the first capture that took part, read as a decimal number
    when it has no more digits than [int] converts. *)
Lemma extract_port_localhost (text : string) (m : Re.mtch) :
  Re.search PatternDetector.localhost_server text = Some m →
  ∃ g z, PatternDetector.first_truthy (Re.groups m) = Some g
         ∧ PatternDetector.digits_value 0 g = Some z
         ∧ PatternDetector.extract_port text
           = if PatternDetector.int_max_str_digits <? Z.of_nat (String.length g)
             then Raise (ValueError
                           "Exceeds the limit (4300 digits) for integer string conversion")
             else Ret (Some z).
Proof.
  intros Hs. unfold PatternDetector.extract_port. rewrite Hs.
  apply search_inv in Hs as [s0 Hm].
  apply match_at_captures in Hm as (_ & Hok & Hex);
    [| by vm_compute | by vm_compute].
  assert (Hsets : sets_group (Re.p_regex PatternDetector.localhost_server) = true)
    by (by vm_compute).
  destruct (first_truthy_Exists _ Hok (Hex Hsets)) as (g & Hg & Hne & Hd).
  destruct (py_int_digits g Hne Hd) as (z & Hz & Hint).
  exists g, z. rewrite Hg, Hint. split_and!; [done | done |].
  by destruct (_ <? _).
Qed.

(** Without a localhost match, a match of the listening pattern yields
    the port of its one capture, or the error of [int]. *)
Lemma extract_port_listening_on_port (text : string) (m : Re.mtch) :
  Re.search PatternDetector.localhost_server text = None →
  Re.search PatternDetector.listening_on_port text = Some m →
  ∃ g z, Re.group m 1 = Some g
         ∧ PatternDetector.digits_value 0 g = Some z
         ∧ PatternDetector.extract_port text
           = if PatternDetector.int_max_str_digits <? Z.of_nat (String.length g)
             then Raise (ValueError
                           "Exceeds the limit (4300 digits) for integer string conversion")
             else Ret (Some z).
Proof.
  intros Hnone Hs.
  unfold PatternDetector.extract_port, PatternDetector.extract_port_listening.
  rewrite Hnone, Hs.
  apply search_inv in Hs as [s0 Hm].
  apply match_at_captures in Hm as (Hlen & Hok & Hex);
    [| by vm_compute | by vm_compute].
  assert (Hsets : sets_group (Re.p_regex PatternDetector.listening_on_port) = true)
    by (by vm_compute).
  specialize (Hex Hsets).
  change (Re.ngroups (Re.p_regex PatternDetector.listening_on_port))
    with 1%nat in Hlen.
  unfold Re.group.
  destruct (Re.groups m) as [|g [|]]; try done. simpl.
  apply Exists_cons in Hex as [Hg | Hnil]; [| by apply Exists_nil in Hnil].
  apply Forall_cons in Hok as [Hg' _]. rewrite Hg.
  destruct g as [w|]; [| done]. destruct Hg' as [Hne Hd].
  destruct (py_int_digits w Hne Hd) as (z & Hz & Hint).
  exists w, z. simpl. rewrite Hint. split_and!; [done | done |].
  by destruct (_ <? _).
Qed.

(** C9.  The two lines of the specification, and the helper in general.
    [Server running at http://localhost:3000] is matched by
    [localhost_server] and its port is 3000; [App listening on port 8080]
    is not matched by [localhost_server], is matched by
    [listening_on_port], and its port is 8080.  For every text: the helper
    returns no port exactly when neither pattern matches; when the
    localhost pattern matches, the port is its first capture that took part
    and is not empty; only otherwise is the listening pattern consulted,
    and the port is its capture.  The capture is a run of digits and the
    port is its decimal value; a capture of more than 4300 digits is not
    converted: [int] raises ValueError for it, and so does the helper. *)
Theorem scanner_extracts_ports :
  (∀ (cbs : gmap string (list AutoTunnel.handler)) ln,
     PatternDetector.mkPatternMatch "localhost_server" "http://localhost:3000"
       [Some "3000"; None; None; None] ln
     ∈ (PatternDetector.detect_patterns cbs
          "Server running at http://localhost:3000" ln).1)
  ∧ PatternDetector.extract_port "Server running at http://localhost:3000"
    = Ret (Some 3000)
  ∧ Re.search PatternDetector.localhost_server "App listening on port 8080"
    = None
  ∧ (∀ (cbs : gmap string (list AutoTunnel.handler)) ln,
       (PatternDetector.detect_patterns cbs "App listening on port 8080" ln).1
       = [PatternDetector.mkPatternMatch "listening_on_port"
            "listening on port 8080" [Some "8080"] ln])
  ∧ PatternDetector.extract_port "App listening on port 8080" = Ret (Some 8080)
  ∧ (∀ text,
       PatternDetector.extract_port text = Ret None
       ↔ Re.search PatternDetector.localhost_server text = None
         ∧ Re.search PatternDetector.listening_on_port text = None)
  ∧ (∀ text m,
       Re.search PatternDetector.localhost_server text = Some m →
       ∃ g z, PatternDetector.first_truthy (Re.groups m) = Some g
              ∧ g ≠ "" ∧ all_digits g = true
              ∧ PatternDetector.digits_value 0 g = Some z
              ∧ (Z.of_nat (String.length g) ≤ 4300 →
                 PatternDetector.extract_port text = Ret (Some z))
              ∧ (4300 < Z.of_nat (String.length g) →
                 PatternDetector.extract_port text
                 = Raise (ValueError
                            "Exceeds the limit (4300 digits) for integer string conversion")))
  ∧ (∀ text m,
       Re.search PatternDetector.localhost_server text = None →
       Re.search PatternDetector.listening_on_port text = Some m →
       ∃ g z, Re.group m 1 = Some g
              ∧ g ≠ "" ∧ all_digits g = true
              ∧ PatternDetector.digits_value 0 g = Some z
              ∧ (Z.of_nat (String.length g) ≤ 4300 →
                 PatternDetector.extract_port text = Ret (Some z))
              ∧ (4300 < Z.of_nat (String.length g) →
                 PatternDetector.extract_port text
                 = Raise (ValueError
                            "Exceeds the limit (4300 digits) for integer string conversion")))
  ∧ (∀ w, w ≠ "" → all_digits w = true →
       ((PatternDetector.py_int w
         = Raise (ValueError
                    "Exceeds the limit (4300 digits) for integer string conversion"))
        ↔ (4300 < Z.of_nat (String.length w)))).
Proof.
  assert (∀ g, (PatternDetector.int_max_str_digits <? Z.of_nat (String.length g))
               = bool_decide (4300 < Z.of_nat (String.length g))) as Hlim.
  { intros g. unfold PatternDetector.int_max_str_digits.
    destruct (Z.ltb_spec 4300 (Z.of_nat (String.length g)));
      [by rewrite bool_decide_eq_true_2 | by rewrite bool_decide_eq_false_2 by lia]. }
  split_and!.
  - intros cbs ln. vm_compute. left.
  - vm_compute. reflexivity.
  - vm_compute. reflexivity.
  - intros cbs ln. vm_compute. reflexivity.
  - vm_compute. reflexivity.
  - intros text. split.
    + intros Hnone.
      destruct (Re.search PatternDetector.localhost_server text) as [m|] eqn:H1.
      { destruct (extract_port_localhost text m H1) as (g & z & _ & _ & Hp).
        rewrite Hp in Hnone. by destruct (_ <? _). }
      destruct (Re.search PatternDetector.listening_on_port text) as [m|] eqn:H2;
        [| done].
      destruct (extract_port_listening_on_port text m H1 H2)
        as (g & z & _ & _ & Hp).
      rewrite Hp in Hnone. by destruct (_ <? _).
    + intros [H1 H2].
      unfold PatternDetector.extract_port, PatternDetector.extract_port_listening.
      by rewrite H1, H2.
  - intros text m Hs.
    destruct (extract_port_localhost text m Hs) as (g & z & Hg & Hz & Hp).
    assert (g ≠ "" ∧ all_digits g = true) as [Hne Hd].
    { pose proof Hs as Hs'. apply search_inv in Hs' as [s0 Hm].
      apply match_at_captures in Hm as (_ & Hok & Hex);
        [| by vm_compute | by vm_compute].
      assert (Hsets : sets_group (Re.p_regex PatternDetector.localhost_server) = true)
        by (by vm_compute).
      destruct (first_truthy_Exists _ Hok (Hex Hsets)) as (g' & Hg' & ? & ?).
      rewrite Hg in Hg'. by injection Hg' as <-. }
    exists g, z. rewrite Hp, Hlim.
    split_and!; try done.
    + intros ?. by rewrite bool_decide_eq_false_2 by lia.
    + intros ?. by rewrite bool_decide_eq_true_2.
  - intros text m Hnone Hs.
    destruct (extract_port_listening_on_port text m Hnone Hs)
      as (g & z & Hg & Hz & Hp).
    assert (g ≠ "" ∧ all_digits g = true) as [Hne Hd].
    { pose proof Hs as Hs'. apply search_inv in Hs' as [s0 Hm].
      apply match_at_captures in Hm as (Hlen & Hok & _);
        [| by vm_compute | by vm_compute].
      unfold Re.group in Hg.
      destruct (Re.groups m) as [|g0 gs]; [done |]. simpl in Hg. subst g0.
      by apply Forall_cons in Hok as [[? ?] _]. }
    exists g, z. rewrite Hp, Hlim.
    split_and!; try done.
    + intros ?. by rewrite bool_decide_eq_false_2 by lia.
    + intros ?. by rewrite bool_decide_eq_true_2.
  - intros w Hne Hd. destruct (py_int_digits w Hne Hd) as (z & _ & ->).
    rewrite Hlim. by case_bool_decide.
Qed.

Lemma scanner_extracts_ports_witness :
  PatternDetector.extract_port "Compiled successfully in 2.4s" = Ret None
  ∧ PatternDetector.extract_port "Local: http://127.0.0.1:5173/ (listening on port 9)"
    = Ret (Some 5173)
  ∧ PatternDetector.extract_port long_port_line
    = Raise (ValueError
               "Exceeds the limit (4300 digits) for integer string conversion").
Proof.
  destruct scanner_extracts_ports as (_ & _ & _ & _ & _ & Hnone & Hlocal & _).
  split_and!.
  - apply Hnone. split; reflexivity.
  - destruct (Hlocal "Local: http://127.0.0.1:5173/ (listening on port 9)"
                (Re.Mtch "http://127.0.0.1:5173" [None; Some "5173"; None; None])
                eq_refl) as (g & z & Hg & _ & _ & Hz & Hp & _).
    injection Hg as <-. injection Hz as <-. apply Hp. vm_compute. discriminate.
  - assert (Re.search PatternDetector.localhost_server long_port_line
            = Some (Re.Mtch long_port_line [Some long_port; None; None; None]))
      as Hs by (vm_compute; reflexivity).
    destruct (Hlocal _ _ Hs) as (g & z & Hg & _ & _ & _ & _ & Hp).
    injection Hg as <-. apply Hp. vm_compute. reflexivity.
Defined.

(** * Further properties *)

(** ** The project list of the configuration file *)

Section SettingsFacts.
Variable resolve : string → string.

Lemma project_names_elem n ps :
  n ∈ project_names ps ↔ existsb (Settings.named n) ps = true.
Proof.
  unfold project_names. rewrite list_elem_of_omap.
  rewrite existsb_exists. split.
  - intros (p & Hp & Hn). exists p. split; [by apply list_elem_of_In |].
    unfold Settings.named. destruct (Settings.pe_name p); simplify_eq.
    by apply bool_decide_eq_true.
  - intros (p & Hp%list_elem_of_In & Hn). exists p. split; [done |].
    unfold Settings.named in Hn. apply bool_decide_eq_true in Hn. by rewrite Hn.
Qed.

Lemma find_project_spec wp ps : ∀ i j p,
  Settings.find_project resolve wp i ps = Ret (Some (j, p)) →
  ∃ k, j = (i + k)%nat ∧ ps !! k = Some p ∧ at_path resolve wp p = true
       ∧ ∀ k' q, (k' < k)%nat → ps !! k' = Some q → at_path resolve wp q = false.
Proof.
  induction ps as [|q ps IH]; intros i j p; simpl; [done |].
  destruct (at_path resolve wp q) eqn:Hat.
  - unfold at_path in Hat.
    destruct (Settings.pe_path q) as [| |pa] eqn:Hq; [| done |]; rewrite Hat;
      intros [= <- <-]; exists 0%nat;
      (split_and!; [lia | done | by unfold at_path; rewrite Hq | intros; lia]).
  - assert (Settings.find_project resolve wp i (q :: ps) = Ret (Some (j, p)) →
            Settings.find_project resolve wp (S i) ps = Ret (Some (j, p))) as Hnext.
    { simpl. unfold at_path in Hat.
      destruct (Settings.pe_path q); [| done |]; by rewrite Hat. }
    intros (k & -> & Hk & Hp & Hbefore)%Hnext%IH. exists (S k).
    split_and!; [lia | done | done |].
    intros [|k'] q' Hlt; simpl; [by intros [= <-] |].
    apply Hbefore. lia.
Qed.

Lemma find_project_found wp ps : ∀ i k p,
  ps !! k = Some p → at_path resolve wp p = true →
  (∀ k' q, (k' < k)%nat → ps !! k' = Some q →
           at_path resolve wp q = false ∧ Settings.pe_path q ≠ Settings.JNull) →
  Settings.find_project resolve wp i ps = Ret (Some ((i + k)%nat, p)).
Proof.
  induction ps as [|q ps IH]; intros i k p; [done |].
  destruct k as [|k]; simpl.
  - intros [= ->] Hp _. unfold at_path in Hp.
    destruct (Settings.pe_path p); [| done |]; rewrite Hp; do 3 f_equal; lia.
  - intros Hk Hp Hbefore.
    destruct (Hbefore 0%nat q) as [Hq Hnull]; [lia | done |].
    assert (Settings.find_project resolve wp (S i) ps
            = Ret (Some ((i + S k)%nat, p))) as Hrest.
    { rewrite (IH (S i) k p); [do 3 f_equal; lia | done | done |].
      intros k' q' Hlt Hq'. apply (Hbefore (S k')); [lia | done]. }
    unfold at_path in Hq.
    destruct (Settings.pe_path q); [| done |]; by rewrite Hq.
Qed.

Lemma file_projects_written d ps s :
  Settings.file_projects (Settings.written (Settings.with_projects ps d) s) = ps.
Proof. done. Qed.

Lemma move_project_to_top_eq (w : bool) (wd : string) (s : Settings.t) d :
  Settings.auth_config_file s = Settings.Config d →
  Settings.move_project_to_top resolve w wd s
  = match Settings.find_project resolve (resolve wd) 0 (Settings.projects_of d) with
    | Ret (Some (S i, p)) =>
        if w
        then Settings.written
               (Settings.with_projects (p :: delete (S i) (Settings.projects_of d)) d) s
        else s
    | _ => s
    end.
Proof.
  intros Hfile. unfold Settings.move_project_to_top. rewrite Hfile.
  destruct (Settings.projects_of d) as [|p0 ps0]; [done |].
  by destruct (Settings.find_project resolve (resolve wd) 0 (p0 :: ps0))
    as [[[[|i] p]|]| |].
Qed.

Lemma move_project_to_top_spec (w : bool) (wd : string) (s : Settings.t) :
  let s' := Settings.move_project_to_top resolve w wd s in
  let ps := Settings.file_projects s in
  Settings.file_projects s' ≡ₚ ps
  ∧ (s' = s
     ∨ ∃ i p, ps !! i = Some p ∧ at_path resolve (resolve wd) p = true
              ∧ (∀ j q, (j < i)%nat → ps !! j = Some q →
                        at_path resolve (resolve wd) q = false)
              ∧ Settings.file_projects s' = p :: delete i ps
              ∧ Settings._auth_config_cache s' = None)
  ∧ (∀ i p, w = true → ps !! i = Some p →
            at_path resolve (resolve wd) p = true →
            (∀ j q, (j < i)%nat → ps !! j = Some q →
                    at_path resolve (resolve wd) q = false
                    ∧ Settings.pe_path q ≠ Settings.JNull) →
            Settings.file_projects s' = p :: delete i ps).
Proof.
  intros s' ps.
  destruct (Settings.auth_config_file s) as [| |d] eqn:Hfile.
  1,2: subst s' ps; unfold Settings.move_project_to_top, Settings.file_projects;
       rewrite ?Hfile; cbn; rewrite ?Hfile; cbn;
       (split_and!; [done | by left |]);
       intros i p _ Hi; by rewrite lookup_nil in Hi.
  assert (ps = Settings.projects_of d) as Hps
    by (subst ps; unfold Settings.file_projects; by rewrite Hfile).
  subst s'. rewrite (move_project_to_top_eq w wd s d Hfile), <- Hps.
  assert (Settings.file_projects s = ps) as Hfp
    by (unfold Settings.file_projects; by rewrite Hfile).
  clearbody ps.
  destruct (Settings.find_project resolve (resolve wd) 0 ps)
    as [[[[|i] p]|]| |] eqn:Hf.
  2:{ apply find_project_spec in Hf as Hf'.
      destruct Hf' as (k & Hk & Hlook & Hp & Hbefore). simpl in Hk. subst k.
      destruct w.
      - split_and!.
        + rewrite file_projects_written. symmetry. by apply delete_Permutation.
        + right. exists (S i), p. by rewrite file_projects_written.
        + intros i' p' _ Hi' Hp' Hbefore'.
          rewrite (find_project_found _ _ 0 i' p' Hi' Hp' Hbefore') in Hf.
          simplify_eq/=. by rewrite file_projects_written.
      - split_and!; [by rewrite Hfp | by left |].
        intros i' p' [=]. }
  all: split_and!; [by rewrite Hfp | by left |].
  all: intros i' p' _ Hi' Hp' Hbefore';
       rewrite (find_project_found _ _ 0 i' p' Hi' Hp' Hbefore') in Hf;
       try done.
  injection Hf as -> ->. rewrite Hfp.
  destruct ps as [|p0 ps]; [done |]. by injection Hi' as ->.
Qed.

Lemma omap_sublist {A B} (f : A → option B) (l1 l2 : list A) :
  l1 `sublist_of` l2 → omap f l1 `sublist_of` omap f l2.
Proof.
  induction 1 as [|x l1 l2 _ IH|x l1 l2 _ IH]; simpl; [done | |].
  - destruct (f x); [by constructor | done].
  - destruct (f x); [by constructor | done].
Qed.

Lemma load_auth_config_file s :
  Settings.auth_config_file (Settings.load_auth_config s).2
  = Settings.auth_config_file s.
Proof. unfold Settings.load_auth_config. by repeat case_match. Qed.

Lemma project_names_step c s :
  NoDup (project_names (Settings.file_projects s)) →
  NoDup (project_names (Settings.file_projects (Settings.step resolve c s))).
Proof.
  intros Hnd. destruct c as [|w p|w n|w wd]; simpl.
  - unfold Settings.file_projects in *. by rewrite load_auth_config_file.
  - unfold Settings.save_project, Settings.file_projects in *.
    destruct (Settings.auth_config_file s) as [| |d] eqn:Hfile; simpl;
      rewrite ?Hfile; try done.
    destruct (existsb _ _) eqn:Hex; simpl; rewrite ?Hfile; [done |].
    destruct w; simpl; rewrite ?Hfile; [| done].
    apply NoDup_cons. split; [| done].
    rewrite project_names_elem. by rewrite Hex.
  - unfold Settings.delete_project, Settings.file_projects in *.
    destruct (Settings.auth_config_file s) as [| |d] eqn:Hfile; simpl;
      rewrite ?Hfile; try done.
    destruct (_ =? _)%nat; simpl; rewrite ?Hfile; [done |].
    destruct w; simpl; rewrite ?Hfile; [| done].
    refine (sublist_NoDup _ _ _ _); [exact Hnd |].
    unfold project_names. apply omap_sublist, sublist_filter.
  - pose proof (move_project_to_top_spec w wd s) as [Hperm _].
    simpl in Hperm. unfold project_names. by rewrite Hperm.
Qed.

(** X5.  [move_project_to_top] only reorders the project list: the
    first project whose path resolves to the working directory becomes
    the first of the list and the others keep their order; when there
    is none, or the file cannot be read or written, nothing changes.
    With a writable file and no project without a path before the
    match, the move takes place. *)
Theorem move_project_to_top_reorders (w : bool) (wd : string) (s : Settings.t) :
  let s' := Settings.move_project_to_top resolve w wd s in
  let ps := Settings.file_projects s in
  Settings.file_projects s' ≡ₚ ps
  ∧ (s' = s
     ∨ ∃ i p, ps !! i = Some p ∧ at_path resolve (resolve wd) p = true
              ∧ (∀ j q, (j < i)%nat → ps !! j = Some q →
                        at_path resolve (resolve wd) q = false)
              ∧ Settings.file_projects s' = p :: delete i ps
              ∧ Settings._auth_config_cache s' = None)
  ∧ (∀ i p, w = true → ps !! i = Some p →
            at_path resolve (resolve wd) p = true →
            (∀ j q, (j < i)%nat → ps !! j = Some q →
                    at_path resolve (resolve wd) q = false
                    ∧ Settings.pe_path q ≠ Settings.JNull) →
            Settings.file_projects s' = p :: delete i ps).
Proof. exact (move_project_to_top_spec w wd s). Qed.

(** X1.  The three writers of the project list keep the project names
    distinct: [save_project] refuses a name that is present,
    [delete_project] only removes and [move_project_to_top] only
    reorders. *)
Theorem project_names_stay_distinct (cs : list Settings.call) (s : Settings.t) :
  NoDup (project_names (Settings.file_projects s)) →
  NoDup (project_names (Settings.file_projects (Settings.run resolve cs s))).
Proof.
  revert s. induction cs as [|c cs IH]; intros s Hnd; [done |].
  apply IH. by apply project_names_step.
Qed.

Lemma cache_fresh_step c s : cache_fresh s → cache_fresh (Settings.step resolve c s).
Proof.
  intros Hfresh. destruct c as [|w p|w n|w wd]; simpl.
  - destruct s as [file totp jwt [c|]]; [done |].
    unfold Settings.load_auth_config; simpl.
    destruct file as [| |d]; [done | done |].
    destruct (Settings.to_projects _) eqn:Hps; [| done | done].
    destruct (_ && _) eqn:Hsecrets; [| done].
    intros c [= <-]. unfold Settings.load_auth_config; simpl.
    by rewrite Hps, Hsecrets.
  - unfold Settings.save_project. repeat case_match; try done; intros c [=].
  - unfold Settings.delete_project. repeat case_match; try done; intros c [=].
  - destruct (Settings.auth_config_file s) as [| |d] eqn:Hfile.
    1,2: unfold Settings.move_project_to_top; by rewrite Hfile.
    rewrite (move_project_to_top_eq w wd s d Hfile).
    repeat case_match; try done; intros c [=].
Qed.

(** X2.  The cache of [load_auth_config] is never stale: after any
    sequence of loads, saves, deletions and reorderings made through the
    settings object, a load returns what reading the file at that moment
    returns. *)
Theorem load_auth_config_reads_the_file (file : Settings.config_file)
  (totp jwt : option string) (cs : list Settings.call) :
  let s := Settings.run resolve cs (Settings.mk file totp jwt None) in
  (Settings.load_auth_config s).1 = (Settings.load_auth_config (uncached s)).1.
Proof.
  intros s.
  assert (cache_fresh s) as Hfresh.
  { subst s.
    assert (cache_fresh (Settings.mk file totp jwt None)) as H0 by done.
    revert H0. generalize (Settings.mk file totp jwt None).
    induction cs as [|c cs IH]; intros s0 Hs0; [done |].
    apply IH. by apply cache_fresh_step. }
  clearbody s. destruct s as [f t j [c|]]; [| done].
  by rewrite (Hfresh c eq_refl).
Qed.

Lemma filter_named_none n ps :
  existsb (Settings.named n) ps = false →
  filter (λ p, Settings.named n p = false) ps = ps.
Proof.
  induction ps as [|p ps IH]; simpl; [done |].
  intros [Hp Hps]%orb_false_elim.
  rewrite filter_cons, decide_True by done. by rewrite IH.
Qed.

Lemma filter_named_lt n ps :
  existsb (Settings.named n) ps = true →
  (length (filter (λ p, Settings.named n p = false) ps) < length ps)%nat.
Proof.
  induction ps as [|p ps IH]; simpl; [done |].
  rewrite filter_cons. destruct (Settings.named n p) eqn:Hp; simpl.
  - intros _.
    pose proof (length_filter (λ p, Settings.named n p = false) ps). lia.
  - intros Hps%IH. simpl. lia.
Qed.

Lemma filter_named_length n ps :
  (length (filter (λ p, Settings.named n p = false) ps) =? length ps)%nat
  = negb (existsb (Settings.named n) ps).
Proof.
  destruct (existsb (Settings.named n) ps) eqn:Hex; simpl.
  - apply Nat.eqb_neq. apply filter_named_lt in Hex. lia.
  - rewrite filter_named_none by done. apply Nat.eqb_refl.
Qed.

(** X3.  A saved project is the first of the list and reads back as it
    was given; its name is refused from then on; and deleting that name
    gives back the list as it was before the save. *)
Theorem save_then_delete_restores (w : bool) (p : Settings.ProjectConfig)
  (s s1 : Settings.t) :
  Settings.save_project w p s = (Ret (), s1) →
  Settings.file_projects s1 = Settings.entry_of p :: Settings.file_projects s
  ∧ (Settings.name p ∉ project_names (Settings.file_projects s))
  ∧ Settings.to_project (Settings.entry_of p) = Ret p
  ∧ (∀ w' p', Settings.name p' = Settings.name p →
              Settings.save_project w' p' s1
              = (Raise (ValueError "Project already exists"), s1))
  ∧ ∃ s2, Settings.delete_project true (Settings.name p) s1 = (Ret (), s2)
          ∧ Settings.file_projects s2 = Settings.file_projects s.
Proof.
  unfold Settings.save_project, Settings.file_projects.
  destruct (Settings.auth_config_file s) as [| |d] eqn:Hfile; [done | done |].
  destruct (existsb _ _) eqn:Hex; [done |].
  destruct w; [| done]. intros [= <-]. simpl.
  assert (Settings.named (Settings.name p) (Settings.entry_of p) = true) as Hp
    by (by apply bool_decide_eq_true).
  split_and!.
  - done.
  - rewrite project_names_elem. by rewrite Hex.
  - by destruct p as [n pa [desc|]].
  - intros w' p' ->. simpl. by rewrite Hp.
  - assert (filter (λ q, Settings.named (Settings.name p) q = false)
              (Settings.entry_of p :: Settings.projects_of d)
            = Settings.projects_of d) as Hf.
    { rewrite filter_cons, decide_False by (by rewrite Hp).
      by apply filter_named_none. }
    unfold Settings.delete_project. cbn -[filter length Nat.eqb].
    rewrite Hf. cbn -[filter length].
    destruct (_ =? _)%nat eqn:Hlen;
      [apply Nat.eqb_eq in Hlen; simpl in Hlen; lia |].
    by eexists.
Qed.

(** X4.  A successful [delete_project] removes every entry of that name
    and no other, keeping the order; the name was present before and is
    absent after, so that deleting it again is the not-found error. *)
Theorem delete_project_removes_the_name (w : bool) (n : string)
  (s s' : Settings.t) :
  Settings.delete_project w n s = (Ret (), s') →
  n ∈ project_names (Settings.file_projects s)
  ∧ Settings.file_projects s'
    = filter (λ p, Settings.pe_name p ≠ Settings.JStr n) (Settings.file_projects s)
  ∧ (n ∉ project_names (Settings.file_projects s'))
  ∧ Settings._auth_config_cache s' = None
  ∧ ∀ w', Settings.delete_project w' n s'
          = (Raise (ValueError "Project not found"), s').
Proof.
  unfold Settings.delete_project, Settings.file_projects.
  destruct (Settings.auth_config_file s) as [| |d] eqn:Hfile; [done | done |].
  rewrite filter_named_length.
  destruct (existsb _ _) eqn:Hex; simpl; [| done].
  destruct w; [| done]. intros [= <-]. simpl.
  set (kept := filter (λ p, Settings.named n p = false) (Settings.projects_of d)).
  assert (existsb (Settings.named n) kept = false) as Hkept.
  { apply not_true_is_false. intros (p & Hp%list_elem_of_In & Hn)%existsb_exists.
    apply list_elem_of_filter in Hp as [Hn' _]. congruence. }
  split_and!.
  - by apply project_names_elem.
  - apply list_filter_iff. intros p. unfold Settings.named.
    rewrite bool_decide_eq_false. done.
  - change (n ∉ project_names kept).
    rewrite project_names_elem. by rewrite Hkept.
  - done.
  - intros w'.
    change (Settings.projects_of (Settings.with_projects kept d)) with kept.
    by rewrite filter_named_length, Hkept.
Qed.
End SettingsFacts.

Lemma project_names_stay_distinct_witness :
  NoDup (project_names
           (Settings.file_projects
              (Settings.run (λ p, p)
                 [Settings.SaveProject true docs_project;
                  Settings.MoveProjectToTop true "/srv/web";
                  Settings.DeleteProject true "api"]
                 sample_settings))).
Proof.
  apply (project_names_stay_distinct (λ p, p)).
  apply (bool_decide_unpack _). vm_compute. reflexivity.
Defined.

Lemma save_then_delete_restores_witness :
  ∃ s2,
    Settings.delete_project true "docs"
      (Settings.save_project true docs_project sample_settings).2
    = (Ret (), s2)
    ∧ Settings.file_projects s2 = Settings.file_projects sample_settings.
Proof.
  exact (proj2 (proj2 (proj2 (proj2
           (save_then_delete_restores true docs_project sample_settings _
              eq_refl))))).
Defined.

Lemma delete_project_removes_the_name_witness :
  "api" ∉ project_names
            (Settings.file_projects
               (Settings.delete_project true "api" sample_settings).2).
Proof.
  exact (proj1 (proj2 (proj2
           (delete_project_removes_the_name true "api" sample_settings _
              eq_refl)))).
Defined.

(** ** Template files *)

Lemma should_exclude_iff (name : string) :
  TemplateManager.should_exclude name = true
  ↔ name ∈ TemplateManager.EXCLUDE_PATTERNS
    ∨ endswith ".pyc" name = true ∨ endswith ".log" name = true
    ∨ endswith ".egg-info" name = true.
Proof.
  unfold TemplateManager.should_exclude.
  rewrite orb_true_iff, bool_decide_eq_true.
  assert (existsb (TemplateManager.wildcard_match name)
            TemplateManager.EXCLUDE_PATTERNS
          = endswith ".pyc" name || (endswith ".log" name
                                     || endswith ".egg-info" name)) as ->.
  { cbn -[endswith]. by rewrite !orb_false_r. }
  rewrite !orb_true_iff. tauto.
Qed.

Lemma should_exclude_empty : TemplateManager.should_exclude "" = false.
Proof. by vm_compute. Qed.

Lemma path_name_take (p : TemplateManager.path) (i : nat) (c : string) :
  p !! i = Some c →
  TemplateManager.path_name (take (S i) p) = c.
Proof.
  intros Hi. unfold TemplateManager.path_name.
  rewrite last_lookup, length_take.
  apply lookup_lt_Some in Hi as Hlt.
  replace (Nat.pred (S i `min` length p)) with i by lia.
  rewrite lookup_take_lt by lia. by rewrite Hi.
Qed.

Lemma skip_iff (it : TemplateManager.item) :
  TemplateManager.skip it = true
  ↔ ∃ c, c ∈ TemplateManager.rel it ∧ TemplateManager.should_exclude c = true.
Proof.
  unfold TemplateManager.skip, TemplateManager.parents.
  set (p := TemplateManager.rel it).
  rewrite orb_true_iff, existsb_exists. split.
  - intros [(part & Hin & Hex) | Hex].
    + apply in_map_iff in Hin as (n & <- & Hn%list_elem_of_In).
      apply elem_of_reverse, elem_of_seq in Hn.
      destruct n as [|n].
      * rewrite take_0 in Hex. unfold TemplateManager.path_name in Hex.
        simpl in Hex. by rewrite should_exclude_empty in Hex.
      * destruct (lookup_lt_is_Some_2 p n) as [c Hc]; [lia |].
        rewrite (path_name_take p n c Hc) in Hex.
        exists c. split; [| done]. by eapply list_elem_of_lookup_2.
    + unfold TemplateManager.path_name in Hex.
      destruct (last p) as [c|] eqn:Hlast; simpl in Hex;
        [| by rewrite should_exclude_empty in Hex].
      exists c. split; [| done].
      rewrite last_lookup in Hlast. by eapply list_elem_of_lookup_2.
  - intros (c & [i Hi]%list_elem_of_lookup_1 & Hex).
    apply lookup_lt_Some in Hi as Hlt.
    destruct (decide (S i = length p)) as [Heq|Hne].
    + right. unfold TemplateManager.path_name.
      rewrite last_lookup. replace (Nat.pred (length p)) with i by lia.
      by rewrite Hi.
    + left. exists (take (S i) p). split.
      * apply in_map_iff. exists (S i). split; [done |].
        apply list_elem_of_In, elem_of_reverse, elem_of_seq. lia.
      * by rewrite (path_name_take p i c Hi).
Qed.

Lemma copy_items_actions (items : list TemplateManager.item) :
  ∀ (r : TemplateManager.report) (a : TemplateManager.action),
    a ∈ TemplateManager.actions (TemplateManager.copy_items items r)
    ↔ a ∈ TemplateManager.actions r
      ∨ ∃ it, it ∈ items ∧ TemplateManager.skip it = false
              ∧ TemplateManager.op_ok it = true
              ∧ match TemplateManager.item_kind it with
                | TemplateManager.Dir => a = TemplateManager.Mkdir (TemplateManager.rel it)
                | TemplateManager.File => a = TemplateManager.Copy (TemplateManager.rel it)
                | TemplateManager.Other => False
                end.
Proof.
  induction items as [|it items IH]; intros r a; simpl.
  - split; [by left |]. intros [? | (it & Hin & _)]; [done |].
    by apply elem_of_nil in Hin.
  - destruct (TemplateManager.skip it) eqn:Hskip;
      [| destruct (TemplateManager.item_kind it) eqn:Hkind;
         [destruct (TemplateManager.op_ok it) eqn:Hok
         | destruct (TemplateManager.op_ok it) eqn:Hok |]];
      rewrite IH; simpl; rewrite ?elem_of_app, ?list_elem_of_singleton;
      split;
      try (intros [Ha | (it' & Hin & Hrest)];
           [by left | right; exists it'; split; [by right | done]]);
      try (intros [[Ha | ->] | (it' & Hin & Hrest)];
           [by left
           | right; exists it; split; [by left |]; by rewrite Hskip, Hok, Hkind
           | right; exists it'; split; [by right | done]]);
      intros [Ha | (it' & [-> | Hin]%elem_of_cons & Hs & Ho & Hk)];
      try (by left); try (by left; left); try (right; by exists it');
      try congruence.
    + left. right. by rewrite Hkind in Hk.
    + left. right. by rewrite Hkind in Hk.
    + by rewrite Hkind in Hk.
Qed.

(** X6.  [copy_templates] on a template directory succeeds and copies
    exactly the files, and makes exactly the directories, of which no path
    component is excluded (and for which the operation itself works).  A
    component is excluded when it is one of the listed names or ends in
    [.pyc], [.log] or [.egg-info]. *)
Theorem copy_templates_leaves_out_excluded (template_dir : string)
  (items : list TemplateManager.item) (p : list string) :
  let out := TemplateManager.copy_templates template_dir
               (TemplateManager.Tree items) true in
  let clean (p : list string) :=
    ∀ c, c ∈ p →
         (c ∉ TemplateManager.EXCLUDE_PATTERNS)
         ∧ endswith ".pyc" c = false ∧ endswith ".log" c = false
         ∧ endswith ".egg-info" c = false in
  out.1 = (true, None)
  ∧ (TemplateManager.Copy p ∈ TemplateManager.actions out.2
     ↔ clean p
       ∧ ∃ it, it ∈ items ∧ TemplateManager.rel it = p
               ∧ TemplateManager.item_kind it = TemplateManager.File
               ∧ TemplateManager.op_ok it = true)
  ∧ (TemplateManager.Mkdir p ∈ TemplateManager.actions out.2
     ↔ clean p
       ∧ ∃ it, it ∈ items ∧ TemplateManager.rel it = p
               ∧ TemplateManager.item_kind it = TemplateManager.Dir
               ∧ TemplateManager.op_ok it = true).
Proof.
  intros out clean.
  assert (∀ it, TemplateManager.skip it = false ↔ clean (TemplateManager.rel it))
    as Hclean.
  { intros it. rewrite <- not_true_iff_false, skip_iff. unfold clean. split.
    - intros Hno c Hc.
      assert (¬ TemplateManager.should_exclude c = true) as Hc'
        by (intros ?; apply Hno; by exists c).
      rewrite should_exclude_iff in Hc'.
      split_and!; [| apply not_true_is_false ..]; tauto.
    - intros Hall (c & Hc & Hex). apply should_exclude_iff in Hex.
      destruct (Hall c Hc) as (? & ? & ? & ?).
      destruct Hex as [? | [? | [? | ?]]]; [done | congruence ..]. }
  subst out. simpl. split; [done |].
  rewrite !copy_items_actions. simpl. split.
  - split.
    + intros [[]%elem_of_nil | (it & Hin & Hskip & Hok & Hk)].
      destruct (TemplateManager.item_kind it) eqn:Hkind; [done | | done].
      injection Hk as ->. split; [by apply Hclean |]. by exists it.
    + intros (Hp & it & Hin & <- & Hkind & Hok). right. exists it.
      rewrite Hkind. split_and!; [done | by apply Hclean | done | done].
  - split.
    + intros [[]%elem_of_nil | (it & Hin & Hskip & Hok & Hk)].
      destruct (TemplateManager.item_kind it) eqn:Hkind; [| done | done].
      injection Hk as ->. split; [by apply Hclean |]. by exists it.
    + intros (Hp & it & Hin & <- & Hkind & Hok). right. exists it.
      rewrite Hkind. split_and!; [done | by apply Hclean | done | done].
Qed.

(** ** New terminal output, the log buffer *)

Lemma string_app_cons c w s : String c w +:+ s = String c (w +:+ s).
Proof. done. Qed.

Lemma string_app_nil_r s : s +:+ "" = s.
Proof. induction s as [|c s IH]; [done |]. by rewrite string_app_cons, IH. Qed.

Lemma string_app_length s t :
  String.length (s +:+ t) = (String.length s + String.length t)%nat.
Proof.
  induction s as [|c s IH]; [done |]. rewrite string_app_cons. simpl. by rewrite IH.
Qed.

Lemma string_drop_suffix n s : ∃ pre, s = pre +:+ string_drop n s.
Proof.
  revert s. induction n as [|n IH]; intros s; [by exists "" |].
  destruct s as [|c s]; [by exists "" |].
  destruct (IH s) as [pre Hpre]. exists (String c pre).
  rewrite string_app_cons. simpl. by rewrite <- Hpre.
Qed.

Lemma prefix_drop old : ∀ new,
  String.prefix old new = true →
  new = old +:+ string_drop (String.length old) new.
Proof.
  induction old as [|c old IH]; intros new; [done |].
  destruct new as [|c' new]; [done |]. simpl.
  destruct (ascii_dec c c') as [<-|]; [| done].
  intros Hp. rewrite string_app_cons. by rewrite <- IH.
Qed.

Lemma string_length_0 s : String.length s = 0%nat → s = "".
Proof. by destruct s. Qed.

(** X7.  [_extract_new_content] returns a suffix of the new output.
    When the new output starts with the old one, the old output followed
    by the result is the new output.  New output that is not longer than
    the old one gives the empty string, whatever it holds; longer output
    that does not start with the old one is returned whole. *)
Theorem extract_new_content_is_the_appended_text (old_output new_output : string) :
  let added := LogMonitor._extract_new_content old_output new_output in
  (∃ pre, new_output = pre +:+ added)
  ∧ (String.prefix old_output new_output = true →
     old_output +:+ added = new_output)
  ∧ (old_output ≠ "" →
     (String.length new_output ≤ String.length old_output)%nat → added = "")
  ∧ (old_output ≠ "" →
     (String.length old_output < String.length new_output)%nat →
     String.prefix old_output new_output = false → added = new_output).
Proof.
  unfold LogMonitor._extract_new_content.
  destruct old_output as [|c old].
  { simpl. split_and!; [by exists "" | done | done | done]. }
  cbv beta iota zeta. set (o := String c old).
  destruct (Nat.ltb_spec (String.length o) (String.length new_output)) as [Hlt|Hge].
  - destruct (String.prefix o new_output) eqn:Hp.
    + split_and!; [apply string_drop_suffix | | intros; lia | done].
      intros _. symmetry. by apply prefix_drop.
    + split_and!; [by exists "" | done | intros; lia | done].
  - split_and!; [exists new_output; by rewrite string_app_nil_r | | done | intros; lia].
    intros Hp%prefix_drop. rewrite string_app_nil_r.
    rewrite Hp in Hge. rewrite string_app_length in Hge.
    assert (string_drop (String.length o) new_output = "") as Hd
      by (apply string_length_0; lia).
    by rewrite Hp, Hd, string_app_nil_r.
Qed.

Lemma slice_from_neg {A} (k : Z) (l : list A) :
  0 < k → slice_from (- k) l = last_n (Z.to_nat k) l.
Proof.
  intros Hk. unfold slice_from, last_n.
  destruct (Z.ltb_spec (- k) 0) as [_|]; [| lia]. f_equal. lia.
Qed.

Lemma slice_from_0 {A} (l : list A) : slice_from 0 l = l.
Proof. done. Qed.

Lemma last_n_length {A} (k : nat) (l : list A) :
  length (last_n k l) = (k `min` length l)%nat.
Proof. unfold last_n. rewrite length_drop. lia. Qed.

Lemma last_n_all {A} (k : nat) (l : list A) :
  (length l ≤ k)%nat → last_n k l = l.
Proof. intros Hle. unfold last_n. by replace (length l - k)%nat with 0%nat by lia. Qed.

Lemma last_n_snoc {A} (k : nat) (l : list A) (x : A) :
  (1 ≤ k)%nat → last_n k (last_n k l ++ [x]) = last_n k (l ++ [x]).
Proof.
  intros Hk. destruct (decide (length l ≤ k)%nat) as [Hle|Hgt].
  - by rewrite (last_n_all k l).
  - unfold last_n at 1 3. rewrite !length_app, last_n_length. simpl.
    unfold last_n. rewrite !drop_app_le.
    2: lia. 2: rewrite length_drop; lia.
    rewrite drop_drop. do 2 f_equal. lia.
Qed.

Lemma add_log_entry_session e size c t m :
  SessionManager.session (SessionManager.add_log_entry e size c t m)
  = SessionManager.session m.
Proof. unfold SessionManager.add_log_entry. by repeat case_match. Qed.

Lemma add_log_entry_buffer e size c t m s :
  SessionManager.session m = Some s → 0 ≤ size →
  SessionManager.log_buffer (SessionManager.add_log_entry e size c t m)
  = if size =? 0
    then (SessionManager.log_buffer m ++ [mkLogEntry (now e) (Session.id s) c t])
    else last_n (Z.to_nat size)
           (SessionManager.log_buffer m ++ [mkLogEntry (now e) (Session.id s) c t]).
Proof.
  intros Hs Hsize. unfold SessionManager.add_log_entry. rewrite Hs.
  set (buf := SessionManager.log_buffer m ++ _).
  destruct (Z.eqb_spec size 0) as [->|Hnz].
  - assert ((0 <? Z.of_nat (length buf)) = true) as ->.
    { apply Z.ltb_lt. subst buf. rewrite length_app. simpl. lia. }
    done.
  - destruct (Z.ltb_spec size (Z.of_nat (length buf))) as [Hlt|Hge]; simpl.
    + by rewrite slice_from_neg by lia.
    + by rewrite last_n_all by lia.
Qed.

Lemma add_log_entries_session size adds m :
  SessionManager.session (add_log_entries size adds m) = SessionManager.session m.
Proof.
  induction adds as [|a adds IH] using rev_ind; [done |].
  unfold add_log_entries in *. by rewrite foldl_snoc, add_log_entry_session.
Qed.

Lemma add_log_entries_snoc size adds e c t m :
  add_log_entries size (adds ++ [(e, c, t)]) m
  = SessionManager.add_log_entry e size c t (add_log_entries size adds m).
Proof. unfold add_log_entries. by rewrite foldl_snoc. Qed.

(** X8.  With a session and a buffer size of at least one, the log
    buffer after any run of [add_log_entry] calls holds the latest
    [log_buffer_size] entries of what was there and what was added, in
    order, and so never more than [log_buffer_size].  With a buffer size
    of zero nothing is ever dropped.  Without a session nothing is
    recorded. *)
Theorem log_buffer_holds_the_latest (size : Z)
  (adds : list (Env * string * string)) (m : SessionManager.t) :
  (∀ s, SessionManager.session m = Some s → 1 ≤ size →
        let buf := SessionManager.log_buffer (add_log_entries size adds m) in
        (adds ≠ [] →
         buf = last_n (Z.to_nat size)
                 (SessionManager.log_buffer m ++ log_entries s adds)
         ∧ Z.of_nat (length buf) ≤ size)
        ∧ (Z.of_nat (length (SessionManager.log_buffer m)) ≤ size →
           Z.of_nat (length buf) ≤ size))
  ∧ (∀ s, SessionManager.session m = Some s → size = 0 →
          SessionManager.log_buffer (add_log_entries size adds m)
          = SessionManager.log_buffer m ++ log_entries s adds)
  ∧ (SessionManager.session m = None → add_log_entries size adds m = m).
Proof.
  split_and!.
  - intros s Hs Hsize.
    assert (∀ adds m,
              SessionManager.session m = Some s → adds ≠ [] →
              SessionManager.log_buffer (add_log_entries size adds m)
              = last_n (Z.to_nat size)
                  (SessionManager.log_buffer m ++ log_entries s adds)) as Hlatest.
    { clear adds m Hs. intros adds.
      induction adds as [|[[e c] t] adds IH] using rev_ind; intros m Hs Hne;
        [done |].
      rewrite add_log_entries_snoc.
      rewrite (add_log_entry_buffer _ _ _ _ _ s);
        [| by rewrite add_log_entries_session | lia].
      destruct (Z.eqb_spec size 0); [lia |].
      unfold log_entries. rewrite map_app, app_assoc. simpl.
      destruct (decide (adds = [])) as [->|Hne'];
        [simpl; by rewrite app_nil_r |].
      rewrite (IH m Hs Hne'). apply last_n_snoc. lia. }
    intros buf. split.
    + intros Hne. subst buf. rewrite (Hlatest adds m Hs Hne).
      split; [done |]. rewrite last_n_length. lia.
    + intros Hlen. subst buf.
      destruct (decide (adds = [])) as [->|Hne]; [done |].
      rewrite (Hlatest adds m Hs Hne), last_n_length. lia.
  - intros s Hs ->. revert m Hs.
    induction adds as [|[[e c] t] adds IH] using rev_ind; intros m Hs.
    { by rewrite app_nil_r. }
    rewrite add_log_entries_snoc.
    rewrite (add_log_entry_buffer _ _ _ _ _ s);
      [| by rewrite add_log_entries_session | lia].
    unfold log_entries. rewrite map_app, app_assoc. simpl.
    by rewrite (IH m Hs).
  - intros Hs. induction adds as [|[[e c] t] adds IH] using rev_ind; [done |].
    rewrite add_log_entries_snoc, IH.
    unfold SessionManager.add_log_entry. by rewrite Hs.
Qed.

(** X9.  [get_recent_logs(limit)] returns the last [limit] entries of
    the buffer for a limit of at least one; for a limit of zero it returns
    the whole buffer, and for a negative limit the buffer without its
    first [-limit] entries.  [get_session_info] answers exactly when
    there is an active session; it lists the last hundred entries and
    counts the whole buffer. *)
Theorem recent_logs_are_the_last_entries (limit : Z) (e : Env)
  (m : SessionManager.t) :
  let buf := SessionManager.log_buffer m in
  (1 ≤ limit →
   SessionManager.get_recent_logs limit m = last_n (Z.to_nat limit) buf
   ∧ Z.of_nat (length (SessionManager.get_recent_logs limit m)) ≤ limit)
  ∧ SessionManager.get_recent_logs 0 m = buf
  ∧ (limit < 0 →
     SessionManager.get_recent_logs limit m = drop (Z.to_nat (- limit)) buf)
  ∧ (SessionManager.get_session_info e m = None
     ↔ SessionManager.has_active_session m = false)
  ∧ (∀ info, SessionManager.get_session_info e m = Some info →
             SessionManager.session m = Some (si_session info)
             ∧ si_recent_logs info = last_n 100 buf
             ∧ log_lines (si_stats info) = Z.of_nat (length buf)
             ∧ total_commands (si_stats info) = SessionManager.command_count m
             ∧ si_active_tunnels info = Session.tunnels (si_session info)).
Proof.
  intros buf. unfold SessionManager.get_recent_logs. fold buf. split_and!.
  - intros Hl. rewrite slice_from_neg by lia. split; [done |].
    rewrite last_n_length. lia.
  - done.
  - intros Hl. unfold slice_from.
    destruct (Z.ltb_spec (- limit) 0) as [|_]; [lia | done].
  - unfold SessionManager.get_session_info, SessionManager.has_active_session.
    destruct (SessionManager.session m), (SessionManager.pty m); simpl;
      try done.
    by destruct (bool_decide _).
  - intros info. unfold SessionManager.get_session_info.
    destruct (SessionManager.has_active_session m); [| done].
    destruct (SessionManager.session m) as [s|]; [| done].
    intros [= <-]. simpl. split_and!; try done.
    unfold SessionManager.get_recent_logs. fold buf.
    by rewrite (slice_from_neg 100).
Qed.

(** ** Terminal output on its way to the client *)

Lemma N_forall_below (P : N → bool) (n : nat) :
  forallb P (map N.of_nat (seq 0 n)) = true →
  ∀ k, (k < N.of_nat n)%N → P k = true.
Proof.
  intros Hall k Hk. rewrite forallb_forall in Hall. apply Hall.
  apply in_map_iff. exists (N.to_nat k). split; [lia |].
  apply in_seq. lia.
Qed.

Lemma b64_char_index (n : N) :
  (n < 64)%N →
  b64_index (b64_char n) = Some n
  ∧ Ascii.eqb (b64_char n) "="%char = false
  ∧ (N_of_ascii (b64_char n) <? 128)%N = true.
Proof.
  intros Hn.
  pose proof (N_forall_below
    (λ n, bool_decide (b64_index (b64_char n) = Some n)
          && negb (Ascii.eqb (b64_char n) "="%char)
          && (N_of_ascii (b64_char n) <? 128)%N) 64 eq_refl n Hn) as H.
  simpl in H. apply andb_prop in H as [[H1 H2]%andb_prop H3].
  apply bool_decide_eq_true in H1. apply negb_true_iff in H2. done.
Qed.

Lemma below2_spec (P : N → N → bool) :
  below2 P = true → ∀ x y, (x < 256)%N → (y < 256)%N → P x y = true.
Proof.
  intros Hall x y Hx Hy.
  apply (N_forall_below (λ x, forallb (P x) (map N.of_nat (seq 0 256))) 256 Hall x)
    in Hx.
  by apply (N_forall_below (P x) 256 Hx y).
Qed.

(** The six-bit groups of three bytes, and the bytes back from them. *)
Lemma sextet_facts (x y : N) :
  (x < 256)%N → (y < 256)%N →
  (N.shiftr x 2 < 64)%N
  ∧ (N.lor (N.shiftl (N.land x 3) 4) (N.shiftr y 4) < 64)%N
  ∧ (N.lor (N.shiftl (N.land x 15) 2) (N.shiftr y 6) < 64)%N
  ∧ (N.land x 63 < 64)%N
  ∧ N.lor (N.shiftl (N.shiftr x 2) 2)
      (N.shiftr (N.lor (N.shiftl (N.land x 3) 4) (N.shiftr y 4)) 4) = x
  ∧ N.land (N.lor (N.shiftl (N.land x 3) 4) (N.shiftr y 4)) 15 = N.shiftr y 4
  ∧ N.lor (N.shiftl (N.shiftr x 4) 4)
      (N.shiftr (N.lor (N.shiftl (N.land x 15) 2) (N.shiftr y 6)) 2) = x
  ∧ N.land (N.lor (N.shiftl (N.land x 15) 2) (N.shiftr y 6)) 3 = N.shiftr y 6
  ∧ N.lor (N.shiftl (N.shiftr x 6) 6) (N.land x 63) = x.
Proof.
  intros Hx Hy.
  assert (below2 (λ x y,
            (N.shiftr x 2 <? 64)%N
            && (N.lor (N.shiftl (N.land x 3) 4) (N.shiftr y 4) <? 64)%N
            && (N.lor (N.shiftl (N.land x 15) 2) (N.shiftr y 6) <? 64)%N
            && (N.land x 63 <? 64)%N
            && (N.lor (N.shiftl (N.shiftr x 2) 2)
                  (N.shiftr (N.lor (N.shiftl (N.land x 3) 4) (N.shiftr y 4)) 4)
                =? x)%N
            && (N.land (N.lor (N.shiftl (N.land x 3) 4) (N.shiftr y 4)) 15
                =? N.shiftr y 4)%N
            && (N.lor (N.shiftl (N.shiftr x 4) 4)
                  (N.shiftr (N.lor (N.shiftl (N.land x 15) 2) (N.shiftr y 6)) 2)
                =? x)%N
            && (N.land (N.lor (N.shiftl (N.land x 15) 2) (N.shiftr y 6)) 3
                =? N.shiftr y 6)%N
            && (N.lor (N.shiftl (N.shiftr x 6) 6) (N.land x 63) =? x)%N)
          = true) as Hall by (vm_compute; reflexivity).
  pose proof (below2_spec _ Hall x y Hx Hy) as H. cbv beta in H.
  repeat (apply andb_prop in H as [H ?]).
  repeat match goal with
         | H : (_ <? _)%N = true |- _ => apply N.ltb_lt in H
         | H : (_ =? _)%N = true |- _ => apply N.eqb_eq in H
         end.
  split_and!; assumption.
Qed.

Lemma byte_of_to_N (b : Byte.byte) : byte_of_N (Byte.to_N b) = b.
Proof. unfold byte_of_N. by rewrite Byte.of_to_N. Qed.

Lemma byte_to_N_lt (b : Byte.byte) : (Byte.to_N b < 256)%N.
Proof. pose proof (Byte.to_N_bounded b). lia. Qed.

Lemma a2b_char (n : N) (s : string) (quad_pos : nat) (leftchar : N)
  (pads : nat) (out : bytes) :
  (n < 64)%N →
  a2b_base64 (String (b64_char n) s) quad_pos leftchar pads out
  = match quad_pos with
    | 0%nat => a2b_base64 s 1 n 0 out
    | 1%nat =>
        a2b_base64 s 2 (N.land n 15) 0
          (out ++ [byte_of_N (N.lor (N.shiftl leftchar 2) (N.shiftr n 4))])
    | 2%nat =>
        a2b_base64 s 3 (N.land n 3) 0
          (out ++ [byte_of_N (N.lor (N.shiftl leftchar 4) (N.shiftr n 2))])
    | _ =>
        a2b_base64 s 0 0 0 (out ++ [byte_of_N (N.lor (N.shiftl leftchar 6) n)])
    end.
Proof.
  intros (Hi & Hpad & _)%b64_char_index.
  cbn [a2b_base64]. by rewrite Hpad, Hi.
Qed.

Lemma list_ind3 {A} (P : list A → Prop) :
  P [] → (∀ a, P [a]) → (∀ a b, P [a; b]) →
  (∀ a b c l, P l → P (a :: b :: c :: l)) →
  ∀ l, P l.
Proof.
  intros H0 H1 H2 H3 l.
  assert (P l ∧ (∀ a, P (a :: l)) ∧ ∀ a b, P (a :: b :: l)) as [? _]; [| done].
  induction l as [|c l (IH0 & IH1 & IH2)]; [done |].
  split_and!; [apply IH1 | intros; apply IH2 | intros; by apply H3].
Qed.

Lemma a2b_encode (bs : bytes) :
  ∀ leftchar pads out,
    a2b_base64 (b64encode bs) 0 leftchar pads out = Ret (out ++ bs).
Proof.
  induction bs as [|a|a b|a b c bs IH] using list_ind3; intros leftchar pads out.
  - simpl. by rewrite app_nil_r.
  - pose proof (sextet_facts (Byte.to_N a) 0 (byte_to_N_lt a) eq_refl)
      as (H0 & H1 & _ & _ & Hx & _).
    cbn in H1, Hx. rewrite N.lor_0_r in H1, Hx.
    cbn [b64encode]. cbv zeta.
    rewrite !a2b_char by done. cbn [a2b_base64 Ascii.eqb Nat.leb Nat.add].
    simpl. by rewrite Hx, byte_of_to_N.
  - pose proof (sextet_facts (Byte.to_N a) (Byte.to_N b) (byte_to_N_lt a)
                  (byte_to_N_lt b)) as (H0 & H1 & _ & _ & Hx & Hl & _).
    pose proof (sextet_facts (Byte.to_N b) 0 (byte_to_N_lt b) eq_refl)
      as (_ & _ & H2 & _ & _ & _ & Hy & _).
    cbn in H2, Hy. rewrite N.lor_0_r in H2, Hy.
    cbn [b64encode]. cbv zeta.
    rewrite !a2b_char by done. simpl.
    rewrite Hx, Hl, Hy, !byte_of_to_N. by rewrite <- app_assoc.
  - pose proof (sextet_facts (Byte.to_N a) (Byte.to_N b) (byte_to_N_lt a)
                  (byte_to_N_lt b)) as (H0 & H1 & _ & _ & Hx & Hl & _).
    pose proof (sextet_facts (Byte.to_N b) (Byte.to_N c) (byte_to_N_lt b)
                  (byte_to_N_lt c)) as (_ & _ & H2 & _ & _ & _ & Hy & Hl' & _).
    pose proof (sextet_facts (Byte.to_N c) 0 (byte_to_N_lt c) eq_refl)
      as (_ & _ & _ & H3 & _ & _ & _ & _ & Hz).
    cbn [b64encode]. cbv zeta.
    rewrite !a2b_char by done.
    rewrite Hx, Hl, Hy, Hl', Hz, !byte_of_to_N, IH.
    by rewrite <- !app_assoc.
Qed.

Lemma is_ascii_encode (bs : bytes) : is_ascii (b64encode bs) = true.
Proof.
  induction bs as [|a|a b|a b c bs IH] using list_ind3.
  - done.
  - pose proof (sextet_facts (Byte.to_N a) 0 (byte_to_N_lt a) eq_refl)
      as (H0 & H1 & _).
    cbn in H1. rewrite N.lor_0_r in H1.
    apply b64_char_index in H0 as (_ & _ & H0), H1 as (_ & _ & H1).
    cbn [b64encode is_ascii]. cbv zeta. by rewrite H0, H1.
  - pose proof (sextet_facts (Byte.to_N a) (Byte.to_N b) (byte_to_N_lt a)
                  (byte_to_N_lt b)) as (H0 & H1 & _).
    pose proof (sextet_facts (Byte.to_N b) 0 (byte_to_N_lt b) eq_refl)
      as (_ & _ & H2 & _).
    cbn in H2. rewrite N.lor_0_r in H2.
    apply b64_char_index in H0 as (_ & _ & H0), H1 as (_ & _ & H1),
      H2 as (_ & _ & H2).
    cbn [b64encode is_ascii]. cbv zeta. by rewrite H0, H1, H2.
  - pose proof (sextet_facts (Byte.to_N a) (Byte.to_N b) (byte_to_N_lt a)
                  (byte_to_N_lt b)) as (H0 & H1 & _).
    pose proof (sextet_facts (Byte.to_N b) (Byte.to_N c) (byte_to_N_lt b)
                  (byte_to_N_lt c)) as (_ & _ & H2 & _).
    pose proof (sextet_facts (Byte.to_N c) 0 (byte_to_N_lt c) eq_refl)
      as (_ & _ & _ & H3 & _).
    apply b64_char_index in H0 as (_ & _ & H0), H1 as (_ & _ & H1),
      H2 as (_ & _ & H2), H3 as (_ & _ & H3).
    cbn [b64encode is_ascii]. cbv zeta. by rewrite H0, H1, H2, H3, IH.
Qed.

Lemma b64decode_b64encode (bs : bytes) : b64decode (b64encode bs) = Ret bs.
Proof. unfold b64decode. by rewrite is_ascii_encode, a2b_encode. Qed.

(** X10.  The bytes of a terminal chunk arrive unchanged: decoding the
    base64 text of any chunk gives the chunk back, so the binary frame
    sent for the item that [_handle_pty_output] put in a subscriber's
    queue is the chunk that the terminal produced. *)
Theorem terminal_bytes_arrive_unchanged :
  (∀ data, WS.pty_frame (b64encode data) = Ret data)
  ∧ ∀ e disk cs data,
      let m := SessionManager.run cs (SessionManager.init e disk) in
      ∃ m', SessionManager._handle_pty_output data m = (Ret (), m')
            ∧ ∀ q, q ∈ SessionManager._output_subscribers m →
                   ∃ qu item,
                     qstore (SessionManager.queues m) !! q = Some qu
                     ∧ qstore (SessionManager.queues m') !! q
                       = Some (push item qu)
                     ∧ WS.pty_frame item = Ret data.
Proof.
  split; [apply b64decode_b64encode |].
  intros e disk cs data m.
  assert (hub_ok m) as Hok by apply hub_ok_run, hub_ok_init.
  destruct (handle_pty_output_spec data m Hok)
    as (m' & Hm' & _ & _ & _ & _ & Hstore).
  exists m'. split; [done |]. intros q Hq.
  destruct Hok as (_ & Hsome & _). destruct (Hsome q Hq) as [qu Hqu].
  exists qu, (b64encode data). rewrite Hstore, decide_True, Hqu by done.
  split_and!; [done | done | apply b64decode_b64encode].
Qed.

(** ** The session registry and the terminal process *)

Lemma add_effects_nil m : SessionManager.add_effects [] m = m.
Proof. destruct m. unfold SessionManager.add_effects. simpl. by rewrite app_nil_r. Qed.

(** X11.  A [send_command] or a [send_input] that raises leaves the
    registry exactly as it was.  A [create_session] that raises either
    was refused because a session is active, without any change, or
    leaves no session record behind, so that the next [create_session]
    is not refused. *)
Theorem failed_calls_leave_no_session_behind (e : Env) (m : SessionManager.t) :
  (∀ cmd x m', SessionManager.send_command e cmd m = (Raise x, m') → m' = m)
  ∧ (∀ d x m', SessionManager.send_input e d m = (Raise x, m') → m' = m)
  ∧ (∀ sid wd a ct x m',
       SessionManager.create_session e sid wd a ct m = (Raise x, m') →
       (x = SessionManager.already_running ∧ m' = m
        ∧ SessionManager.has_active_session m = true)
       ∨ (SessionManager.session m' = None
          ∧ SessionManager.has_active_session m' = false
          ∧ ∀ e' sid' wd' a' ct',
              (SessionManager.create_session e' sid' wd' a' ct' m').1
              ≠ Raise SessionManager.already_running)).
Proof.
  split_and!.
  - intros cmd x m'. unfold SessionManager.send_command, PTYSession.send_command,
      PTYSession.write.
    repeat case_match; intros; simplify_eq/=; by rewrite ?add_effects_nil.
  - intros d x m'. unfold SessionManager.send_input, PTYSession.write.
    repeat case_match; intros; simplify_eq/=; by rewrite ?add_effects_nil.
  - intros sid wd a ct x m' Hc.
    destruct (SessionManager.has_active_session m) eqn:Hact.
    { left. unfold SessionManager.create_session in Hc. rewrite Hact in Hc.
      by simplify_eq. }
    right.
    assert (SessionManager.session m' = None) as Hnone.
    { revert Hc. unfold SessionManager.create_session. rewrite Hact.
      set (m1 := match SessionManager.session m with
                 | Some _ => _
                 | None => _
                 end).
      assert (SessionManager.session m1 = None) as H1.
      { subst m1. destruct (SessionManager.session m) eqn:Hs; [| done].
        unfold SessionManager.unlink. by repeat case_match. }
      clearbody m1.
      destruct (negb (mkdir_ok e)); [by intros [= _ <-] |].
      destruct (PTYSession.start _ _ _) as [[r p] effs].
      destruct r as [u|[]|]; intros [= <- <-]; simpl; by rewrite ?H1. }
    assert (SessionManager.has_active_session m' = false) as Hact'
      by (unfold SessionManager.has_active_session; by rewrite Hnone).
    split_and!; [done | done |].
    intros e' sid' wd' a' ct'. unfold SessionManager.create_session.
    rewrite Hact', Hnone.
    destruct (negb (mkdir_ok e')); [done |].
    unfold PTYSession.start, PTYSession.new; simpl.
    by destruct (spawn e').
Qed.

Lemma detached_step q e c m :
  hub_ok m → detached q m → detached q (SessionManager.step e c m).
Proof.
  intros Hok [Hq Hlt]. unfold detached.
  destruct c; simpl.
  - destruct (create_session_queues e session_id working_dir auto_start_claude
                copy_templates m) as [-> ->]. done.
  - destruct (destroy_session_queues e m) as [-> [-> | ->]]; [done |].
    split; [apply not_elem_of_nil | done].
  - destruct (send_command_queues e command m) as [-> ->]. done.
  - destruct (send_input_queues e data m) as [-> ->]. done.
  - destruct (resize_terminal_queues e cols rows m) as [-> ->]. done.
  - unfold SessionManager.subscribe_output, qalloc. simpl. split; [| lia].
    rewrite elem_of_app, list_elem_of_singleton. intros [? | ->]; [done | lia].
  - split; [| done]. intros Hin%remove_first_subseteq. done.
  - destruct (handle_pty_output_spec data m Hok)
      as (m' & Hm' & Hs & Hn & _). rewrite Hm'. simpl. by rewrite Hs, Hn.
  - unfold SessionManager.consume. repeat case_match; done.
  - done.
Qed.

Lemma detached_run q cs m :
  hub_ok m → detached q m →
  hub_ok (SessionManager.run cs m) ∧ detached q (SessionManager.run cs m).
Proof.
  revert m. induction cs as [|[e c] cs IH]; intros m Hok Hd; [done |].
  simpl. apply IH; [by apply hub_ok_step | by apply detached_step].
Qed.

(** X12.  [destroy_session] drops every subscription to the terminal
    output: a queue that was subscribed before a successful
    [destroy_session] is not subscribed in any later state, and no later
    chunk is put into it, whatever sessions are created afterwards. *)
Theorem destroy_session_ends_subscriptions (e0 e : Env) (disk : metadata)
  (cs0 : list (Env * SessionManager.call)) (q : qref) (b : bool)
  (m' : SessionManager.t) :
  let m := SessionManager.run cs0 (SessionManager.init e0 disk) in
  q ∈ SessionManager._output_subscribers m →
  SessionManager.destroy_session e m = (Ret b, m') →
  SessionManager._output_subscribers m' = []
  ∧ ∀ cs data,
      let m2 := SessionManager.run cs m' in
      (q ∉ SessionManager._output_subscribers m2)
      ∧ qstore (SessionManager.queues
                  (SessionManager._handle_pty_output data m2).2) !! q
        = qstore (SessionManager.queues m2) !! q.
Proof.
  intros m Hq Hd.
  assert (hub_ok m) as Hok by apply hub_ok_run, hub_ok_init.
  assert (SessionManager._output_subscribers m' = []) as Hnil.
  { revert Hd. unfold SessionManager.destroy_session.
    repeat case_match; intros; by simplify_eq/=. }
  assert (hub_ok m') as Hok'.
  { replace m' with (SessionManager.step e SessionManager.DestroySession m)
      by (simpl; by rewrite Hd).
    by apply hub_ok_step. }
  assert (detached q m') as Hdet.
  { split; [rewrite Hnil; apply not_elem_of_nil |].
    pose proof (destroy_session_queues e m) as [Hqs _]. rewrite Hd in Hqs.
    simpl in Hqs. rewrite Hqs.
    destruct Hok as (_ & Hsome & Hstore).
    destruct (Hsome q Hq) as [qu Hqu]. by apply (Hstore q qu). }
  split; [done |]. intros cs data m2.
  destruct (detached_run q cs m' Hok' Hdet) as [Hok2 [Hq2 _]].
  split; [done |].
  destruct (handle_pty_output_spec data m2 Hok2)
    as (m3 & -> & _ & _ & _ & _ & Hstore). simpl.
  by rewrite Hstore, decide_False.
Qed.

(** X13.  Once [stop] has been called on a terminal process, whether or
    not the call has returned, the process object is inert: writes and
    commands are refused as not running and do nothing, a resize does
    nothing, [is_alive] is false and a further [stop] does nothing. *)
Theorem stopped_terminal_is_inert (c : child_state) (p : PTYSession.t) :
  let p' := (PTYSession.stop c p).1.2 in
  PTYSession.running p' = false
  ∧ (∀ ok data,
       PTYSession.write ok data p'
       = (Raise (PTYSessionError "Session is not running"), []))
  ∧ (∀ ok cmd,
       PTYSession.send_command ok cmd p'
       = (Raise (PTYSessionError "Session is not running"), []))
  ∧ (∀ ok cols rows, PTYSession.resize ok cols rows p' = (Ret (), []))
  ∧ (∀ k, PTYSession.is_alive k p' = Ret false)
  ∧ (∀ c', PTYSession.stop c' p' = (Ret (), p', [])).
Proof.
  intros p'.
  assert (PTYSession.running p' = false) as Hr.
  { subst p'. unfold PTYSession.stop.
    destruct (PTYSession.running p) eqn:Hrun; simpl; [| done].
    by repeat case_match. }
  split_and!; [done | ..]; intros;
    unfold PTYSession.send_command, PTYSession.write, PTYSession.resize,
      PTYSession.is_alive, PTYSession.stop; by rewrite Hr.
Qed.

(** X14.  [resize_terminal] never raises and changes nothing but the
    window: it sets the size, with rows and columns in their places, and
    then signals the child, when there is a running terminal, both
    numbers fit in sixteen bits and the system call works; otherwise it
    has no effect at all. *)
Theorem resize_terminal_sets_the_window_or_nothing (e : Env) (cols rows : Z)
  (m : SessionManager.t) :
  let m' := SessionManager.resize_terminal e cols rows m in
  let fits (z : Z) := 0 ≤ z ≤ 65535 in
  (∃ extra, m' = SessionManager.add_effects extra m
            ∧ (extra = []
               ∨ ∃ p fd, SessionManager.pty m = Some p
                         ∧ PTYSession.running p = true
                         ∧ PTYSession.master_fd p = Some fd
                         ∧ fits rows ∧ fits cols ∧ ioctl_ok e = true
                         ∧ extra = OsWinsize fd rows cols
                                   :: match PTYSession.pid p with
                                      | Some cpid =>
                                          if cpid =? 0 then []
                                          else [OsKill cpid SIGWINCH]
                                      | None => []
                                      end))
  ∧ (∀ p fd, SessionManager.pty m = Some p → PTYSession.running p = true →
             PTYSession.master_fd p = Some fd →
             fits rows → fits cols → ioctl_ok e = true →
             ∃ rest, SessionManager.effects m'
                     = SessionManager.effects m ++ OsWinsize fd rows cols :: rest)
  ∧ (¬ fits rows ∨ ¬ fits cols → m' = m).
Proof.
  intros m' fits. subst m'. unfold SessionManager.resize_terminal.
  assert (∀ z, PTYSession.fits_H z = true ↔ fits z) as Hfits.
  { intros z. unfold PTYSession.fits_H, fits.
    rewrite andb_true_iff, !Z.leb_le. done. }
  assert (∀ (P : list effect → Prop) (Q : Prop), Q →
            (∃ extra, m = SessionManager.add_effects extra m
                      ∧ (extra = [] ∨ P extra)) ∧ Q) as Hnothing.
  { intros P Q HQ. split; [| done]. exists []. rewrite add_effects_nil.
    split; [done | by left]. }
  destruct (SessionManager.pty m) as [p|] eqn:Hpty.
  2:{ apply Hnothing. done. }
  unfold PTYSession.resize, PTYSession._set_terminal_size.
  destruct (PTYSession.running p) eqn:Hrun; simpl.
  2:{ rewrite add_effects_nil. apply Hnothing.
      split; [| done]. intros ? ? [= <-]. congruence. }
  destruct (PTYSession.master_fd p) as [fd|] eqn:Hfd; simpl.
  2:{ rewrite add_effects_nil. apply Hnothing.
      split; [| done]. intros ? ? [= <-]. congruence. }
  destruct (PTYSession.fits_H rows) eqn:Hrows; simpl.
  2:{ rewrite add_effects_nil. apply Hnothing.
      split; [| done]. intros ? ? _ _ _ Hr%Hfits. congruence. }
  destruct (PTYSession.fits_H cols) eqn:Hcols; simpl.
  2:{ rewrite add_effects_nil. apply Hnothing.
      split; [| done]. intros ? ? _ _ _ _ Hc%Hfits. congruence. }
  destruct (ioctl_ok e) eqn:Hio; simpl.
  2:{ rewrite add_effects_nil. apply Hnothing.
      split; [intros; congruence | done]. }
  apply Hfits in Hrows, Hcols.
  split_and!.
  - eexists. split; [done |]. right. exists p, fd. by split_and!.
  - intros p0 fd0 [= <-] _ Hfd0 _ _ _. rewrite Hfd in Hfd0.
    injection Hfd0 as <-. by eexists.
  - intros [Hn | Hn]; done.
Qed.

Lemma destroy_session_ends_subscriptions_witness :
  SessionManager._output_subscribers
    (SessionManager.destroy_session env_ok
       (SessionManager.run
          [(env_ok, SessionManager.CreateSession "ses_aa11bb22" None true false);
           (env_ok, SessionManager.SubscribeOutput)]
          (SessionManager.init env_ok NoFile))).2 = [].
Proof.
  refine (proj1 (destroy_session_ends_subscriptions env_ok env_ok NoFile
                   [(env_ok, SessionManager.CreateSession "ses_aa11bb22" None
                               true false);
                    (env_ok, SessionManager.SubscribeOutput)]
                   0%nat true _ _ _)).
  - vm_compute. apply list_elem_of_here.
  - vm_compute. reflexivity.
Defined.

(** ** The named tunnel: ingress rules and port mappings *)

Lemma string_app_inv_tail (s1 s2 t : string) : s1 +:+ t = s2 +:+ t → s1 = s2.
Proof.
  revert s2. induction s1 as [|c s1 IH]; intros s2 Heq.
  - apply (f_equal String.length) in Heq. rewrite !string_app_length in Heq.
    simpl in Heq. symmetry. apply string_length_0. lia.
  - destruct s2 as [|c' s2].
    + apply (f_equal String.length) in Heq.
      rewrite !string_app_length in Heq. simpl in Heq. lia.
    + rewrite !string_app_cons in Heq. injection Heq as -> Heq.
      by rewrite (IH s2).
Qed.

Lemma port_hostname_inj (n : Named.t) (p q : Z) :
  Named.port_hostname p n = Named.port_hostname q n → p = q.
Proof.
  unfold Named.port_hostname. intros Heq%string_app_inv_tail.
  by apply pretty_Z_inj.
Qed.

Lemma port_hostname_not_root (n : Named.t) (p : Z) :
  Named.domain n ≠ Named.port_hostname p n.
Proof.
  unfold Named.port_hostname. intros Heq.
  apply (f_equal String.length) in Heq.
  rewrite !string_app_length in Heq. simpl in Heq. lia.
Qed.

Lemma insert_before_last_snoc {A} (x y : A) (l : list A) :
  insert_before_last x (l ++ [y]) = l ++ [x; y].
Proof.
  induction l as [|z l IH]; [done |]. simpl. rewrite IH.
  by destruct l.
Qed.

Lemma dict_get_None_keys {K V} `{EqDecision K} (k : K) (d : list (K * V)) :
  dict_get k d = None ↔ k ∉ dict_keys d.
Proof.
  induction d as [|[k' v] d IH]; simpl.
  - split; [intros _; apply not_elem_of_nil | done].
  - rewrite not_elem_of_cons. destruct (decide (k' = k)) as [->|Hne].
    + split; [done | intros [? _]; done].
    + rewrite IH. split; [by intros ? | by intros [_ ?]].
Qed.

Lemma dict_keys_set_new {K V} `{EqDecision K} (k : K) (v : V) (d : list (K * V)) :
  k ∉ dict_keys d → dict_keys (dict_set k v d) = dict_keys d ++ [k].
Proof.
  induction d as [|[k' v'] d IH]; simpl; [done |].
  intros [Hne Hd]%not_elem_of_cons.
  rewrite decide_False by done. simpl. by rewrite IH.
Qed.

Lemma filter_all {A} (P : A → Prop) `{∀ x, Decision (P x)} (l : list A) :
  (∀ x, x ∈ l → P x) → filter P l = l.
Proof.
  induction l as [|x l IH]; intros Hall; [done |].
  rewrite filter_cons_True by (apply Hall; by left).
  rewrite IH; [done |]. intros y Hy. apply Hall. by right.
Qed.

Lemma dict_keys_del {K V} `{EqDecision K} (k : K) (d : list (K * V)) :
  NoDup (dict_keys d) →
  dict_keys (dict_del k d) = filter (λ k', k' ≠ k) (dict_keys d).
Proof.
  induction d as [|[k' v'] d IH]; simpl; [done |].
  intros [Hk' Hd]%NoDup_cons. rewrite filter_cons.
  destruct (decide (k' = k)) as [->|Hne].
  - rewrite decide_False by (by intros ?).
    symmetry. apply filter_all. intros x Hx ->. done.
  - rewrite decide_True by done. simpl. by rewrite IH.
Qed.

Lemma port_rule_domain (n n' : Named.t) (p : Z) :
  Named.domain n' = Named.domain n → port_rule n' p = port_rule n p.
Proof. unfold port_rule, Named.port_hostname. by intros ->. Qed.

Lemma sighup_frame (n : Named.t) :
  Named.tunnels (Named.sighup n) = Named.tunnels n
  ∧ Named.domain (Named.sighup n) = Named.domain n
  ∧ Named.config_file (Named.sighup n) = Named.config_file n.
Proof. unfold Named.sighup. by destruct (truthy_Z _). Qed.

Lemma ingress_ok_frame (n n' : Named.t) :
  Named.tunnels n' = Named.tunnels n → Named.domain n' = Named.domain n →
  Named.config_file n' = Named.config_file n →
  ingress_ok n → ingress_ok n'.
Proof.
  intros Ht Hd Hc (Hnd & cfg & Hcfg & Hin). unfold ingress_ok.
  rewrite Ht, Hd, Hc. split; [done |]. exists cfg. split; [done |].
  rewrite Hin. do 2 f_equal. apply map_ext. intros p. by apply port_rule_domain.
Qed.

(** What a successful [_add_ingress_rule] leaves. *)
Lemma add_ingress_rule_spec (e : Env) (port : Z) (n : Named.t) :
  match Named._add_ingress_rule e port n with
  | (Ret _, n1) =>
      Named.tunnels n1 = Named.tunnels n
      ∧ Named.domain n1 = Named.domain n
      ∧ Named._tunnel_process n1 = Named._tunnel_process n
      ∧ ∃ cfg, Named.config_file n = Some cfg
               ∧ Named.config_file n1
                 = Some (mkConfig (cfg_tunnel cfg) (cfg_credentials_file cfg)
                           (insert_before_last (port_rule n port) (ingress cfg)))
  | (_, n1) => n1 = n
  end.
Proof.
  unfold Named._add_ingress_rule.
  destruct (Named.config_file n) as [cfg|] eqn:Hcfg; [| done].
  destruct (config_write_ok e); [| done].
  unfold Named.sighup. destruct (truthy_Z _); simpl;
    (split_and!; [done | done | done |]); by exists cfg.
Qed.

Lemma remove_ingress_rule_spec (e : Env) (port : Z) (n : Named.t) :
  match Named._remove_ingress_rule e port n with
  | (Ret _, n1) =>
      Named.tunnels n1 = Named.tunnels n
      ∧ Named.domain n1 = Named.domain n
      ∧ Named._tunnel_process n1 = Named._tunnel_process n
      ∧ ∃ cfg, Named.config_file n = Some cfg
               ∧ Named.config_file n1
                 = Some (mkConfig (cfg_tunnel cfg) (cfg_credentials_file cfg)
                           (filter (λ r, hostname r ≠ Some (Named.port_hostname port n))
                              (ingress cfg)))
  | (_, n1) => n1 = n
  end.
Proof.
  unfold Named._remove_ingress_rule.
  destruct (Named.config_file n) as [cfg|] eqn:Hcfg; [| done].
  destruct (config_write_ok e); [| done].
  unfold Named.sighup. destruct (truthy_Z _); simpl;
    (split_and!; [done | done | done |]); by exists cfg.
Qed.

Lemma ingress_ok_add (e : Env) (port : Z) (n : Named.t) (sm : SessionManager.t) :
  ingress_ok n → ingress_ok (Named.add_port_mapping e port (n, sm)).2.1.
Proof.
  intros Hok. unfold Named.add_port_mapping.
  destruct (negb (SessionManager.has_active_session sm)); [done |].
  destruct (SessionManager.session sm) as [session|]; [| done].
  destruct (dict_get port (Named.tunnels n)) as [tunnel|] eqn:Hget; [done |].
  apply dict_get_None_keys in Hget.
  pose proof (add_ingress_rule_spec e port n) as Hspec.
  destruct (cname e); [| | done];
    (destruct (Named._add_ingress_rule e port n) as [[u| |] n1];
     [| by subst n1 | by subst n1]).
  all: destruct Hspec as (Ht & Hd & _ & cfg & Hcfg & Hcfg1).
  all: destruct Hok as (Hnd & cfg' & Hcfg' & Hin).
  all: rewrite Hcfg in Hcfg'; injection Hcfg' as <-.
  all: unfold ingress_ok; simpl; rewrite Ht, Hd, Hcfg1.
  all: rewrite dict_keys_set_new by done.
  all: split; [apply NoDup_app; split_and!;
               [done | intros x Hx ->%list_elem_of_singleton; done
               | apply NoDup_singleton] |].
  all: eexists; split; [done |]; simpl.
  all: rewrite Hin, app_comm_cons, insert_before_last_snoc, map_app; simpl.
  all: rewrite <- app_assoc; simpl; do 2 f_equal;
       [apply map_ext; intros p; by apply port_rule_domain |].
  all: f_equal; symmetry; by apply port_rule_domain.
Qed.

Lemma filter_port_rules (n : Named.t) (port : Z) (keys : list Z) :
  filter (λ r, hostname r ≠ Some (Named.port_hostname port n))
    (map (port_rule n) keys)
  = map (port_rule n) (filter (λ k, k ≠ port) keys).
Proof.
  induction keys as [|k keys IH]; [done |].
  simpl. destruct (decide (k = port)) as [->|Hne].
  - rewrite (filter_cons_False _ port keys) by (by intros ?).
    rewrite filter_cons_False; [done |].
    intros Hh. by apply Hh.
  - rewrite (filter_cons_True _ k keys) by done.
    rewrite filter_cons_True.
    + simpl. by rewrite IH.
    + simpl. intros [= Heq%port_hostname_inj]. done.
Qed.

Lemma ingress_ok_remove (e : Env) (port : Z) (n : Named.t) (sm : SessionManager.t) :
  ingress_ok n → ingress_ok (Named.remove_port_mapping e port (n, sm)).2.1.
Proof.
  intros Hok. unfold Named.remove_port_mapping.
  destruct (dict_get port (Named.tunnels n)) as [tunnel|] eqn:Hget; [| done].
  pose proof (remove_ingress_rule_spec e port n) as Hspec.
  destruct (Named._remove_ingress_rule e port n) as [[u| |] n1];
    [| by subst n1 | by subst n1].
  destruct Hspec as (Ht & Hd & _ & cfg & Hcfg & Hcfg1).
  destruct Hok as (Hnd & cfg' & Hcfg' & Hin).
  rewrite Hcfg in Hcfg'; injection Hcfg' as <-.
  assert (ingress_ok (Named.set_tunnels (dict_del port (Named.tunnels n1)) n1)).
  { unfold ingress_ok; simpl. rewrite Ht, Hd, Hcfg1.
    rewrite dict_keys_del by done.
    split; [by apply NoDup_filter |].
    eexists; split; [done |]; simpl.
    rewrite Hin, filter_cons_True.
    2:{ simpl. intros [= Heq]. by eapply port_hostname_not_root. }
    rewrite filter_app, filter_port_rules.
    rewrite (filter_cons_True _ (mkRule None _)) by done.
    do 2 f_equal. apply map_ext. intros p. by apply port_rule_domain. }
  by destruct (SessionManager.session sm).
Qed.

Lemma ingress_ok_step (e : Env) (c : Named.call) (st : Named.t * SessionManager.t) :
  ingress_ok st.1 → ingress_ok (Named.step e c st).1.
Proof.
  destruct st as [n sm]. intros Hok. destruct c; simpl.
  - by apply ingress_ok_add.
  - by apply ingress_ok_remove.
  - revert Hok. apply ingress_ok_frame; unfold Named.shutdown;
      by destruct (truthy_Z _).
  - done.
Qed.

Lemma ingress_ok_run (cs : list (Env * Named.call)) (st : Named.t * SessionManager.t) :
  ingress_ok st.1 → ingress_ok (Named.run cs st).1.
Proof.
  revert st. induction cs as [|[e c] cs IH]; intros st Hok; [done |].
  simpl. by apply IH, ingress_ok_step.
Qed.

(** X15.  Once the named tunnel is initialized, the configuration file
    that cloudflared reads always lists the rule of the root domain
    first, then exactly one rule for each mapped port, in the order the
    ports were mapped, and the catch-all rule last, whatever port
    mappings are added and removed, with or without success, and
    whatever happens to the session. *)
Theorem ingress_rules_follow_the_port_mappings (e0 : Env) (name dom : string)
  (id : option string) (n0 : Named.t)
  (cs : list (Env * Named.call)) (sm : SessionManager.t) :
  Named.initialize e0 (Named.new name id dom) = (Ret true, n0) →
  let n := (Named.run cs (n0, sm)).1 in
  NoDup (dict_keys (Named.tunnels n))
  ∧ ∃ cfg,
      Named.config_file n = Some cfg
      ∧ ingress cfg
        = mkRule (Some dom) "http://127.0.0.1:8000"
          :: map (λ port, mkRule (Some (pretty port +:+ "." +:+ dom))
                            ("http://127.0.0.1:" +:+ pretty port))
               (dict_keys (Named.tunnels n))
          ++ [mkRule None "http_status:404"].
Proof.
  intros Hinit n.
  assert (ingress_ok n0 ∧ Named.domain n0 = dom) as [Hok0 Hdom0].
  { revert Hinit. unfold Named.initialize, Named._get_or_create_tunnel; simpl.
    repeat case_match; intros; simplify_eq/=; try done;
      (split; [| done]); (split; [apply NoDup_nil_2 |]); by eexists. }
  assert (∀ cs st, Named.domain (Named.run cs st).1 = Named.domain st.1) as Hdom.
  { clear. intros cs. induction cs as [|[e c] cs IH]; intros [n sm]; [done |].
    simpl. rewrite IH. destruct c; simpl; try done.
    - unfold Named.add_port_mapping.
      pose proof (add_ingress_rule_spec e port n) as Hspec.
      repeat case_match; simplify_eq/=; try done;
        destruct Hspec as (_ & Hd & _); done.
    - unfold Named.remove_port_mapping.
      pose proof (remove_ingress_rule_spec e port n) as Hspec.
      repeat case_match; simplify_eq/=; try done;
        destruct Hspec as (_ & Hd & _); done.
    - unfold Named.shutdown. by destruct (truthy_Z _). }
  destruct (ingress_ok_run cs (n0, sm) Hok0) as (Hnd & cfg & Hcfg & Hin).
  fold n in Hnd, Hcfg, Hin. split; [done |]. exists cfg. split; [done |].
  rewrite Hin. unfold port_rule, Named.port_hostname.
  subst n. rewrite (Hdom cs (n0, sm)). simpl. by rewrite Hdom0.
Qed.

Lemma ingress_rules_follow_the_port_mappings_witness :
  ∃ cfg,
    Named.config_file
      (Named.run [(env_ok, Named.AddPortMapping 3000);
                  (env_ok, Named.AddPortMapping 8080);
                  (env_ok, Named.RemovePortMapping 3000)] named_ready).1
    = Some cfg
    ∧ ingress cfg
      = [mkRule (Some "dev.example.com") "http://127.0.0.1:8000";
         mkRule (Some "8080.dev.example.com") "http://127.0.0.1:8080";
         mkRule None "http_status:404"].
Proof.
  destruct (ingress_rules_follow_the_port_mappings env_ok "cloude"
              "dev.example.com" None named_ready.1
              [(env_ok, Named.AddPortMapping 3000);
               (env_ok, Named.AddPortMapping 8080);
               (env_ok, Named.RemovePortMapping 3000)] named_ready.2 eq_refl)
    as (_ & cfg & Hcfg & Hin).
  exists cfg. split; [exact Hcfg |]. rewrite Hin. vm_compute. reflexivity.
Defined.

Lemma initialize_ingress_ok (e0 : Env) (name dom : string) (id : option string)
  (n0 : Named.t) :
  Named.initialize e0 (Named.new name id dom) = (Ret true, n0) → ingress_ok n0.
Proof.
  unfold Named.initialize, Named._get_or_create_tunnel; simpl.
  repeat case_match; intros; simplify_eq/=; try done;
    (split; [apply NoDup_nil_2 |]); by eexists.
Qed.

Lemma dict_del_set_new {K V} `{EqDecision K} (k : K) (v : V) (d : list (K * V)) :
  k ∉ dict_keys d → dict_del k (dict_set k v d) = d.
Proof.
  induction d as [|[k' v'] d IH]; simpl.
  - intros _. by rewrite decide_True.
  - intros [Hne Hd]%not_elem_of_cons. rewrite decide_False by done. simpl.
    rewrite decide_False by done. by rewrite IH.
Qed.

(** X16.  Removing a port mapping undoes adding it: when a port that was
    not mapped has been added with success and the configuration file
    can be written, [remove_port_mapping] returns true and leaves the
    port table and the configuration file that cloudflared reads as they
    were before the port was added. *)
Theorem remove_port_mapping_undoes_add (e0 e1 e2 : Env) (name dom : string)
  (id : option string) (n0 : Named.t) (cs : list (Env * Named.call))
  (sm0 : SessionManager.t) (port : Z) (tunnel : Tunnel.t)
  (st1 : Named.t * SessionManager.t) :
  Named.initialize e0 (Named.new name id dom) = (Ret true, n0) →
  Named.get_tunnel_for_port port (Named.run cs (n0, sm0)).1 = None →
  Named.add_port_mapping e1 port (Named.run cs (n0, sm0)) = (Ret tunnel, st1) →
  config_write_ok e2 = true →
  ∃ st2, Named.remove_port_mapping e2 port st1 = (Ret true, st2)
    ∧ Named.tunnels st2.1 = Named.tunnels (Named.run cs (n0, sm0)).1
    ∧ Named.config_file st2.1 = Named.config_file (Named.run cs (n0, sm0)).1.
Proof.
  intros Hinit%initialize_ingress_ok.
  pose proof (ingress_ok_run cs (n0, sm0) Hinit) as Hok.
  destruct (Named.run cs (n0, sm0)) as [n sm]. cbn [fst snd] in *.
  unfold Named.get_tunnel_for_port. intros Hget Hadd Hw.
  pose proof (ingress_ok_add e1 port n sm Hok) as Hok1.
  rewrite Hadd in Hok1. destruct st1 as [n1 sm1]. cbn [fst snd] in Hok1.
  assert (Named.tunnels n1 = dict_set port tunnel (Named.tunnels n)
          ∧ Named.domain n1 = Named.domain n
          ∧ ∃ cfg, Named.config_file n = Some cfg
              ∧ cfg_tunnel <$> Named.config_file n1 = Some (cfg_tunnel cfg)
              ∧ cfg_credentials_file <$> Named.config_file n1
                = Some (cfg_credentials_file cfg)) as (Ht1 & Hd1 & cfg & Hcfg & Hct & Hcc).
  { revert Hadd. unfold Named.add_port_mapping. rewrite Hget.
    destruct (negb _); [done |].
    destruct (SessionManager.session sm); [| done].
    pose proof (add_ingress_rule_spec e1 port n) as Hspec.
    destruct (cname e1); [| | done];
      (destruct (Named._add_ingress_rule e1 port n) as [[u| |] n']; [| done | done]);
      intros [= <- <- <-]; destruct Hspec as (Ht & Hd & _ & cfg & Hcfg & Hcfg1);
      simpl; rewrite Ht, Hd, Hcfg1; (split_and!; [done | done |]);
      by exists cfg. }
  clear Hadd.
  destruct (Named.config_file n1) as [cfg1|] eqn:Hcfg1; [| done].
  simpl in Hct, Hcc. injection Hct as Hct. injection Hcc as Hcc.
  pose proof (ingress_ok_remove e2 port n1 sm1 Hok1) as Hok2.
  pose proof (remove_ingress_rule_spec e2 port n1) as Hspec.
  assert (∃ n1', Named._remove_ingress_rule e2 port n1 = (Ret (), n1'))
    as [n1' Hrm].
  { unfold Named._remove_ingress_rule. rewrite Hcfg1, Hw. by eexists. }
  rewrite Hrm in Hspec.
  destruct Hspec as (Ht & Hd & _ & cfg1' & Hc1' & Hcfg2).
  rewrite Hcfg1 in Hc1'. injection Hc1' as <-.
  unfold Named.remove_port_mapping in Hok2 |- *.
  rewrite Ht1, dict_get_set, Hrm in Hok2 |- *.
  set (n2 := Named.set_tunnels (dict_del port (Named.tunnels n1')) n1') in *.
  assert (ingress_ok n2) as (_ & cfg2 & Hc2 & Hin2)
    by (by destruct (SessionManager.session sm1)).
  assert (Named.tunnels n2 = Named.tunnels n) as Htn.
  { subst n2. simpl. rewrite Ht, Ht1.
    apply dict_del_set_new. by apply dict_get_None_keys. }
  assert (Named.config_file n2 = Named.config_file n) as Hcn.
  { destruct Hok as (_ & cfg' & Hc' & Hin). rewrite Hcfg in Hc'.
    injection Hc' as <-. rewrite Hcfg, Hc2. f_equal.
    assert (Named.domain n2 = Named.domain n) as Hdn
      by (subst n2; simpl; by rewrite Hd, Hd1).
    rewrite Htn, Hdn in Hin2.
    assert (cfg_tunnel cfg2 = cfg_tunnel cfg
            ∧ cfg_credentials_file cfg2 = cfg_credentials_file cfg) as [Ha Hb].
    { subst n2. simpl in Hc2. rewrite Hcfg2 in Hc2. injection Hc2 as <-.
      simpl. by rewrite Hct, Hcc. }
    destruct cfg as [ct cc ci], cfg2 as [ct2 cc2 ci2]. simpl in *. subst.
    do 3 f_equal. apply map_ext. intros p. by apply port_rule_domain. }
  destruct (SessionManager.session sm1); eexists; (split; [done |]); by split.
Qed.

Lemma remove_port_mapping_undoes_add_witness :
  ∃ st2,
    Named.remove_port_mapping env_ok 3000
      (Named.add_port_mapping env_ok 3000 named_ready).2
    = (Ret true, st2)
    ∧ Named.tunnels st2.1 = Named.tunnels named_ready.1
    ∧ Named.config_file st2.1 = Named.config_file named_ready.1.
Proof.
  refine (remove_port_mapping_undoes_add env_ok env_ok env_ok "cloude"
            "dev.example.com" None named_ready.1 [] named_ready.2 3000
            (match (Named.add_port_mapping env_ok 3000 named_ready).1 with
             | Ret t => t
             | _ => tunnel_3000 "none"
             end)
            (Named.add_port_mapping env_ok 3000 named_ready).2 _ _ _ _).
  all: vm_compute; reflexivity.
Defined.

(** ** The quick tunnel manager *)

Lemma dict_keys_set_elem {K V} `{EqDecision K} (k : K) (v : V) (d : list (K * V)) x :
  x ∈ dict_keys (dict_set k v d) ↔ x = k ∨ x ∈ dict_keys d.
Proof.
  induction d as [|[k' v'] d IH]; simpl.
  - rewrite list_elem_of_singleton. split; [by left | intros [|Hx]; [done |]].
    by apply elem_of_nil in Hx.
  - destruct (decide (k' = k)) as [->|Hne]; simpl; rewrite !elem_of_cons.
    + tauto.
    + rewrite IH. tauto.
Qed.

Lemma dict_keys_set_NoDup {K V} `{EqDecision K} (k : K) (v : V) (d : list (K * V)) :
  NoDup (dict_keys d) → NoDup (dict_keys (dict_set k v d)).
Proof.
  induction d as [|[k' v'] d IH]; simpl.
  - intros _. apply NoDup_singleton.
  - intros [Hk' Hd]%NoDup_cons.
    destruct (decide (k' = k)) as [->|Hne]; simpl.
    + by apply NoDup_cons.
    + apply NoDup_cons. split; [| by apply IH].
      rewrite dict_keys_set_elem. intros [->|?]; done.
Qed.

Lemma dict_get_del_ne {K V} `{EqDecision K} (k k' : K) (d : list (K * V)) :
  k ≠ k' → dict_get k' (dict_del k d) = dict_get k' d.
Proof.
  intros Hne. induction d as [|[k0 v0] d IH]; simpl; [done |].
  destruct (decide (k0 = k)) as [->|Hne0].
  - by rewrite decide_False.
  - simpl. by rewrite IH.
Qed.

Lemma dict_get_is_Some {K V} `{EqDecision K} (k : K) (d : list (K * V)) :
  is_Some (dict_get k d) ↔ k ∈ dict_keys d.
Proof.
  destruct (dict_get k d) eqn:Hg.
  - split; [intros _ | by eexists].
    destruct (decide (k ∈ dict_keys d)) as [|Hn]; [done |].
    apply dict_get_None_keys in Hn. congruence.
  - apply dict_get_None_keys in Hg. split; [by intros [? [=]] | done].
Qed.

Lemma dict_keys_nil {K V} (d : list (K * V)) : dict_keys d = [] → d = [].
Proof. by destruct d. Qed.

Lemma quick_ok_create (e : Env) (port : Z) (tid : option string)
  (q : Quick.t) (sm : SessionManager.t) :
  quick_ok q → quick_ok (Quick.create_tunnel e port tid (q, sm)).2.1.
Proof.
  intros (Ht & Hp & Hsub). unfold Quick.create_tunnel.
  repeat case_match; simpl; try done; unfold quick_ok; simpl;
    split_and!; try done; try (by apply dict_keys_set_NoDup);
    intros k; rewrite ?dict_keys_set_elem; naive_solver.
Qed.

Lemma destroy_tunnel_spec (e : Env) (tid : string) (q : Quick.t)
  (sm : SessionManager.t) :
  quick_ok q → tid ∈ dict_keys (Quick.tunnels q) →
  let q' := (Quick.destroy_tunnel e tid (q, sm)).2.1 in
  dict_keys (Quick.tunnels q') = filter (λ k, k ≠ tid) (dict_keys (Quick.tunnels q))
  ∧ dict_keys (Quick._tunnel_processes q')
    = filter (λ k, k ≠ tid) (dict_keys (Quick._tunnel_processes q))
  ∧ (∀ k, k ≠ tid →
       dict_get k (Quick._tunnel_processes q') = dict_get k (Quick._tunnel_processes q))
  ∧ ∃ sigs, Quick.signals q' = Quick.signals q ++ sigs
      ∧ ∀ cpid, dict_get tid (Quick._tunnel_processes q) = Some cpid →
                poll_exited e cpid = false → OsKill cpid SIGTERM ∈ sigs.
Proof.
  intros (Ht & Hp & Hsub) [tunnel Hget]%dict_get_is_Some.
  unfold Quick.destroy_tunnel. rewrite Hget.
  destruct (dict_get tid (Quick._tunnel_processes q)) as [cpid|] eqn:Hproc; simpl.
  - split_and!; [by apply dict_keys_del | by apply dict_keys_del | |].
    + intros k Hk. by apply dict_get_del_ne.
    + eexists; split; [done |]. intros ? [= <-] ->. apply list_elem_of_here.
  - split_and!; [by apply dict_keys_del | | done |].
    + symmetry. apply filter_all. intros k Hk ->.
      by apply dict_get_None_keys in Hproc.
    + exists []. by rewrite app_nil_r.
Qed.

Lemma destroy_tunnel_missing (e : Env) (tid : string) (q : Quick.t)
  (sm : SessionManager.t) :
  tid ∉ dict_keys (Quick.tunnels q) →
  Quick.destroy_tunnel e tid (q, sm)
  = (Raise (ValueError "Tunnel not found"), (q, sm)).
Proof.
  intros Hn%dict_get_None_keys. unfold Quick.destroy_tunnel. by rewrite Hn.
Qed.

Lemma quick_ok_destroy (e : Env) (tid : string) (q : Quick.t)
  (sm : SessionManager.t) :
  quick_ok q → quick_ok (Quick.destroy_tunnel e tid (q, sm)).2.1.
Proof.
  intros Hok. destruct (decide (tid ∈ dict_keys (Quick.tunnels q))) as [Hin|Hn].
  - destruct (destroy_tunnel_spec e tid q sm Hok Hin) as (Ht' & Hp' & _).
    destruct Hok as (Ht & Hp & Hsub). unfold quick_ok.
    rewrite Ht', Hp'. split_and!; [by apply NoDup_filter | by apply NoDup_filter |].
    intros k. rewrite !list_elem_of_filter. naive_solver.
  - by rewrite destroy_tunnel_missing.
Qed.

Lemma destroy_each_spec (e : Env) (ids : list string) :
  ∀ (q : Quick.t) (sm : SessionManager.t),
  quick_ok q →
  let q' := (Quick.destroy_each e ids (q, sm)).1 in
  quick_ok q'
  ∧ dict_keys (Quick.tunnels q')
    = filter (λ k, k ∉ ids) (dict_keys (Quick.tunnels q))
  ∧ dict_keys (Quick._tunnel_processes q')
    = filter (λ k, k ∉ ids) (dict_keys (Quick._tunnel_processes q))
  ∧ ∃ sigs, Quick.signals q' = Quick.signals q ++ sigs
      ∧ ∀ k cpid, k ∈ ids →
          dict_get k (Quick._tunnel_processes q) = Some cpid →
          poll_exited e cpid = false → OsKill cpid SIGTERM ∈ sigs.
Proof.
  induction ids as [|i ids IH]; intros q sm Hok.
  - simpl. split_and!; [done | | |].
    + symmetry. apply filter_all. intros ? _. apply not_elem_of_nil.
    + symmetry. apply filter_all. intros ? _. apply not_elem_of_nil.
    + exists []. split; [by rewrite app_nil_r |]. intros ?? []%elem_of_nil.
  - cbn [Quick.destroy_each].
    destruct (Quick.destroy_tunnel e i (q, sm)) as [r [q1 sm1]] eqn:Hd.
    cbn [fst snd].
    assert (quick_ok q1) as Hok1.
    { pose proof (quick_ok_destroy e i q sm Hok) as H1. by rewrite Hd in H1. }
    destruct (IH q1 sm1 Hok1) as (Hok' & Ht' & Hp' & sigs' & Hs' & Hk').
    assert (∀ l : list string,
              filter (λ k, k ∉ ids) (filter (λ k, k ≠ i) l)
              = filter (λ k, k ∉ i :: ids) l) as Hff.
    { intros l. rewrite list_filter_filter. apply list_filter_iff.
      intros k. rewrite not_elem_of_cons. tauto. }
    destruct (decide (i ∈ dict_keys (Quick.tunnels q))) as [Hin|Hn].
    + destruct (destroy_tunnel_spec e i q sm Hok Hin) as (Ht1 & Hp1 & Hg1 & sigs1 & Hs1 & Hk1).
      rewrite Hd in Ht1, Hp1, Hg1, Hs1. cbn [fst snd] in Ht1, Hp1, Hg1, Hs1.
      split_and!; [done | by rewrite Ht', Ht1, Hff | by rewrite Hp', Hp1, Hff |].
      exists (sigs1 ++ sigs'). split; [by rewrite Hs', Hs1, app_assoc |].
      intros k cpid Hk Hget Hlive. rewrite elem_of_app.
      destruct (decide (k = i)) as [->|Hne]; [left; by apply Hk1 |].
      right. apply (Hk' k); [| by rewrite Hg1 | done].
      apply elem_of_cons in Hk as [|]; done.
    + rewrite destroy_tunnel_missing in Hd by done. simplify_eq.
      destruct Hok as (Htd & Hpd & Hsub).
      assert (∀ l : list string, i ∉ l →
                filter (λ k, k ∉ ids) l = filter (λ k, k ∉ i :: ids) l) as Hfi.
      { clear. induction l as [|k l IHl]; intros Hl; [done |].
        apply not_elem_of_cons in Hl as [Hne Hl].
        rewrite !filter_cons, IHl by done.
        destruct (decide (k ∉ ids)) as [Hk|Hk].
        - rewrite decide_True; [done |]. rewrite not_elem_of_cons. by split.
        - rewrite decide_False; [done |]. rewrite not_elem_of_cons. tauto. }
      split_and!; [done | by rewrite Ht', Hfi | |].
      * rewrite Hp', Hfi; [done |]. intros ?. by apply Hn, Hsub.
      * exists sigs'. split; [done |]. intros k cpid Hk Hget Hlive.
        apply (Hk' k); [| done | done]. apply elem_of_cons in Hk as [->|]; [| done].
        exfalso. apply Hn, Hsub. apply dict_get_is_Some. by eexists.
Qed.

Lemma quick_ok_health (e : Env) (tid : string) (q : Quick.t)
  (sm : SessionManager.t) :
  quick_ok q → quick_ok (Quick.health_check e tid (q, sm)).2.1.
Proof.
  intros (Ht & Hp & Hsub). unfold Quick.health_check.
  repeat case_match; simpl; try done; unfold quick_ok; simpl.
  split_and!; [by apply dict_keys_set_NoDup | done |].
  intros k Hk. rewrite dict_keys_set_elem. right. by apply Hsub.
Qed.

Lemma quick_ok_step (e : Env) (c : Quick.call) (st : Quick.t * SessionManager.t) :
  quick_ok st.1 → quick_ok (Quick.step e c st).1.
Proof.
  destruct st as [q sm]. intros Hok. destruct c; simpl.
  - by apply quick_ok_create.
  - by apply quick_ok_destroy.
  - by apply (destroy_each_spec e _ q sm).
  - by apply quick_ok_health.
  - done.
Qed.

Lemma quick_ok_run (cs : list (Env * Quick.call)) (st : Quick.t * SessionManager.t) :
  quick_ok st.1 → quick_ok (Quick.run cs st).1.
Proof.
  revert st. induction cs as [|[e c] cs IH]; intros st Hok; [done |].
  simpl. by apply IH, quick_ok_step.
Qed.

Lemma session_save (e : Env) (m : SessionManager.t) :
  SessionManager.session (SessionManager._save_session_metadata e m)
  = SessionManager.session m.
Proof.
  unfold SessionManager._save_session_metadata. by repeat case_match.
Qed.

Lemma destroy_each_session (e : Env) (ids : list string) :
  ∀ (q : Quick.t) (sm : SessionManager.t) (s' : Session.t),
  quick_ok q →
  SessionManager.session (Quick.destroy_each e ids (q, sm)).2 = Some s' →
  ∃ s, SessionManager.session sm = Some s
    ∧ ∀ x, x ∈ Session.tunnels s' →
        x ∈ Session.tunnels s
        ∧ ∀ k, k ∈ ids → k ∈ dict_keys (Quick.tunnels q) → Tunnel.id x ≠ k.
Proof.
  induction ids as [|i ids IH]; intros q sm s' Hok Hs'.
  - exists s'. split; [done |]. intros x Hx. split; [done |].
    by intros k []%elem_of_nil.
  - cbn [Quick.destroy_each] in Hs'.
    destruct (decide (i ∈ dict_keys (Quick.tunnels q))) as [Hin|Hn].
    + pose proof (quick_ok_destroy e i q sm Hok) as Hok1.
      pose proof (destroy_tunnel_spec e i q sm Hok Hin) as (Ht1 & _).
      destruct (Quick.destroy_tunnel e i (q, sm)) as [r [q1 sm1]] eqn:Hd.
      cbn [fst snd] in Hs', Hok1, Ht1.
      destruct (IH q1 sm1 s' Hok1 Hs') as (s1 & Hs1 & Hx1).
      assert (∃ s, SessionManager.session sm = Some s
                ∧ Session.tunnels s1
                  = filter (λ x, Tunnel.id x ≠ i) (Session.tunnels s))
        as (s & Hs & Hts).
      { revert Hd. unfold Quick.destroy_tunnel.
        apply dict_get_is_Some in Hin as [tunnel ->].
        destruct (dict_get i (Quick._tunnel_processes q));
          destruct (SessionManager.session sm) as [s|] eqn:Hsm;
          intros [= _ _ <-]; try (rewrite Hsm in Hs1; done);
          rewrite session_save in Hs1; simpl in Hs1;
          injection Hs1 as <-; by eexists. }
      exists s. split; [done |]. intros x Hx.
      destruct (Hx1 x Hx) as [Hxs1 Hne]. rewrite Hts in Hxs1.
      apply list_elem_of_filter in Hxs1 as [Hxi Hxs]. split; [done |].
      intros k [->|Hk]%elem_of_cons Hkq; [done |].
      destruct (decide (k = i)) as [->|Hki]; [done |].
      apply Hne; [done |]. rewrite Ht1. by apply list_elem_of_filter.
    + rewrite destroy_tunnel_missing in Hs' by done. cbn [snd] in Hs'.
      destruct (IH q sm s' Hok Hs') as (s & Hs & Hx). exists s. split; [done |].
      intros x Hxs. destruct (Hx x Hxs) as [? Hne]. split; [done |].
      intros k [->|Hk]%elem_of_cons Hkq; [done |]. by apply Hne.
Qed.

Lemma quick_ok_new : quick_ok Quick.new.
Proof.
  unfold quick_ok; simpl.
  split_and!; [apply NoDup_nil_2 | apply NoDup_nil_2 | done].
Qed.

Lemma destroy_each_all_empty (e : Env) (q : Quick.t) (sm : SessionManager.t) :
  quick_ok q →
  Quick.tunnels (Quick.destroy_each e (dict_keys (Quick.tunnels q)) (q, sm)).1 = []
  ∧ Quick._tunnel_processes
      (Quick.destroy_each e (dict_keys (Quick.tunnels q)) (q, sm)).1 = [].
Proof.
  intros Hok.
  destruct (destroy_each_spec e (dict_keys (Quick.tunnels q)) q sm Hok)
    as (_ & Ht & Hp & _).
  assert (∀ l : list string,
            (∀ k, k ∈ l → k ∈ dict_keys (Quick.tunnels q)) →
            filter (λ k, k ∉ dict_keys (Quick.tunnels q)) l = []) as Hnil.
  { induction l as [|k l IHl]; intros Hl; [done |].
    rewrite filter_cons_False by (intros Hk0; apply Hk0, Hl; by left).
    apply IHl. intros k' ?. apply Hl. by right. }
  split; apply dict_keys_nil.
  - rewrite Ht. by apply Hnil.
  - rewrite Hp. apply Hnil, Hok.
Qed.

(** ** The tunnel manager with its await *)

Lemma dict_values_set_elem {K V} `{EqDecision K} (k : K) (v : V)
  (d : list (K * V)) (x : V) :
  x ∈ map snd (dict_set k v d) → x = v ∨ x ∈ map snd d.
Proof.
  induction d as [|[k' v'] d IH]; simpl.
  - intros ->%list_elem_of_singleton. by left.
  - destruct (decide (k' = k)) as [->|Hne]; simpl; rewrite !elem_of_cons.
    + intros [->|?]; [by left | by right; right].
    + intros [->|Hx]; [by right; left |].
      destruct (IH Hx); [by left | by right; right].
Qed.

Lemma dict_values_set_new {K V} `{EqDecision K} (k : K) (v : V)
  (d : list (K * V)) :
  v ∈ map snd (dict_set k v d).
Proof.
  induction d as [|[k' v'] d IH]; simpl; [apply list_elem_of_here |].
  destruct (decide (k' = k)); simpl; [apply list_elem_of_here | by right].
Qed.

Lemma dict_values_set_NoDup {K V} `{EqDecision K} (k : K) (v : V)
  (d : list (K * V)) :
  v ∉ map snd d → NoDup (map snd d) → NoDup (map snd (dict_set k v d)).
Proof.
  induction d as [|[k' v'] d IH]; simpl.
  - intros _ _. apply NoDup_singleton.
  - intros [Hne Hv]%not_elem_of_cons [Hv' Hd]%NoDup_cons.
    destruct (decide (k' = k)) as [->|Hk]; simpl.
    + by apply NoDup_cons.
    + apply NoDup_cons. split; [| by apply IH].
      intros [->|?]%dict_values_set_elem; done.
Qed.

Lemma dict_values_del_sublist {K V} `{EqDecision K} (k : K) (d : list (K * V)) :
  map snd (dict_del k d) `sublist_of` map snd d.
Proof.
  induction d as [|[k' v'] d IH]; simpl; [done |].
  destruct (decide (k' = k)); simpl; [by apply sublist_cons | by apply sublist_skip].
Qed.

Lemma dict_get_values {K V} `{EqDecision K} (k : K) (v : V) (d : list (K * V)) :
  dict_get k d = Some v → v ∈ map snd d.
Proof.
  induction d as [|[k' v'] d IH]; simpl; [done |].
  destruct (decide (k' = k)); [intros [= ->]; apply list_elem_of_here |].
  intros ?. right. by apply IH.
Qed.

Lemma obj_alter_eq (f : Tunnel.t → Tunnel.t) (r : nat) (l : list Tunnel.t) :
  alter f r l !! r = f <$> l !! r.
Proof. rewrite list_lookup_alter. by rewrite decide_True. Qed.

Lemma obj_alter_ne (f : Tunnel.t → Tunnel.t) (r r' : nat) (l : list Tunnel.t) :
  r' ≠ r → alter f r l !! r' = l !! r'.
Proof. intros ?. rewrite list_lookup_alter. by rewrite decide_False. Qed.

Lemma tm_ok_new : tm_ok TunnelManager.new.
Proof.
  unfold tm_ok, on_record; simpl.
  split_and!; try apply NoDup_nil_2; try done; set_solver.
Qed.

(** A field of an object is assigned: nothing moves. *)
Lemma tm_ok_update (r : nat) (f : Tunnel.t → Tunnel.t) (st : TunnelManager.t) :
  (r ∈ TunnelManager.waiting st →
   ∀ x, Tunnel.status (f x) ≠ T_ACTIVE) →
  tm_ok st → tm_ok (TunnelManager.update r f st).
Proof.
  intros Hf (Ht & Hp & Hsub & Hrec & Hwait & Hnd & Hact).
  unfold tm_ok, on_record in *; simpl.
  rewrite length_alter. split_and!; try done.
  intros r' x Hr'. destruct (decide (r' = r)) as [->|Hne].
  - rewrite obj_alter_eq. destruct (TunnelManager.objects st !! r);
      simpl; [| done]. intros [= <-]. by apply Hf.
  - rewrite obj_alter_ne by done. by apply Hact.
Qed.

Lemma tm_ok_begin (e : Env) (sm : SessionManager.t) (port : Z)
  (tid : option string) (st : TunnelManager.t) :
  tm_ok st → tm_ok (TunnelManager.create_begin e sm port tid st).2.
Proof.
  intros Hok. unfold TunnelManager.create_begin.
  destruct (negb _); [done |].
  destruct (SessionManager.session sm) as [session|]; [| done].
  destruct (find _ _); [done |].
  set (k := if truthy_str tid then default "" tid else Quick.gen_id e port).
  set (r := length (TunnelManager.objects st)).
  set (tunnel := Tunnel.mk k (Session.id session) port "" (now e) T_CREATING None).
  destruct Hok as (Ht & Hp & Hsub & Hrec & Hwait & Hnd & Hact).
  assert (r ∉ on_record st) as Hfresh.
  { intros Hr%Hrec. unfold r in Hr. lia. }
  assert (r ∉ TunnelManager.waiting st) as Hfresh'.
  { intros Hr%Hwait. unfold r in Hr. lia. }
  assert (tm_ok (TunnelManager.mk (TunnelManager.objects st ++ [tunnel])
                   (dict_set k r (TunnelManager.tunnels st))
                   (TunnelManager._tunnel_processes st)
                   (TunnelManager.waiting st) (TunnelManager.signals st)
                   (TunnelManager.session_calls st))) as Hok1.
  { unfold tm_ok, on_record in *; simpl. rewrite length_app; simpl.
    split_and!.
    - by apply dict_keys_set_NoDup.
    - done.
    - intros k' Hk'. rewrite dict_keys_set_elem. right. by apply Hsub.
    - intros r' [->|Hr']%dict_values_set_elem; [unfold r; lia |].
      specialize (Hrec r' Hr'). lia.
    - intros r' Hr'. specialize (Hwait r' Hr'). lia.
    - by apply dict_values_set_NoDup.
    - intros r' x Hr' Hx. apply (Hact r' x Hr').
      rewrite lookup_app_l in Hx; [done |]. by apply Hwait. }
  destruct (popen e) as [cpid|]; simpl.
  - destruct Hok1 as (Ht1 & Hp1 & Hsub1 & Hrec1 & Hwait1 & Hnd1 & Hact1).
    unfold tm_ok, on_record in *; simpl in *. rewrite length_alter.
    split_and!; try done.
    + by apply dict_keys_set_NoDup.
    + intros k' [->|Hk']%dict_keys_set_elem; rewrite dict_keys_set_elem;
        [by left | right; by apply Hsub].
    + intros r' [->%elem_of_singleton|Hr']%elem_of_union; [| by apply Hwait1].
      rewrite length_app; simpl. unfold r. lia.
    + intros r' x [->%elem_of_singleton|Hr']%elem_of_union.
      * rewrite obj_alter_eq. unfold r. rewrite list_lookup_middle by done.
        simpl. by intros [= <-].
      * rewrite obj_alter_ne by (by intros ->). by apply Hact1.
  - apply tm_ok_update; [| done]. intros _ x. done.
Qed.

Lemma tm_ok_finish (e : Env) (r : nat) (st : TunnelManager.t) :
  tm_ok st → tm_ok (TunnelManager.create_finish e r st).2.
Proof.
  intros Hok. unfold TunnelManager.create_finish.
  destruct (decide (r ∈ TunnelManager.waiting st)) as [Hr|]; [| done].
  assert (tm_ok (TunnelManager.mk (TunnelManager.objects st)
                   (TunnelManager.tunnels st)
                   (TunnelManager._tunnel_processes st)
                   (TunnelManager.waiting st ∖ {[r]}) (TunnelManager.signals st)
                   (TunnelManager.session_calls st))) as Hok1.
  { destruct Hok as (Ht & Hp & Hsub & Hrec & Hwait & Hnd & Hact).
    unfold tm_ok, on_record in *; simpl. split_and!; try done.
    - intros r' Hr'. apply Hwait. set_solver.
    - intros r' x Hr'. apply Hact. set_solver. }
  destruct (truthy_str (tunnel_url e)).
  - match goal with
    | |- tm_ok (match ?o with _ => _ end).2 => destruct o eqn:Hobj
    end; [| done]. simpl.
    eapply (tm_ok_update r _ _) in Hok1;
      [| simpl; intros [_ Hn]%elem_of_difference; exfalso; apply Hn;
         by apply elem_of_singleton].
    destruct Hok1 as (Ht & Hp & Hsub & Hrec & Hwait & Hnd & Hact).
    unfold tm_ok, on_record in *; simpl in *. split_and!; done.
  - simpl. apply tm_ok_update; [| done]. intros _ x. done.
Qed.

Lemma tm_ok_destroy (e : Env) (sm : SessionManager.t) (tid : string)
  (st : TunnelManager.t) :
  tm_ok st → tm_ok (TunnelManager.destroy_tunnel e sm tid st).2.
Proof.
  intros Hok. unfold TunnelManager.destroy_tunnel.
  destruct (dict_get tid (TunnelManager.tunnels st)) as [r|] eqn:Hget; [| done].
  destruct Hok as (Ht & Hp & Hsub & Hrec & Hwait & Hnd & Hact).
  assert (∀ procs sigs,
            (procs = dict_del tid (TunnelManager._tunnel_processes st)
             ∨ (procs = TunnelManager._tunnel_processes st
                ∧ dict_get tid (TunnelManager._tunnel_processes st) = None)) →
            tm_ok (TunnelManager.mk
                     (alter (Tunnel.set_status T_STOPPED) r (TunnelManager.objects st))
                     (dict_del tid (TunnelManager.tunnels st)) procs
                     (TunnelManager.waiting st)
                     (TunnelManager.signals st ++ sigs)
                     (TunnelManager.session_calls st
                      ++ match SessionManager.session sm with
                         | Some _ => [TunnelManager.TunnelsRemove tid;
                                      TunnelManager.SaveSessionMetadata]
                         | None => []
                         end))) as Hgen.
  { intros procs sigs Hprocs. unfold tm_ok, on_record; simpl.
    rewrite length_alter, dict_keys_del by done.
    assert (dict_keys procs
            = filter (λ k', k' ≠ tid)
                (dict_keys (TunnelManager._tunnel_processes st))) as ->.
    { destruct Hprocs as [->|[-> Hnone]]; [by apply dict_keys_del |].
      symmetry. apply filter_all. intros k Hk ->.
      by apply dict_get_None_keys in Hnone. }
    split_and!.
    - by apply NoDup_filter.
    - by apply NoDup_filter.
    - intros k. rewrite !list_elem_of_filter. naive_solver.
    - intros r' Hr'. apply Hrec.
      eapply elem_of_sublist; [done | apply dict_values_del_sublist].
    - done.
    - eapply sublist_NoDup; [done | apply dict_values_del_sublist].
    - intros r' x Hr'. destruct (decide (r' = r)) as [->|Hne].
      + rewrite obj_alter_eq. destruct (TunnelManager.objects st !! r);
          simpl; [| done]. by intros [= <-].
      + rewrite obj_alter_ne by done. by apply Hact. }
  destruct (dict_get tid (TunnelManager._tunnel_processes st)) eqn:Hproc;
    simpl; apply Hgen; [by left | by right].
Qed.

Lemma tm_ok_destroy_each (e : Env) (sm : SessionManager.t) (ids : list string) :
  ∀ st, tm_ok st → tm_ok (TunnelManager.destroy_each e sm ids st).
Proof.
  induction ids as [|i ids IH]; intros st Hok; [done |].
  simpl. by apply IH, tm_ok_destroy.
Qed.

Lemma tm_ok_health (e : Env) (tid : string) (st : TunnelManager.t) :
  tm_ok st → tm_ok (TunnelManager.health_check e tid st).2.
Proof.
  intros Hok. unfold TunnelManager.health_check.
  destruct (dict_get tid (TunnelManager.tunnels st)); [| done].
  destruct (dict_get tid (TunnelManager._tunnel_processes st)); [| done].
  destruct (poll_exited e _); [| done]. simpl.
  apply tm_ok_update; [| done]. intros _ x. done.
Qed.

Lemma tm_ok_step (e : Env) (sm : SessionManager.t) (c : TunnelManager.call)
  (st : TunnelManager.t) :
  tm_ok st → tm_ok (TunnelManager.step e sm c st).
Proof.
  intros Hok. destruct c; simpl.
  - by apply tm_ok_begin.
  - by apply tm_ok_finish.
  - by apply tm_ok_destroy.
  - by apply tm_ok_destroy_each.
  - by apply tm_ok_health.
Qed.

Lemma tm_ok_run (cs : list (Env * SessionManager.t * TunnelManager.call)) :
  ∀ st, tm_ok st → tm_ok (TunnelManager.run cs st).
Proof.
  induction cs as [|[[e sm] c] cs IH]; intros st Hok; [done |].
  simpl. by apply IH, tm_ok_step.
Qed.

Lemma tm_destroy_tunnel_spec (e : Env) (sm : SessionManager.t) (tid : string)
  (st : TunnelManager.t) :
  tm_ok st → tid ∈ dict_keys (TunnelManager.tunnels st) →
  let st' := (TunnelManager.destroy_tunnel e sm tid st).2 in
  dict_keys (TunnelManager.tunnels st')
  = filter (λ k, k ≠ tid) (dict_keys (TunnelManager.tunnels st))
  ∧ dict_keys (TunnelManager._tunnel_processes st')
    = filter (λ k, k ≠ tid) (dict_keys (TunnelManager._tunnel_processes st))
  ∧ (∀ k, k ≠ tid →
       dict_get k (TunnelManager._tunnel_processes st')
       = dict_get k (TunnelManager._tunnel_processes st))
  ∧ TunnelManager.waiting st' = TunnelManager.waiting st
  ∧ ∃ sigs, TunnelManager.signals st' = TunnelManager.signals st ++ sigs
      ∧ (∀ cpid, dict_get tid (TunnelManager._tunnel_processes st) = Some cpid →
                 poll_exited e cpid = false → OsKill cpid SIGTERM ∈ sigs)
      ∧ (∀ ef, ef ∈ sigs →
           ∃ cpid, dict_get tid (TunnelManager._tunnel_processes st) = Some cpid
                   ∧ poll_exited e cpid = false
                   ∧ (ef = OsKill cpid SIGTERM ∨ ef = OsKill cpid SIGKILL)).
Proof.
  intros (Ht & Hp & Hsub & _) [r Hget]%dict_get_is_Some.
  unfold TunnelManager.destroy_tunnel. rewrite Hget.
  destruct (dict_get tid (TunnelManager._tunnel_processes st)) as [cpid|] eqn:Hproc;
    simpl.
  - split_and!; [by apply dict_keys_del | by apply dict_keys_del | | done |].
    + intros k Hk. by apply dict_get_del_ne.
    + eexists; split; [done |]. split.
      * intros ? [= <-] ->. apply list_elem_of_here.
      * intros ef Hef. exists cpid. destruct (poll_exited e cpid);
          [by apply elem_of_nil in Hef |].
        split_and!; [done | done |].
        apply elem_of_cons in Hef as [->|Hef]; [by left |].
        destruct (wait_times_out e); [| by apply elem_of_nil in Hef].
        apply list_elem_of_singleton in Hef. by right.
  - split_and!; [by apply dict_keys_del | | done | done |].
    + symmetry. apply filter_all. intros k Hk ->.
      by apply dict_get_None_keys in Hproc.
    + exists []. rewrite app_nil_r. split_and!; [done | done |].
      by intros ef []%elem_of_nil.
Qed.

Lemma tm_destroy_tunnel_missing (e : Env) (sm : SessionManager.t) (tid : string)
  (st : TunnelManager.t) :
  tid ∉ dict_keys (TunnelManager.tunnels st) →
  (TunnelManager.destroy_tunnel e sm tid st).2 = st.
Proof.
  intros Hn%dict_get_None_keys. unfold TunnelManager.destroy_tunnel.
  by rewrite Hn.
Qed.

Lemma filter_notin_cons (i : string) (ids l : list string) :
  i ∉ l → filter (λ k, k ∉ ids) l = filter (λ k, k ∉ i :: ids) l.
Proof.
  induction l as [|k l IHl]; intros Hl; [done |].
  apply not_elem_of_cons in Hl as [Hne Hl].
  rewrite !filter_cons, IHl by done.
  destruct (decide (k ∉ ids)) as [Hk|Hk].
  - rewrite decide_True; [done |]. rewrite not_elem_of_cons. by split.
  - rewrite decide_False; [done |]. rewrite not_elem_of_cons. tauto.
Qed.

Lemma filter_filter_notin (i : string) (ids l : list string) :
  filter (λ k, k ∉ ids) (filter (λ k, k ≠ i) l) = filter (λ k, k ∉ i :: ids) l.
Proof.
  rewrite list_filter_filter. apply list_filter_iff.
  intros k. rewrite not_elem_of_cons. tauto.
Qed.

Lemma filter_own_keys (keys l : list string) :
  (∀ k, k ∈ l → k ∈ keys) → filter (λ k, k ∉ keys) l = [].
Proof.
  induction l as [|k l IHl]; intros Hl; [done |].
  rewrite filter_cons_False by (intros Hk0; apply Hk0, Hl; by left).
  apply IHl. intros k' ?. apply Hl. by right.
Qed.

Lemma tm_destroy_each_spec (e : Env) (sm : SessionManager.t) (ids : list string) :
  ∀ st : TunnelManager.t,
  tm_ok st →
  let st' := TunnelManager.destroy_each e sm ids st in
  dict_keys (TunnelManager.tunnels st')
  = filter (λ k, k ∉ ids) (dict_keys (TunnelManager.tunnels st))
  ∧ dict_keys (TunnelManager._tunnel_processes st')
    = filter (λ k, k ∉ ids) (dict_keys (TunnelManager._tunnel_processes st))
  ∧ TunnelManager.waiting st' = TunnelManager.waiting st
  ∧ ∃ sigs, TunnelManager.signals st' = TunnelManager.signals st ++ sigs
      ∧ (∀ k cpid, k ∈ ids →
           dict_get k (TunnelManager._tunnel_processes st) = Some cpid →
           poll_exited e cpid = false → OsKill cpid SIGTERM ∈ sigs)
      ∧ (∀ ef, ef ∈ sigs →
           ∃ k cpid, dict_get k (TunnelManager._tunnel_processes st) = Some cpid
                     ∧ poll_exited e cpid = false
                     ∧ (ef = OsKill cpid SIGTERM ∨ ef = OsKill cpid SIGKILL)).
Proof.
  induction ids as [|i ids IH]; intros st Hok.
  - simpl. split_and!; [| | done |].
    + symmetry. apply filter_all. intros ? _. apply not_elem_of_nil.
    + symmetry. apply filter_all. intros ? _. apply not_elem_of_nil.
    + exists []. rewrite app_nil_r. split_and!; [done | |].
      * by intros ?? []%elem_of_nil.
      * by intros ? []%elem_of_nil.
  - cbn [TunnelManager.destroy_each].
    pose proof (tm_ok_destroy e sm i st Hok) as Hok1.
    destruct (decide (i ∈ dict_keys (TunnelManager.tunnels st))) as [Hin|Hn].
    + destruct (tm_destroy_tunnel_spec e sm i st Hok Hin)
        as (Ht1 & Hp1 & Hg1 & Hw1 & sigs1 & Hs1 & Hk1 & Hef1).
      set (st1 := (TunnelManager.destroy_tunnel e sm i st).2) in *.
      destruct (IH st1 Hok1) as (Ht' & Hp' & Hw' & sigs' & Hs' & Hk' & Hef').
      split_and!.
      * by rewrite Ht', Ht1, filter_filter_notin.
      * by rewrite Hp', Hp1, filter_filter_notin.
      * by rewrite Hw', Hw1.
      * exists (sigs1 ++ sigs'). split; [by rewrite Hs', Hs1, app_assoc |]. split.
        -- intros k cpid Hk Hget Hlive. rewrite elem_of_app.
           destruct (decide (k = i)) as [->|Hne]; [left; by apply Hk1 |].
           right. apply (Hk' k); [| by rewrite Hg1 | done].
           apply elem_of_cons in Hk as [|]; done.
        -- intros ef [Hef|Hef]%elem_of_app.
           ++ destruct (Hef1 ef Hef) as (cpid & ? & ? & ?). by exists i, cpid.
           ++ destruct (Hef' ef Hef) as (k & cpid & Hget & ? & ?).
              exists k, cpid. split_and!; [| done | done].
              destruct (decide (k = i)) as [->|Hne]; [| by rewrite <- Hg1].
              exfalso. assert (i ∈ dict_keys (TunnelManager._tunnel_processes st1))
                as Hi by (apply dict_get_is_Some; by eexists).
              rewrite Hp1 in Hi. apply list_elem_of_filter in Hi as [Hi _]. done.
    + rewrite tm_destroy_tunnel_missing by done.
      destruct (IH st Hok) as (Ht' & Hp' & Hw' & sigs' & Hs' & Hk' & Hef').
      destruct Hok as (Htd & Hpd & Hsub & _).
      split_and!; [by rewrite Ht', (filter_notin_cons i) | | done |].
      * rewrite Hp', (filter_notin_cons i); [done |]. intros ?. by apply Hn, Hsub.
      * exists sigs'. split_and!; [done | | done].
        intros k cpid Hk Hget Hlive.
        apply (Hk' k); [| done | done]. apply elem_of_cons in Hk as [->|]; [| done].
        exfalso. apply Hn, Hsub. apply dict_get_is_Some. by eexists.
Qed.

(** X17.  Whatever was done with the tunnel manager before, calls of
    [create_tunnel] that are still waiting included, [destroy_all_tunnels]
    leaves it with no tunnel and no process on record.  It sends SIGTERM
    to every process on record that has not exited, and it signals
    nothing else: no process that has exited, and no process that is not
    on record.  The calls that wait for their URL are left waiting. *)
Theorem destroy_all_tunnels_leaves_nothing
  (cs : list (Env * SessionManager.t * TunnelManager.call))
  (e : Env) (sm : SessionManager.t) :
  let st := TunnelManager.run cs TunnelManager.new in
  let st' := TunnelManager.destroy_all_tunnels e sm st in
  TunnelManager.tunnels st' = []
  ∧ TunnelManager._tunnel_processes st' = []
  ∧ TunnelManager.waiting st' = TunnelManager.waiting st
  ∧ ∃ sigs,
      TunnelManager.signals st' = TunnelManager.signals st ++ sigs
      ∧ (∀ k cpid,
           dict_get k (TunnelManager._tunnel_processes st) = Some cpid →
           poll_exited e cpid = false → OsKill cpid SIGTERM ∈ sigs)
      ∧ (∀ ef, ef ∈ sigs →
           ∃ k cpid,
             dict_get k (TunnelManager._tunnel_processes st) = Some cpid
             ∧ poll_exited e cpid = false
             ∧ (ef = OsKill cpid SIGTERM ∨ ef = OsKill cpid SIGKILL)).
Proof.
  intros st st'.
  assert (tm_ok st) as Hok by apply tm_ok_run, tm_ok_new.
  subst st'. unfold TunnelManager.destroy_all_tunnels.
  destruct (tm_destroy_each_spec e sm (dict_keys (TunnelManager.tunnels st)) st Hok)
    as (Ht & Hp & Hw & sigs & Hs & Hk & Hef).
  split_and!.
  - apply dict_keys_nil. rewrite Ht. by apply filter_own_keys.
  - apply dict_keys_nil. rewrite Hp. apply filter_own_keys, Hok.
  - done.
  - exists sigs. split_and!; [done | | done].
    intros k cpid Hget Hlive. apply (Hk k); [| done | done].
    apply Hok, dict_get_is_Some. by eexists.
Qed.

Lemma ports_ok_shrink (st st' : TunnelManager.t) :
  (∀ r, claims st' r → claims st r) →
  (∀ r x', claims st' r → TunnelManager.objects st' !! r = Some x' →
           ∃ x, TunnelManager.objects st !! r = Some x
                ∧ Tunnel.port x = Tunnel.port x') →
  ports_ok st → ports_ok st'.
Proof.
  intros Hc Hp Hok r1 r2 x1 x2 H1 H2 Hx1 Hx2 Heq.
  destruct (Hp r1 x1 H1 Hx1) as (y1 & Hy1 & Hp1).
  destruct (Hp r2 x2 H2 Hx2) as (y2 & Hy2 & Hp2).
  apply (Hok r1 r2 y1 y2); auto. congruence.
Qed.

(** An assignment that keeps the port and does not make the object
    active. *)
Lemma ports_ok_update (r : nat) (f : Tunnel.t → Tunnel.t) (st : TunnelManager.t) :
  (∀ x, Tunnel.port (f x) = Tunnel.port x) →
  (∀ x, Tunnel.status (f x) = T_ACTIVE → Tunnel.status x = T_ACTIVE) →
  ports_ok st → ports_ok (TunnelManager.update r f st).
Proof.
  intros Hport Hstat. apply ports_ok_shrink.
  - intros r' [Hw|[Hrec (x & Hx & Hact)]]; [by left |]. right.
    split; [done |]. simpl in Hx. destruct (decide (r' = r)) as [->|Hne].
    + rewrite obj_alter_eq in Hx.
      destruct (TunnelManager.objects st !! r) as [y|]; [| done].
      injection Hx as <-. exists y. split; [done |]. by apply Hstat.
    + rewrite obj_alter_ne in Hx by done. by exists x.
  - intros r' x' _. simpl. destruct (decide (r' = r)) as [->|Hne].
    + rewrite obj_alter_eq.
      destruct (TunnelManager.objects st !! r) as [y|]; [| done].
      intros [= <-]. exists y. by rewrite Hport.
    + rewrite obj_alter_ne by done. intros ?. by exists x'.
Qed.

Lemma on_record_values (st : TunnelManager.t) (r : nat) (x : Tunnel.t) :
  r ∈ on_record st → TunnelManager.objects st !! r = Some x →
  x ∈ TunnelManager.values st.
Proof.
  unfold on_record, TunnelManager.values.
  intros ([k r'] & -> & Hin)%list_elem_of_fmap Hx.
  apply list_elem_of_omap. by exists (k, r').
Qed.

Lemma ports_ok_begin (e : Env) (sm : SessionManager.t) (port : Z)
  (tid : option string) (st : TunnelManager.t) :
  tm_ok st → ports_ok st →
  overlaps (TunnelManager.CreateBegin port tid) st = false →
  ports_ok (TunnelManager.create_begin e sm port tid st).2.
Proof.
  intros Hok Hports Hover. unfold TunnelManager.create_begin.
  destruct (negb _); [done |].
  destruct (SessionManager.session sm) as [session|]; [| done].
  destruct (find _ _) eqn:Hfind; [done |].
  set (k := if truthy_str tid then default "" tid else Quick.gen_id e port).
  set (r := length (TunnelManager.objects st)).
  set (tunnel := Tunnel.mk k (Session.id session) port "" (now e) T_CREATING None).
  destruct Hok as (Ht & Hp & Hsub & Hrec & Hwait & Hnd & Hact).
  (* an object made before is where it was *)
  assert (∀ (f : Tunnel.t → Tunnel.t) r' x,
            r' ≠ r →
            alter f r (TunnelManager.objects st ++ [tunnel]) !! r' = Some x →
            TunnelManager.objects st !! r' = Some x) as Hold.
  { intros f r' x Hne. rewrite obj_alter_ne by done. intros Hx.
    assert (r' < length (TunnelManager.objects st ++ [tunnel]))%nat as Hlt
      by (apply lookup_lt_is_Some; by eexists).
    rewrite length_app in Hlt; simpl in Hlt.
    rewrite lookup_app_l in Hx; [done |]. unfold r in Hne. lia. }
  (* no object of that port stands for it *)
  assert (∀ r' x, claims st r' → TunnelManager.objects st !! r' = Some x →
                  Tunnel.port x ≠ port) as Hfree.
  { intros r' x [Hw|[Hr' (y & Hy & Hyact)]] Hx Hpx.
    - simpl in Hover. apply not_true_iff_false in Hover. apply Hover.
      apply existsb_exists. exists r'. split.
      + apply list_elem_of_In, elem_of_elements. done.
      + rewrite Hx. by apply bool_decide_eq_true.
    - rewrite Hx in Hy. injection Hy as <-.
      pose proof (on_record_values st r' x Hr' Hx) as Hin.
      apply list_elem_of_In in Hin.
      pose proof (find_none _ _ Hfind x Hin) as Hnot.
      unfold Quick.active_on in Hnot.
      by rewrite !bool_decide_eq_true_2 in Hnot. }
  destruct (popen e) as [cpid|]; simpl.
  - intros r1 r2 x1 x2 H1 H2 Hx1 Hx2 Heq. simpl in *.
    assert (∀ r', r' ≠ r →
              claims (TunnelManager.mk
                        (alter (TunnelManager.set_process_pid (Some cpid)) r
                           (TunnelManager.objects st ++ [tunnel]))
                        (dict_set k r (TunnelManager.tunnels st))
                        (dict_set k cpid (TunnelManager._tunnel_processes st))
                        ({[r]} ∪ TunnelManager.waiting st)
                        (TunnelManager.signals st)
                        (TunnelManager.session_calls st)) r' →
              claims st r') as Hcl.
    { intros r' Hne [Hw|[Hr' (y & Hy & Hyact)]]; simpl in *.
      - left. set_solver.
      - right. unfold on_record in *; simpl in *.
        apply dict_values_set_elem in Hr' as [->|Hr']; [done |].
        split; [done |]. exists y. split; [| done]. by eapply Hold. }
    assert (∀ x, alter (TunnelManager.set_process_pid (Some cpid)) r
                   (TunnelManager.objects st ++ [tunnel]) !! r = Some x →
                 Tunnel.port x = port) as Hnew.
    { intros x. rewrite obj_alter_eq. unfold r.
      rewrite list_lookup_middle by done. simpl. by intros [= <-]. }
    destruct (decide (r1 = r)) as [->|Hne1], (decide (r2 = r)) as [->|Hne2].
    + done.
    + exfalso. apply (Hfree r2 x2); [by apply Hcl | by eapply Hold |].
      rewrite <- Heq. by apply Hnew.
    + exfalso. apply (Hfree r1 x1); [by apply Hcl | by eapply Hold |].
      rewrite Heq. by apply Hnew.
    + apply (Hports r1 r2 x1 x2); [by apply Hcl | by apply Hcl | | | done];
        by eapply Hold.
  - assert (∀ r',
              claims (TunnelManager.update r (Tunnel.set_status T_ERROR)
                        (TunnelManager.mk (TunnelManager.objects st ++ [tunnel])
                           (dict_set k r (TunnelManager.tunnels st))
                           (TunnelManager._tunnel_processes st)
                           (TunnelManager.waiting st) (TunnelManager.signals st)
                           (TunnelManager.session_calls st))) r' →
              r' ≠ r ∧ claims st r') as Hcl.
    { intros r' [Hw|[Hr' (y & Hy & Hyact)]]; simpl in *.
      - split; [| by left]. intros ->. apply Hwait in Hw. unfold r in Hw. lia.
      - assert (r' ≠ r) as Hne.
        { intros ->. rewrite obj_alter_eq in Hy. unfold r in Hy.
          rewrite list_lookup_middle in Hy by done. simpl in Hy.
          injection Hy as <-. done. }
        split; [done |]. right. unfold on_record in *; simpl in *.
        apply dict_values_set_elem in Hr' as [->|Hr']; [done |].
        split; [done |]. exists y. split; [| done]. by eapply Hold. }
    apply (ports_ok_shrink st); [by intros r' [_ ?]%Hcl | | done].
    intros r' x' [Hne _]%Hcl Hx'. simpl in Hx'. exists x'.
    split; [by eapply Hold | done].
Qed.

Lemma ports_ok_finish (e : Env) (r : nat) (st : TunnelManager.t) :
  ports_ok st → ports_ok (TunnelManager.create_finish e r st).2.
Proof.
  intros Hports. unfold TunnelManager.create_finish.
  destruct (decide (r ∈ TunnelManager.waiting st)) as [Hr|]; [| done].
  destruct (truthy_str (tunnel_url e)).
  - match goal with
    | |- ports_ok (match ?o with _ => _ end).2 => destruct o eqn:Hobj
    end; [| done]. simpl in *.
    apply (ports_ok_shrink st); [| | done].
    + intros r' [Hw|[Hrec (x & Hx & Hact)]]; simpl in *.
      * left. set_solver.
      * destruct (decide (r' = r)) as [->|Hne]; [by left |].
        right. split; [done |]. rewrite obj_alter_ne in Hx by done. by exists x.
    + intros r' x' _. simpl. destruct (decide (r' = r)) as [->|Hne].
      * rewrite obj_alter_eq.
        destruct (TunnelManager.objects st !! r) as [y|]; [| done].
        intros [= <-]. by exists y.
      * rewrite obj_alter_ne by done. intros ?. by exists x'.
  - simpl. apply ports_ok_update; [done | done |].
    apply (ports_ok_shrink st); [| | done].
    + intros r' [Hw|Hrec]; [left; simpl in Hw; set_solver | by right].
    + intros r' x' _ Hx'. by exists x'.
Qed.

Lemma ports_ok_destroy (e : Env) (sm : SessionManager.t) (tid : string)
  (st : TunnelManager.t) :
  ports_ok st → ports_ok (TunnelManager.destroy_tunnel e sm tid st).2.
Proof.
  intros Hports. unfold TunnelManager.destroy_tunnel.
  destruct (dict_get tid (TunnelManager.tunnels st)) as [r|] eqn:Hget; [| done].
  assert (∀ procs sigs calls,
            ports_ok (TunnelManager.mk
                        (alter (Tunnel.set_status T_STOPPED) r
                           (TunnelManager.objects st))
                        (dict_del tid (TunnelManager.tunnels st)) procs
                        (TunnelManager.waiting st) sigs calls)) as Hgen.
  { intros procs sigs calls. apply (ports_ok_shrink st); [| | done].
    - intros r' [Hw|[Hrec (x & Hx & Hact)]]; simpl in *; [by left |].
      right. split.
      + eapply elem_of_sublist; [done | apply dict_values_del_sublist].
      + destruct (decide (r' = r)) as [->|Hne].
        * rewrite obj_alter_eq in Hx.
          destruct (TunnelManager.objects st !! r); [| done].
          by injection Hx as <-.
        * rewrite obj_alter_ne in Hx by done. by exists x.
    - intros r' x' _. simpl. destruct (decide (r' = r)) as [->|Hne].
      + rewrite obj_alter_eq.
        destruct (TunnelManager.objects st !! r) as [y|]; [| done].
        intros [= <-]. by exists y.
      + rewrite obj_alter_ne by done. intros ?. by exists x'. }
  destruct (dict_get tid (TunnelManager._tunnel_processes st)); simpl; apply Hgen.
Qed.

Lemma ports_ok_step (e : Env) (sm : SessionManager.t) (c : TunnelManager.call)
  (st : TunnelManager.t) :
  tm_ok st → ports_ok st → overlaps c st = false →
  ports_ok (TunnelManager.step e sm c st).
Proof.
  intros Hok Hports Hover. destruct c; simpl.
  - by apply ports_ok_begin.
  - by apply ports_ok_finish.
  - by apply ports_ok_destroy.
  - unfold TunnelManager.destroy_all_tunnels.
    generalize (dict_keys (TunnelManager.tunnels st)). intros ids.
    clear Hok Hover. revert st Hports.
    induction ids as [|i ids IH]; intros st Hports; [done |].
    simpl. by apply IH, ports_ok_destroy.
  - unfold TunnelManager.health_check.
    destruct (dict_get tunnel_id (TunnelManager.tunnels st)); [| done].
    destruct (dict_get tunnel_id (TunnelManager._tunnel_processes st)); [| done].
    destruct (poll_exited e _); [| done]. simpl.
    by apply ports_ok_update.
Qed.

Lemma ports_ok_run (cs : list (Env * SessionManager.t * TunnelManager.call)) :
  ∀ st, tm_ok st → ports_ok st → no_overlap cs st = true →
        ports_ok (TunnelManager.run cs st).
Proof.
  induction cs as [|[[e sm] c] cs IH]; intros st Hok Hports Hno; [done |].
  simpl in *. apply andb_true_iff in Hno as [Hc%negb_true_iff Hrest].
  apply IH; [by apply tm_ok_step | by apply ports_ok_step | done].
Qed.

Lemma ports_ok_new : ports_ok TunnelManager.new.
Proof. intros r1 r2 x1 x2 _ _ Hx1. simpl in Hx1. by rewrite lookup_nil in Hx1. Qed.

Lemma active_ports_NoDup (objs : list Tunnel.t) (d : list (string * nat)) :
  NoDup (map snd d) →
  (∀ r1 r2 x1 x2,
     r1 ∈ map snd d → r2 ∈ map snd d →
     objs !! r1 = Some x1 → objs !! r2 = Some x2 →
     Tunnel.status x1 = T_ACTIVE → Tunnel.status x2 = T_ACTIVE →
     Tunnel.port x1 = Tunnel.port x2 → r1 = r2) →
  NoDup (map Tunnel.port
           (filter (λ x, Tunnel.status x = T_ACTIVE)
              (omap (λ kr : string * nat, objs !! kr.2) d))).
Proof.
  induction d as [|[k r] d IH]; simpl; [intros _ _; apply NoDup_nil_2 |].
  intros [Hr Hd]%NoDup_cons Hinj.
  assert (NoDup (map Tunnel.port
                   (filter (λ x, Tunnel.status x = T_ACTIVE)
                      (omap (λ kr : string * nat, objs !! kr.2) d)))) as Hrest.
  { apply IH; [done |]. intros r1 r2 x1 x2 H1 H2. apply Hinj; by right. }
  destruct (objs !! r) as [x|] eqn:Hx; [| done].
  rewrite filter_cons. destruct (decide (Tunnel.status x = T_ACTIVE)) as [Hact|];
    [| done].
  simpl. apply NoDup_cons. split; [| done].
  intros (x2 & Hport & [Hact2 ([k2 r2] & Hin2 & Hx2)%list_elem_of_omap]%list_elem_of_filter)%list_elem_of_fmap.
  simpl in Hx2. apply Hr.
  assert (r2 ∈ map snd d) as Hr2.
  { apply list_elem_of_fmap. by exists (k2, r2). }
  rewrite (Hinj r r2 x x2); [done | by left | by right | done | done | done | done | done].
Qed.

(** X18.  Two active tunnels for one port come from overlapping calls
    only.  In every run of the manager in which no [create_tunnel] for a
    port begins while another [create_tunnel] for that port waits for
    its URL, whatever else happens in between, the tunnels that
    [get_active_tunnels] returns have pairwise different ports. *)
Theorem active_tunnels_have_distinct_ports
  (cs : list (Env * SessionManager.t * TunnelManager.call)) :
  no_overlap cs TunnelManager.new = true →
  NoDup (map Tunnel.port
           (TunnelManager.get_active_tunnels
              (TunnelManager.run cs TunnelManager.new))).
Proof.
  intros Hno.
  pose proof (tm_ok_run cs _ tm_ok_new) as Hok.
  pose proof (ports_ok_run cs _ tm_ok_new ports_ok_new Hno) as Hports.
  destruct Hok as (_ & _ & _ & _ & _ & Hnd & _).
  apply active_ports_NoDup; [done |].
  intros r1 r2 x1 x2 H1 H2 Hx1 Hx2 Ha1 Ha2.
  apply (Hports r1 r2 x1 x2); try done; right; (split; [done |]); by eexists.
Qed.

Lemma active_tunnels_have_distinct_ports_witness :
  map Tunnel.port
    (TunnelManager.get_active_tunnels
       (TunnelManager.run calls_in_turn TunnelManager.new))
  = [3000; 8080]
  ∧ NoDup (map Tunnel.port
             (TunnelManager.get_active_tunnels
                (TunnelManager.run calls_in_turn TunnelManager.new))).
Proof.
  split; [vm_compute; reflexivity |].
  apply (active_tunnels_have_distinct_ports calls_in_turn).
  vm_compute. reflexivity.
Defined.

(** Two calls for one port that overlap: each finds no active tunnel,
    each starts a process, and both tunnels end up active.  When the two
    calls fall into the same second they make the same id: the second
    tunnel and its process take the place of the first on record, and the
    first process is kept by nothing. *)
Lemma overlapping_calls_start_two_processes :
  no_overlap calls_at_once TunnelManager.new = false
  ∧ map (λ x, (Tunnel.port x, Tunnel.process_pid x))
      (TunnelManager.get_active_tunnels
         (TunnelManager.run calls_at_once TunnelManager.new))
    = [(3000, Some 6161); (3000, Some 6262)]
  ∧ TunnelManager._tunnel_processes
      (TunnelManager.run
         [(env_ok, created, TunnelManager.CreateBegin 3000 None);
          (with_now 1700000000 env_later, created,
           TunnelManager.CreateBegin 3000 None)]
         TunnelManager.new)
    = [("tun_3000_1700000000", 6262)].
Proof. vm_compute. done. Qed.

Lemma find_the_active_tunnel (st : TunnelManager.t) (r : nat) (x : Tunnel.t) :
  ports_ok st → r ∈ on_record st →
  TunnelManager.objects st !! r = Some x → Tunnel.status x = T_ACTIVE →
  find (Quick.active_on (Tunnel.port x)) (TunnelManager.values st) = Some x.
Proof.
  intros Hports Hr Hx Hact.
  destruct (find _ _) as [y|] eqn:Hfind.
  - apply find_some in Hfind as [Hin Hon]. f_equal.
    apply list_elem_of_In in Hin. unfold TunnelManager.values in Hin.
    apply list_elem_of_omap in Hin as ([k2 r2] & Hin2 & Hy). simpl in Hy.
    unfold Quick.active_on in Hon.
    apply andb_true_iff in Hon as [Hp%bool_decide_eq_true Hs%bool_decide_eq_true].
    assert (r2 = r) as ->.
    { apply (Hports r2 r y x); try done.
      - right. split; [| by exists y]. apply list_elem_of_fmap. by exists (k2, r2).
      - right. split; [done | by exists x]. }
    congruence.
  - pose proof (on_record_values st r x Hr Hx) as Hin.
    apply list_elem_of_In in Hin.
    pose proof (find_none _ _ Hfind x Hin) as Hnot.
    unfold Quick.active_on in Hnot. by rewrite !bool_decide_eq_true_2 in Hnot.
Qed.

(** X19.  When a [create_tunnel] that overlapped no other call for its
    port has returned a tunnel, the tunnel is active, and if it is still
    on record, a further [create_tunnel] for that port, under any id and
    whatever the outside world answers, returns that tunnel at once and
    changes nothing: no process is started and no record is added. *)
Theorem create_tunnel_reuses_the_active_tunnel
  (cs : list (Env * SessionManager.t * TunnelManager.call))
  (e : Env) (r : nat) (tunnel : Tunnel.t) (st' : TunnelManager.t) :
  no_overlap cs TunnelManager.new = true →
  TunnelManager.create_finish e r (TunnelManager.run cs TunnelManager.new)
  = (Some (Ret tunnel), st') →
  r ∈ on_record (TunnelManager.run cs TunnelManager.new) →
  Tunnel.status tunnel = T_ACTIVE
  ∧ tunnel ∈ TunnelManager.get_active_tunnels st'
  ∧ ∀ e2 sm2 tid2,
      SessionManager.has_active_session sm2 = true →
      TunnelManager.create_begin e2 sm2 (Tunnel.port tunnel) tid2 st'
      = (TunnelManager.Returns (Ret tunnel), st').
Proof.
  intros Hno Hfin Hr.
  set (st := TunnelManager.run cs TunnelManager.new) in *.
  pose proof (tm_ok_run cs _ tm_ok_new) as Hok. fold st in Hok.
  pose proof (ports_ok_run cs _ tm_ok_new ports_ok_new Hno) as Hports.
  fold st in Hports.
  pose proof (ports_ok_finish e r st Hports) as Hports'.
  rewrite Hfin in Hports'. simpl in Hports'.
  assert (TunnelManager.objects st' !! r = Some tunnel
          ∧ Tunnel.status tunnel = T_ACTIVE
          ∧ on_record st' = on_record st) as (Hx & Hact & Hrec).
  { revert Hfin. unfold TunnelManager.create_finish.
    destruct (decide _); [| done].
    destruct (truthy_str (tunnel_url e)); [| done].
    match goal with
    | |- (match ?o with _ => _ end) = _ → _ => destruct o as [t|] eqn:Hobj
    end; [| done].
    intros [= <- <-]. simpl in *. split_and!; [done | | done].
    rewrite obj_alter_eq in Hobj.
    destruct (TunnelManager.objects st !! r); [| done]. by injection Hobj as <-. }
  rewrite <- Hrec in Hr.
  split_and!; [done | |].
  - apply list_elem_of_filter. split; [done |]. by apply (on_record_values st' r).
  - intros e2 sm2 tid2 Hsm. unfold TunnelManager.create_begin.
    rewrite Hsm. simpl.
    destruct (SessionManager.session sm2) as [session|] eqn:Hs.
    + by rewrite (find_the_active_tunnel st' r tunnel).
    + unfold SessionManager.has_active_session in Hsm. by rewrite Hs in Hsm.
Qed.

Lemma create_tunnel_reuses_the_active_tunnel_witness :
  ∃ tunnel st',
    TunnelManager.create_finish env_ok 0
      (TunnelManager.run [(env_ok, created, TunnelManager.CreateBegin 3000 None)]
         TunnelManager.new)
    = (Some (Ret tunnel), st')
    ∧ Tunnel.port tunnel = 3000
    ∧ TunnelManager.create_begin env_later created 3000 (Some "again") st'
      = (TunnelManager.Returns (Ret tunnel), st').
Proof.
  eexists _, _. split; [vm_compute; reflexivity |]. split; [reflexivity |].
  match goal with
  | |- TunnelManager.create_begin _ _ _ _ ?s = (TunnelManager.Returns (Ret ?t), _) =>
      refine (proj2 (proj2
                (create_tunnel_reuses_the_active_tunnel
                   [(env_ok, created, TunnelManager.CreateBegin 3000 None)]
                   env_ok 0 t s _ _ _)) env_later created (Some "again") _)
  end.
  - vm_compute. reflexivity.
  - vm_compute. reflexivity.
  - vm_compute. apply list_elem_of_here.
  - vm_compute. reflexivity.
Defined.

(** *** The call run to its end *)

Lemma by_value_values (st : TunnelManager.t) :
  dict_values (by_value st) = TunnelManager.values st.
Proof.
  unfold by_value, TunnelManager.values, dict_values.
  induction (TunnelManager.tunnels st) as [|[k r] d IH]; simpl; [done |].
  destruct (TunnelManager.objects st !! r); simpl; [f_equal |]; exact IH.
Qed.

Lemma by_value_same (objs objs' : list Tunnel.t) (d : list (string * nat)) :
  (∀ r, r ∈ map snd d → objs' !! r = objs !! r) →
  omap (λ kr : string * nat, (λ y, (kr.1, y)) <$> objs' !! kr.2) d
  = omap (λ kr : string * nat, (λ y, (kr.1, y)) <$> objs !! kr.2) d.
Proof.
  intros Hd. induction d as [|[k r] d IH]; csimpl; [done |].
  rewrite (Hd r) by (by left). rewrite IH; [done |].
  intros r' Hr'. apply Hd. by right.
Qed.

Lemma by_value_set (objs objs' : list Tunnel.t) (d : list (string * nat))
  (tid : string) (r : nat) (x : Tunnel.t) :
  (∀ r', r' ∈ map snd d → is_Some (objs !! r') ∧ objs' !! r' = objs !! r') →
  objs' !! r = Some x →
  omap (λ kr : string * nat, (λ y, (kr.1, y)) <$> objs' !! kr.2) (dict_set tid r d)
  = dict_set tid x
      (omap (λ kr : string * nat, (λ y, (kr.1, y)) <$> objs !! kr.2) d).
Proof.
  intros Hd Hx. induction d as [|[k' r'] d IH]; csimpl.
  - by rewrite Hx.
  - destruct (Hd r') as ([y Hy] & Heq); [by left |].
    rewrite Hy. csimpl. case_decide as Hk; csimpl.
    + rewrite Hx. csimpl. f_equal. apply by_value_same.
      intros r'' Hr''. apply Hd. by right.
    + rewrite Heq, Hy. csimpl. f_equal. apply IH.
      intros r'' Hr''. apply Hd. by right.
Qed.

(** [Quick.create_tunnel] is the call of the manager run to its end with
    no other call at its await: what [create_begin] does and then, if the
    call waits, what [create_finish] does with the same answers of the
    outside world. *)
Lemma create_tunnel_is_begin_then_finish (e : Env) (sm : SessionManager.t)
  (port : Z) (tunnel_id : option string) (st : TunnelManager.t) :
  tm_ok st →
  let q := Quick.mk (by_value st) (TunnelManager._tunnel_processes st)
             (TunnelManager.signals st) in
  let out := Quick.create_tunnel e port tunnel_id (q, sm) in
  ∃ r st',
    match TunnelManager.create_begin e sm port tunnel_id st with
    | (TunnelManager.Returns r0, st1) => r = r0 ∧ st' = st1
    | (TunnelManager.Awaits t, st1) =>
        TunnelManager.create_finish e t st1 = (Some r, st')
    end
    ∧ out.1 = r
    ∧ Quick.tunnels out.2.1 = by_value st'
    ∧ Quick._tunnel_processes out.2.1 = TunnelManager._tunnel_processes st'
    ∧ Quick.signals out.2.1 = TunnelManager.signals st'.
Proof.
  intros (_ & _ & _ & Hrec & _) q out. subst out q.
  unfold Quick.create_tunnel, TunnelManager.create_begin.
  destruct (negb _); [by eexists _, _ |].
  destruct (SessionManager.session sm) as [session|]; [| by eexists _, _].
  cbn [Quick.tunnels]. rewrite by_value_values.
  destruct (find _ _) as [existing|]; [by eexists _, _ |].
  set (k := if truthy_str tunnel_id then default "" tunnel_id
            else Quick.gen_id e port).
  set (r := length (TunnelManager.objects st)).
  set (tunnel := Tunnel.mk k (Session.id session) port "" (now e) T_CREATING None).
  assert (∀ f r',
            r' ∈ map snd (TunnelManager.tunnels st) →
            is_Some (TunnelManager.objects st !! r')
            ∧ alter f r (TunnelManager.objects st ++ [tunnel]) !! r'
              = TunnelManager.objects st !! r') as Hold.
  { intros f r' Hr'. specialize (Hrec r' Hr'). split.
    - by apply lookup_lt_is_Some.
    - rewrite obj_alter_ne by (unfold r; lia). by apply lookup_app_l. }
  assert (∀ f, alter f r (TunnelManager.objects st ++ [tunnel]) !! r
               = Some (f tunnel)) as Hnew.
  { intros f. rewrite obj_alter_eq. unfold r. by rewrite list_lookup_middle. }
  destruct (popen e) as [cpid|].
  - unfold TunnelManager.create_finish. cbn [TunnelManager.waiting
      TunnelManager.objects TunnelManager.tunnels
      TunnelManager._tunnel_processes TunnelManager.signals
      TunnelManager.session_calls].
    rewrite decide_True by (apply elem_of_union_l; by apply elem_of_singleton).
    destruct (truthy_str (tunnel_url e)).
    + unfold TunnelManager.update. cbn [TunnelManager.waiting
        TunnelManager.objects TunnelManager.tunnels
        TunnelManager._tunnel_processes TunnelManager.signals
        TunnelManager.session_calls].
      rewrite obj_alter_eq, Hnew. cbn [fmap option_fmap option_map].
      eexists _, _. split; [reflexivity |]. cbn [fst snd Quick.tunnels
        Quick._tunnel_processes Quick.signals TunnelManager.waiting
        TunnelManager.objects TunnelManager.tunnels
        TunnelManager._tunnel_processes TunnelManager.signals].
      split; [reflexivity |]. split; [| done].
      unfold by_value. cbn [TunnelManager.objects TunnelManager.tunnels].
      symmetry. apply by_value_set.
      * intros r' Hr'. destruct (Hold (TunnelManager.set_process_pid (Some cpid)) r' Hr')
          as [Hsome Heq].
        split; [done |]. rewrite obj_alter_ne; [done |].
        specialize (Hrec r' Hr'). unfold r. lia.
      * by rewrite obj_alter_eq, Hnew.
    + unfold TunnelManager.update. cbn [TunnelManager.waiting
        TunnelManager.objects TunnelManager.tunnels
        TunnelManager._tunnel_processes TunnelManager.signals
        TunnelManager.session_calls].
      eexists _, _. split; [reflexivity |]. cbn [fst snd Quick.tunnels
        Quick._tunnel_processes Quick.signals TunnelManager.waiting
        TunnelManager.objects TunnelManager.tunnels
        TunnelManager._tunnel_processes TunnelManager.signals].
      split; [reflexivity |]. split; [| done].
      unfold by_value. cbn [TunnelManager.objects TunnelManager.tunnels].
      symmetry. apply by_value_set.
      * intros r' Hr'. destruct (Hold (TunnelManager.set_process_pid (Some cpid)) r' Hr')
          as [Hsome Heq].
        split; [done |]. rewrite obj_alter_ne; [done |].
        specialize (Hrec r' Hr'). unfold r. lia.
      * by rewrite obj_alter_eq, Hnew.
  - eexists _, _. split; [split; reflexivity |].
    unfold TunnelManager.update. cbn [fst snd Quick.tunnels
        Quick._tunnel_processes Quick.signals Quick.set_tunnels TunnelManager.waiting
        TunnelManager.objects TunnelManager.tunnels
        TunnelManager._tunnel_processes TunnelManager.signals].
    split; [reflexivity |]. split; [| done].
    unfold by_value. cbn [TunnelManager.objects TunnelManager.tunnels].
    symmetry. apply by_value_set; [apply Hold | apply Hnew].
Qed.

(** ** The log hub and the tunnel handlers *)

Lemma log_queue_bound_step {H} (c : LogMonitor.call) (m : LogMonitor.t H) :
  (∀ q qu, qstore (LogMonitor.queues m) !! q = Some qu →
     Queue.maxsize qu = 100 ∧ (length (Queue.items qu) ≤ 100)%nat) →
  ∀ q qu, qstore (LogMonitor.queues (LogMonitor.step c m)) !! q = Some qu →
     Queue.maxsize qu = 100 ∧ (length (Queue.items qu) ≤ 100)%nat.
Proof.
  intros Hinv q qu. destruct c as [|q0|now content lt|q0]; simpl.
  - rewrite lookup_insert. case_decide; [| by apply Hinv].
    intros [= <-]. simpl. split; [done | lia].
  - by apply Hinv.
  - rewrite broadcast_log_lookup. case_decide; [| by apply Hinv].
    destruct (qstore (LogMonitor.queues m) !! q) as [qu0|] eqn:Hq0; [| done].
    simpl. intros [= <-]. destruct (Hinv q qu0 Hq0) as [Hmax Hlen].
    destruct (Queue.full qu0) eqn:Hfull.
    + by rewrite put_or_drop_full.
    + rewrite put_or_drop_room by done. simpl. split; [done |].
      unfold Queue.full in Hfull. rewrite Hmax in Hfull. simpl in Hfull.
      apply Z.leb_gt in Hfull. rewrite length_app. simpl. lia.
  - unfold LogMonitor.consume.
    destruct (qstore (LogMonitor.queues m) !! q0) as [qu0|] eqn:Hq0;
      [| by apply Hinv].
    destruct (Queue.get_nowait qu0) as [[x qu']|] eqn:Hget; [| by apply Hinv].
    simpl. rewrite lookup_insert. case_decide; [| by apply Hinv].
    intros [= <-]. destruct (Hinv q0 qu0 Hq0) as [Hmax Hlen].
    unfold Queue.get_nowait in Hget.
    destruct (Queue.items qu0) as [|y rest] eqn:Hitems; [done |].
    injection Hget as <- <-. simpl in *. split; [done | lia].
Qed.

(** X20.  A log subscriber's queue never holds more than 100 messages,
    however many lines are broadcast and however slowly the subscriber
    reads: what does not fit is dropped. *)
Theorem log_queues_hold_at_most_100 {H} (cs : list LogMonitor.call)
  (q : qref) (qu : Queue.t WSLogMessage) :
  qstore (LogMonitor.queues (LogMonitor.run cs (LogMonitor.new (H := H)))) !! q
  = Some qu →
  Queue.maxsize qu = 100 ∧ (length (Queue.items qu) ≤ 100)%nat.
Proof.
  revert q qu. unfold LogMonitor.run.
  induction cs as [|c cs IH] using rev_ind; [done |].
  rewrite foldl_app. simpl. by apply log_queue_bound_step.
Qed.

Lemma log_queues_hold_at_most_100_witness :
  ∃ qu,
    qstore (LogMonitor.queues
              (LogMonitor.run
                 [LogMonitor.Subscribe;
                  LogMonitor.BroadcastLog 1700000000 "ready" "stdout"]
                 (LogMonitor.new (H := AutoTunnel.handler)))) !! 0%nat
    = Some qu
    ∧ Queue.maxsize qu = 100 ∧ (length (Queue.items qu) ≤ 100)%nat.
Proof.
  eexists. split; [vm_compute; reflexivity |].
  apply (log_queues_hold_at_most_100 (H := AutoTunnel.handler)
           [LogMonitor.Subscribe;
            LogMonitor.BroadcastLog 1700000000 "ready" "stdout"] 0%nat).
  vm_compute. reflexivity.
Defined.

Lemma detect_in_calls {H} (cbs : gmap string (list H))
  (ps : list (string * Re.pattern)) (text : string) (ln : Z)
  (h : H) (pm : PatternDetector.PatternMatch) :
  (h, pm) ∈ (PatternDetector.detect_in cbs ps text ln).2 →
  h ∈ default [] (cbs !! PatternDetector.pattern_name pm)
  ∧ PatternDetector.line_number pm = ln
  ∧ ∃ p m, (PatternDetector.pattern_name pm, p) ∈ ps
      ∧ Re.search p text = Some m
      ∧ PatternDetector.matched_text pm = Re.group0 m.
Proof.
  induction ps as [|[name p] ps IH]; simpl; [by intros []%elem_of_nil |].
  destruct (PatternDetector.detect_in cbs ps text ln) as [ms calls].
  simpl in IH.
  assert ((h, pm) ∈ calls →
          h ∈ default [] (cbs !! PatternDetector.pattern_name pm)
          ∧ PatternDetector.line_number pm = ln
          ∧ ∃ p0 m, (PatternDetector.pattern_name pm, p0) ∈ (name, p) :: ps
              ∧ Re.search p0 text = Some m
              ∧ PatternDetector.matched_text pm = Re.group0 m) as IH'.
  { intros Hin. destruct (IH Hin) as (? & ? & p0 & m & ? & ? & ?).
    split_and!; [done | done |]. exists p0, m. split_and!; [by right | done | done]. }
  destruct (Re.search p text) as [m|] eqn:Hs; simpl; [| done].
  rewrite elem_of_app. intros [Hin|Hin]; [| by apply IH'].
  apply list_elem_of_fmap in Hin as (h' & [= -> ->] & Hh'). simpl.
  split_and!; [done | done |]. exists p, m. split_and!; [by left | done | done].
Qed.

Lemma detect_lines_calls {H} (cbs : gmap string (list H)) (lines : list string)
  (h : H) (pm : PatternDetector.PatternMatch) :
  ∀ i, (h, pm) ∈ LogMonitor.detect_lines cbs i lines →
  ∃ k line, lines !! k = Some line ∧ not_blank line = true
    ∧ (h, pm) ∈ (PatternDetector.detect_patterns cbs line (i + Z.of_nat k)).2.
Proof.
  induction lines as [|line lines IH]; intros i; simpl;
    [by intros []%elem_of_nil |].
  rewrite elem_of_app. intros [Hin|Hin].
  - destruct (not_blank line) eqn:Hb; [| by apply elem_of_nil in Hin].
    exists 0%nat, line. split_and!; [done | done |]. by rewrite Z.add_0_r.
  - destruct (IH _ Hin) as (k & l & Hk & Hb & Hc). exists (S k), l.
    split_and!; [done | done |].
    by replace (i + Z.of_nat (S k)) with (i + 1 + Z.of_nat k) by lia.
Qed.

(** X21.  The log monitor starts a tunnel handler only for a line of
    the terminal output that is not blank and in which one of the three
    server patterns is found: [_on_server_ready] for "server_ready",
    [_on_localhost_detected] for "localhost_server" and
    "listening_on_port".  The handler is given the text the pattern
    matched and the number of the line.  With [auto_create_tunnels]
    off no handler is ever started. *)
Theorem handlers_start_only_on_server_patterns (auto_create_tunnels : bool)
  (content : string) (h : AutoTunnel.handler)
  (pm : PatternDetector.PatternMatch) :
  (h, pm) ∈ LogMonitor._detect_patterns content
              (AutoTunnel.initialize auto_create_tunnels LogMonitor.new) →
  auto_create_tunnels = true
  ∧ ((PatternDetector.pattern_name pm = "server_ready"
      ∧ h = AutoTunnel.OnServerReady)
     ∨ (PatternDetector.pattern_name pm = "localhost_server"
        ∧ h = AutoTunnel.OnLocalhostDetected)
     ∨ (PatternDetector.pattern_name pm = "listening_on_port"
        ∧ h = AutoTunnel.OnLocalhostDetected))
  ∧ ∃ k line p m,
      split_lines content !! k = Some line
      ∧ not_blank line = true
      ∧ PatternDetector.line_number pm = Z.of_nat k
      ∧ (PatternDetector.pattern_name pm, p) ∈ PatternDetector.PATTERNS
      ∧ Re.search p line = Some m
      ∧ PatternDetector.matched_text pm = Re.group0 m.
Proof.
  unfold LogMonitor._detect_patterns.
  intros (k & line & Hk & Hb & Hin)%detect_lines_calls.
  apply detect_in_calls in Hin as (Hh & Hln & p & m & Hp & Hs & Hm).
  assert (auto_create_tunnels = true
          ∧ ((PatternDetector.pattern_name pm = "server_ready"
              ∧ h = AutoTunnel.OnServerReady)
             ∨ (PatternDetector.pattern_name pm = "localhost_server"
                ∧ h = AutoTunnel.OnLocalhostDetected)
             ∨ (PatternDetector.pattern_name pm = "listening_on_port"
                ∧ h = AutoTunnel.OnLocalhostDetected))) as [Ha Hn].
  { revert Hh. generalize (PatternDetector.pattern_name pm). intros name.
    unfold AutoTunnel.initialize. destruct auto_create_tunnels; simpl.
    - replace (PatternDetector.register_callback _ _ _)
        with (<["listening_on_port" := [AutoTunnel.OnLocalhostDetected]]>
                (<["server_ready" := [AutoTunnel.OnServerReady]]>
                   (<["localhost_server" := [AutoTunnel.OnLocalhostDetected]]>
                      (∅ : gmap string (list AutoTunnel.handler)))))
        by (vm_compute; reflexivity).
      rewrite !lookup_insert, lookup_empty.
      repeat case_decide; subst; simpl;
        try (by intros []%elem_of_nil);
        intros ->%list_elem_of_singleton; naive_solver.
    - rewrite lookup_empty. by intros []%elem_of_nil. }
  split_and!; [done | done |]. exists k, line, p, m.
  split_and!; done.
Qed.

Lemma handlers_start_only_on_server_patterns_witness :
  ∃ k line p m,
    split_lines "Server running at http://localhost:3000" !! k = Some line
    ∧ not_blank line = true
    ∧ PatternDetector.line_number match_localhost = Z.of_nat k
    ∧ (PatternDetector.pattern_name match_localhost, p)
      ∈ PatternDetector.PATTERNS
    ∧ Re.search p line = Some m
    ∧ PatternDetector.matched_text match_localhost = Re.group0 m.
Proof.
  apply (handlers_start_only_on_server_patterns true
           "Server running at http://localhost:3000"
           AutoTunnel.OnLocalhostDetected match_localhost).
  vm_compute. apply list_elem_of_here.
Defined.

(** ** The REST routes *)

Lemma find_values_None {K} (P : Tunnel.t → bool) (d : list (K * Tunnel.t)) :
  find P (dict_values d) = None → find (λ kv, P kv.2) d = None.
Proof.
  induction d as [|[k v] d IH]; simpl; [done |].
  destruct (P v); [done | exact IH].
Qed.

(** X22.  DELETE /tunnels/{id} for an id that no tunnel has: in quick
    mode the answer is 404, in named mode it is 200 with the message
    that the tunnel was destroyed.  Nothing is changed in either mode. *)
Theorem unknown_tunnel_is_not_found_in_quick_mode_only (e : Env)
  (tunnel_id : string) (h : Hybrid.t Named.t Quick.t) (sm : SessionManager.t) :
  Hybrid.get_tunnel tunnel_id h = Ret None →
  Routes.destroy_tunnel e tunnel_id (h, sm)
  = (Some (if Hybrid._is_named h
           then Routes.Sent 200 "Tunnel destroyed successfully"
           else Routes.HTTPException 404),
     (h, sm)).
Proof.
  destruct h as [u [n|q] [|]]; unfold Hybrid.get_tunnel; simpl; try done.
  - intros [= Hfind]. unfold Routes.destroy_tunnel, Hybrid.destroy_tunnel. simpl.
    by rewrite (find_values_None _ _ Hfind).
  - intros [= Hget]. unfold Routes.destroy_tunnel, Hybrid.destroy_tunnel. simpl.
    unfold Quick.get_tunnel in Hget. unfold Quick.destroy_tunnel.
    by rewrite Hget.
Qed.

Lemma unknown_tunnel_is_not_found_in_quick_mode_only_witness :
  Routes.destroy_tunnel env_ok "tun_9999_0" hybrid_ready
  = (Some (Routes.Sent 200 "Tunnel destroyed successfully"), hybrid_ready)
  ∧ Routes.destroy_tunnel env_ok "tun_9999_0"
      (Hybrid.new false false (Named.new "cloude" None "dev.example.com"),
       created)
    = (Some (Routes.HTTPException 404),
       (Hybrid.new false false (Named.new "cloude" None "dev.example.com"),
        created)).
Proof.
  split.
  - apply (unknown_tunnel_is_not_found_in_quick_mode_only env_ok "tun_9999_0"
             hybrid_ready.1 hybrid_ready.2).
    vm_compute. reflexivity.
  - apply (unknown_tunnel_is_not_found_in_quick_mode_only env_ok "tun_9999_0"
             (Hybrid.new false false (Named.new "cloude" None "dev.example.com"))
             created).
    vm_compute. reflexivity.
Defined.

Lemma destroy_each_keeps_session (e : Env) (ids : list string) :
  ∀ (q : Quick.t) (sm : SessionManager.t),
  (SessionManager.session (Quick.destroy_each e ids (q, sm)).2 = None
   ↔ SessionManager.session sm = None)
  ∧ SessionManager.pty (Quick.destroy_each e ids (q, sm)).2
    = SessionManager.pty sm.
Proof.
  induction ids as [|i ids IH]; intros q sm; [done |].
  cbn [Quick.destroy_each].
  destruct (Quick.destroy_tunnel e i (q, sm)) as [r [q1 sm1]] eqn:Hd.
  cbn [snd]. destruct (IH q1 sm1) as [-> ->].
  revert Hd. unfold Quick.destroy_tunnel.
  destruct (dict_get i (Quick.tunnels q)); [| by intros [= _ _ <-]].
  destruct (dict_get i (Quick._tunnel_processes q));
    destruct (SessionManager.session sm) as [s|] eqn:Hs;
    intros [= _ _ <-]; rewrite ?Hs; try done;
    unfold SessionManager._save_session_metadata; simpl;
    by destruct (write_ok e).
Qed.

Lemma stop_does_not_raise (c : child_state) (p : PTYSession.t) (x : exn) :
  (PTYSession.stop c p).1.1 ≠ Raise x.
Proof. unfold PTYSession.stop. by repeat case_match. Qed.

Lemma destroy_session_outcome (e : Env) (m : SessionManager.t) :
  match SessionManager.destroy_session e m with
  | (Ret _, m') =>
      is_Some (SessionManager.session m)
      ∧ SessionManager.session m' = None
      ∧ SessionManager.log_buffer m' = []
  | (Raise (ValueError _), _) => SessionManager.session m = None
  | _ => is_Some (SessionManager.session m)
  end.
Proof.
  unfold SessionManager.destroy_session.
  destruct (SessionManager.session m) as [s|]; [| done].
  assert (∀ m1 : SessionManager.t,
    match
      (let m2 := SessionManager.set_session
                   (Some (Session.set_status STOPPED s)) m1 in
       let finish (m3 : SessionManager.t) : result bool * SessionManager.t :=
         (Ret true,
          SessionManager.set_subscribers []
            (SessionManager.set_command_count 0
               (SessionManager.set_log_buffer []
                  (SessionManager.set_session None m3)))) in
       if SessionManager.exists_metadata m2 then
         match SessionManager.unlink e m2 with
         | (true, m3) => finish m3
         | (false, m3) => (Raise (OSError "unlink"), m3)
         end
       else finish m2)
    with
    | (Ret _, m') =>
        is_Some (Some s) ∧ SessionManager.session m' = None
        ∧ SessionManager.log_buffer m' = []
    | (Raise (ValueError _), _) => Some s = None
    | _ => is_Some (Some s)
    end) as Hfin.
  { intros m1. cbv zeta. destruct (SessionManager.exists_metadata _); [| by eauto].
    destruct (SessionManager.unlink e _) as [[|] m3]; by eauto. }
  destruct (SessionManager.pty m) as [p|]; [| apply Hfin].
  pose proof (stop_does_not_raise (child e) p) as Hstop.
  destruct (PTYSession.stop (child e) p) as [[r p'] effs]. simpl in Hstop.
  destruct r as [[]|x|]; [apply Hfin | by destruct (Hstop x) | by eauto].
Qed.

(** X23.  DELETE /sessions in quick mode destroys the tunnels first and
    whatever it answers: afterwards the tunnel manager holds no tunnel
    and no process.  It answers 404 exactly when no session was on
    record, and after the answer 200 no session is on record and the
    log buffer is empty. *)
Theorem delete_sessions_clears_the_tunnels (cs : list (Env * Quick.call))
  (sm0 : SessionManager.t) (e : Env) (use_named_tunnels : bool) :
  let st := Quick.run cs (Quick.new, sm0) in
  let out :=
    Routes.destroy_session e
      (Hybrid.mk use_named_tunnels (Hybrid.QuickM (N := Named.t) st.1) false,
       st.2) in
  (∃ q', Hybrid.tunnel_manager out.2.1 = Hybrid.QuickM q'
         ∧ Quick.tunnels q' = [] ∧ Quick._tunnel_processes q' = [])
  ∧ (out.1 = Some (Routes.HTTPException 404)
     ↔ SessionManager.session st.2 = None)
  ∧ (∀ msg, out.1 = Some (Routes.Sent 200 msg) →
       SessionManager.session out.2.2 = None
       ∧ SessionManager.log_buffer out.2.2 = []).
Proof.
  intros st out.
  assert (quick_ok st.1) as Hok by apply quick_ok_run, quick_ok_new.
  subst out. destruct st as [q sm]. cbn [fst snd] in *.
  unfold Routes.destroy_session, Hybrid.destroy_all_tunnels. simpl.
  unfold Quick.destroy_all_tunnels. cbn [fst].
  destruct (destroy_each_all_empty e q sm Hok) as [Hte Hpe].
  destruct (destroy_each_keeps_session e (dict_keys (Quick.tunnels q)) q sm)
    as [Hs _].
  destruct (Quick.destroy_each e (dict_keys (Quick.tunnels q)) (q, sm))
    as [q1 sm1]. cbn [fst snd] in *. rewrite <- Hs. clear Hs.
  pose proof (destroy_session_outcome e sm1) as Hout.
  destruct (SessionManager.destroy_session e sm1) as [[b|x|] sm2]; simpl.
  - destruct Hout as ([s1 Hs1] & Hn & Hl). rewrite Hs1.
    split_and!; [by exists q1 | done | done].
  - destruct x; simpl;
      [rewrite Hout | destruct Hout as [s1 ->] ..];
      (split_and!; [by exists q1 | done | by intros ? [=]]).
  - destruct Hout as [s1 Hs1]. rewrite Hs1.
    split_and!; [by exists q1 | done | by intros ? [=]].
Qed.

(** X24.  A session restored at start-up from a live pid is out of
    reach of the API: GET /sessions and GET /sessions/logs answer 404,
    POST /sessions/command answers 404 and POST /tunnels answers 400,
    in named and in quick mode, and none of them changes anything. *)
Theorem restored_session_is_out_of_reach (e0 e : Env) (s : Session.t) (pid : Z)
  (command : string) (limit port : Z) (use_named configured : bool)
  (n0 : Named.t) :
  Session.pty_pid s = Some pid → pid ≠ 0 → kill0 e0 pid = KillOk →
  let sm := SessionManager.init e0 (Saved s) in
  let h : Hybrid.t Named.t Quick.t := Hybrid.new use_named configured n0 in
  Session.status <$> SessionManager.session sm = Some RUNNING
  ∧ Routes.get_session e sm = Routes.HTTPException 404
  ∧ Routes.get_logs limit sm = Routes.HTTPException 404
  ∧ Routes.send_command e command sm = (Some (Routes.HTTPException 404), sm)
  ∧ Routes.create_tunnel e port (h, sm)
    = (Some (Routes.HTTPException 400), (h, sm)).
Proof.
  intros Hpid Hnz Hlive sm h. subst sm h.
  unfold SessionManager.init, SessionManager._load_session_metadata. simpl.
  rewrite Hpid. simpl.
  destruct (Z.eqb_spec pid 0) as [|_]; [done |]. simpl. rewrite Hlive.
  split_and!; try done.
  unfold Hybrid.new. by destruct (use_named && configured).
Qed.

Lemma restored_session_is_out_of_reach_witness :
  Routes.get_session env_ok restored = Routes.HTTPException 404
  ∧ Routes.send_command env_ok "ls" restored
    = (Some (Routes.HTTPException 404), restored).
Proof.
  destruct (restored_session_is_out_of_reach env_ok env_ok persisted_session
              3131 "ls" 100 3000 false false
              (Named.new "cloude" None "dev.example.com")
              eq_refl ltac:(lia) eq_refl) as (_ & Hget & _ & Hcmd & _).
  split; [exact Hget | exact Hcmd].
Defined.
